(** * Ready or Not mod launcher: entity model, persistence store,
      game path resolver and activation engine

    A shallow embedding of [models.py], [mod_manager.py] and the
    instance-deletion handler of [main.py], with the properties of the
    design document proved over it; then of the library listing and of
    further handlers of the main window, with properties read off the
    code.

    Conventions of the embedding.
    - Python [str] is [string] (a byte string); [str.lower] acts on the
      ASCII letters.
    - A value decoded by [json.load] is a [pyval]; a dict keeps its items
      in insertion order and is read with [dict_get].
    - The dataclasses are records at their annotated field types.  The
      constructors validate nothing, so a document whose values have
      other types builds an object outside the annotations: this outcome
      is kept apart as [Unannotated] and not followed further.
    - A [pathlib.Path] is the list of its components below the root;
      [d / n] appends the component [n]: the names joined to a directory
      (fixed names, [Path.name] of a file, the prefixed [filename] of a
      mod) are single components.
    - The file system is a finite map from paths to nodes.  A symbolic
      link is followed when it is the last component of a path, up to
      [MAXSYMLINKS] links; creating an entry needs the directory above
      it.  Permissions are not modelled: removing an entry that is there
      succeeds.
    - What a function prints is returned with its result where a property
      speaks of it.
    - A handler of the window returns the window, the boxes it showed and
      the exception that left it, if one did; redrawing the lists is not
      modelled. *)

From Stdlib Require Import ZArith Ascii String.
From stdpp Require Import base option list gmap strings pretty sorting.

Local Open Scope string_scope.

(** ** Python strings *)

Module Str.

Definition is_upper (c : ascii) : bool :=
  ((65 <=? nat_of_ascii c) && (nat_of_ascii c <=? 90))%nat.

Definition lower_char (c : ascii) : ascii :=
  if is_upper c then ascii_of_nat (nat_of_ascii c + 32) else c.

(** [s.lower()] *)
Fixpoint lower (s : string) : string :=
  match s with
  | EmptyString => EmptyString
  | String c r => String (lower_char c) (lower r)
  end.

(** [s.startswith(p)] *)
Definition startswith (p s : string) : bool := String.prefix p s.

(** [sub in s] *)
Fixpoint contains (sub s : string) : bool :=
  startswith sub s ||
  match s with
  | EmptyString => false
  | String _ r => contains sub r
  end.

(** [s.split(sep)[0]] for a non-empty separator: the part of [s] before
    the first occurrence of [sep], all of [s] when there is none. *)
Fixpoint before_first (sep s : string) : string :=
  if startswith sep s then EmptyString
  else match s with
       | EmptyString => EmptyString
       | String c r => String c (before_first sep r)
       end.

(** [s.rfind(".")], as the number of characters before the last dot. *)
Fixpoint rfind_dot (s : string) : option nat :=
  match s with
  | EmptyString => None
  | String c r =>
      match rfind_dot r with
      | Some i => Some (S i)
      | None => if Ascii.eqb c "."%char then Some 0%nat else None
      end
  end.

(** [", ".join(l)] and friends. *)
Fixpoint join (sep : string) (l : list string) : string :=
  match l with
  | [] => EmptyString
  | [x] => x
  | x :: r => x +:+ sep +:+ join sep r
  end.

(** Truth value of a [str]. *)
Definition truthy (s : string) : bool :=
  match s with EmptyString => false | _ => true end.

Definition nl : string := String (ascii_of_nat 10) EmptyString.

End Str.

(** ** Values decoded from JSON documents *)

#[warnings="-register-all"]
Inductive pyval : Type :=
  | PNone
  | PBool (b : bool)
  | PInt (z : Z)
  | PStr (s : string)
  | PList (l : list pyval)
  | PDict (d : list (string * pyval)).

(** [d.get(k)] on the items of a dict. *)
Fixpoint dict_get (k : string) (d : list (string * pyval)) : option pyval :=
  match d with
  | [] => None
  | (k', v) :: r => if String.eqb k k' then Some v else dict_get k r
  end.

Definition dict_keys (d : list (string * pyval)) : list string := d.*1.

(** ** Exceptions and results *)

Inductive exn : Type :=
  | TypeError
  | KeyError
  | JSONDecodeError
  | FileExistsError
  | FileNotFoundError
  | NotADirectoryError
  | IsADirectoryError
  | OSError.

Inductive result (A : Type) : Type :=
  | Ok (a : A)
  | Raise (e : exn).
Arguments Ok {A} a.
Arguments Raise {A} e.

(** What a dataclass constructor call returned: an object whose fields
    have the annotated types, or one that has not. *)
Inductive built (A : Type) : Type :=
  | Built (a : A)
  | Unannotated.
Arguments Built {A} a.
Arguments Unannotated {A}.

Definition as_str (v : pyval) : option string :=
  match v with PStr s => Some s | _ => None end.
Definition as_int (v : pyval) : option Z :=
  match v with PInt z => Some z | _ => None end.
Definition as_bool (v : pyval) : option bool :=
  match v with PBool b => Some b | _ => None end.
(** [Optional[str]] *)
Definition as_opt_str (v : pyval) : option (option string) :=
  match v with PNone => Some None | PStr s => Some (Some s) | _ => None end.

Definition of_option {A} (o : option A) : built A :=
  match o with Some a => Built a | None => Unannotated end.

(** ** Entity model ([models.py]) *)

Module Mod.

Record t : Type := Mod {
  name : string;      (* filename without extension *)
  filename : string;  (* full filename with .pak *)
  path : string;      (* absolute path to the .pak file *)
  size : Z;           (* file size in bytes *)
  enabled : bool      (* default True *)
}.

Definition fields : list string :=
  ["name"; "filename"; "path"; "size"; "enabled"].

(** [asdict(self)] *)
Definition to_dict (m : t) : pyval :=
  PDict [("name", PStr (name m)); ("filename", PStr (filename m));
         ("path", PStr (path m)); ("size", PInt (size m));
         ("enabled", PBool (enabled m))].

(** The constructor called with the items of [data] as keyword
    arguments: the argument must be a mapping, every key must be a field,
    the four fields without default must be given. *)
Definition from_dict (data : pyval) : result (built t) :=
  match data with
  | PDict d =>
      if forallb (fun k => bool_decide (k ∈ fields)) (dict_keys d) then
        match dict_get "name" d, dict_get "filename" d,
              dict_get "path" d, dict_get "size" d with
        | Some vn, Some vf, Some vp, Some vs =>
            let ve := default (PBool true) (dict_get "enabled" d) in
            Ok (of_option
                  (n ← as_str vn; f ← as_str vf; p ← as_str vp;
                   s ← as_int vs; e ← as_bool ve;
                   Some (Mod n f p s e)))
        | _, _, _, _ => Raise TypeError
        end
      else Raise TypeError
  | _ => Raise TypeError
  end.

End Mod.

Module Instance.

Record t : Type := Instance {
  name : string;
  mods : list Mod.t;
  created : string   (* ISO timestamp, default "" *)
}.

Definition to_dict (i : t) : pyval :=
  PDict [("name", PStr (name i));
         ("mods", PList (map Mod.to_dict (mods i)));
         ("created", PStr (created i))].

(** [[Mod.from_dict(mod) for mod in items]]: the first raising item ends
    the comprehension. *)
Fixpoint mods_from (items : list pyval) : result (built (list Mod.t)) :=
  match items with
  | [] => Ok (Built [])
  | v :: r =>
      match Mod.from_dict v with
      | Raise e => Raise e
      | Ok bm =>
          match mods_from r with
          | Raise e => Raise e
          | Ok bl =>
              Ok match bm, bl with
                 | Built m, Built l => Built (m :: l)
                 | _, _ => Unannotated
                 end
          end
      end
  end.

(** The items the comprehension iterates over, for [data.get('mods', [])]
    of each kind: a list gives its elements, a dict its keys, a string
    its characters; the other values are not iterable. *)
Definition iterate (v : pyval) : result (list pyval) :=
  match v with
  | PList l => Ok l
  | PDict d => Ok (map PStr (dict_keys d))
  | PStr s => Ok (map (fun c => PStr (String c EmptyString)) (list_ascii_of_string s))
  | _ => Raise TypeError
  end.

Definition from_dict (data : pyval) : result (built t) :=
  match data with
  | PDict d =>
      match dict_get "name" d with
      | None => Raise KeyError
      | Some vn =>
          let vc := default (PStr "") (dict_get "created" d) in
          match iterate (default (PList []) (dict_get "mods" d)) with
          | Raise e => Raise e
          | Ok items =>
              match mods_from items with
              | Raise e => Raise e
              | Ok bl =>
                  Ok match as_str vn, as_str vc, bl with
                     | Some n, Some c, Built l => Built (Instance n l c)
                     | _, _, _ => Unannotated
                     end
              end
          end
      end
  | _ => Raise TypeError
  end.

(** [add_mod]: returns the flag and the instance after the call. *)
Definition add_mod (m : Mod.t) (i : t) : bool * t :=
  if existsb (fun existing => String.eqb (Mod.filename existing) (Mod.filename m))
             (mods i)
  then (false, i)
  else (true, Instance (name i) (mods i ++ [m])%list (created i)).

Definition remove_mod (fname : string) (i : t) : t :=
  Instance (name i)
           (filter (fun m => Mod.filename m ≠ fname) (mods i))
           (created i).

Definition get_enabled_mods (i : t) : list Mod.t :=
  filter (fun m => Mod.enabled m = true) (mods i).

End Instance.

Module AppState.

Record t : Type := AppState {
  active_instance : option string;
  steam_path : option string
}.

(** [AppState()] *)
Definition empty : t := AppState None None.

Definition fields : list string := ["active_instance"; "steam_path"].

Definition of_opt_str (o : option string) : pyval :=
  match o with Some s => PStr s | None => PNone end.

Definition to_dict (s : t) : pyval :=
  PDict [("active_instance", of_opt_str (active_instance s));
         ("steam_path", of_opt_str (steam_path s))].

(** The constructor called with the items of [data] as keyword
    arguments; both fields default to [None]. *)
Definition from_dict (data : pyval) : result (built t) :=
  match data with
  | PDict d =>
      if forallb (fun k => bool_decide (k ∈ fields)) (dict_keys d) then
        let va := default PNone (dict_get "active_instance" d) in
        let vs := default PNone (dict_get "steam_path" d) in
        Ok (of_option (a ← as_opt_str va; s ← as_opt_str vs; Some (AppState a s)))
      else Raise TypeError
  | _ => Raise TypeError
  end.

End AppState.

(** ** File system *)

Module FS.

(** A path is the list of its components below the root. *)
Definition path : Type := list string.

(** [d / n] *)
Definition joinpath (d : path) (n : string) : path := (d ++ [n])%list.
Infix "</>" := joinpath (at level 40, left associativity).

(** [str(p)] of an absolute path. *)
Definition str (p : path) : string :=
  match p with
  | [] => "/"
  | _ => fold_right (fun c acc => "/" +:+ c +:+ acc) "" p
  end.

(** [Path(s)]: the components of [s], without the empty ones and the
    single dots that [pathlib] drops. *)
Fixpoint components (cur : string) (s : string) : list string :=
  match s with
  | EmptyString => [cur]
  | String c r =>
      if Ascii.eqb c "/"%char then cur :: components "" r
      else components (cur +:+ String c EmptyString) r
  end.

Definition Path (s : string) : path :=
  filter (fun c => c ≠ "" ∧ c ≠ ".") (components "" s).

(** [p.parent] and [p.name] *)
Fixpoint split_last (p : path) : option (path * string) :=
  match p with
  | [] => None
  | [n] => Some ([], n)
  | c :: r => prod_map (cons c) id <$> split_last r
  end.

Definition parent (p : path) : path :=
  match split_last p with Some (d, _) => d | None => [] end.

Definition name (p : path) : string :=
  match split_last p with Some (_, n) => n | None => "" end.

(** [p.suffix] and [p.stem]: the name is cut at its last dot unless that
    dot is its first or its last character. *)
Definition cut_point (n : string) : option nat :=
  match Str.rfind_dot n with
  | Some i => if ((0 <? i) && (i <? String.length n - 1))%nat then Some i else None
  | None => None
  end.

Definition suffix (p : path) : string :=
  match cut_point (name p) with
  | Some i => String.substring i (String.length (name p) - i) (name p)
  | None => ""
  end.

Definition stem (p : path) : string :=
  match cut_point (name p) with
  | Some i => String.substring 0 i (name p)
  | None => name p
  end.

(** A regular file has a size and, when its content is a JSON text, the
    value [json.load] decodes from it. *)
Inductive node : Type :=
  | Dir
  | File (size : Z) (doc : option pyval)
  | Symlink (target : path).

Abbreviation fs := (gmap path node).

(** The most symbolic links followed in one lookup. *)
Definition MAXSYMLINKS : nat := 40.

(** The path a chain of links ends at. *)
Fixpoint follow (n : nat) (s : fs) (p : path) : option path :=
  match s !! p with
  | Some (Symlink t) =>
      match n with
      | O => None
      | S k => follow k s t
      end
  | _ => Some p
  end.

(** [os.stat]: links are followed. *)
Definition stat (s : fs) (p : path) : option node :=
  q ← follow MAXSYMLINKS s p; s !! q.

(** [p.exists()], [p.is_dir()], [p.is_symlink()] *)
Definition exists_ (s : fs) (p : path) : bool :=
  match stat s p with Some _ => true | None => false end.

Definition is_dir (s : fs) (p : path) : bool :=
  match stat s p with Some Dir => true | _ => false end.

Definition is_symlink (s : fs) (p : path) : bool :=
  match s !! p with Some (Symlink _) => true | _ => false end.

(** The entries directly below [d]. *)
Definition children (s : fs) (d : path) : list path :=
  filter (fun p => split_last p = Some (d, name p)) (map_to_list s).*1.

(** [d.iterdir()] *)
Definition iterdir (s : fs) (d : path) : result (list path) :=
  match stat s d with
  | Some Dir => Ok (children s d)
  | Some _ => Raise NotADirectoryError
  | None => Raise FileNotFoundError
  end.

(** What creating an entry at [p] needs of the directory above it. *)
Definition check_parent (s : fs) (p : path) : option exn :=
  match split_last p with
  | None => Some FileExistsError
  | Some ([], _) => None
  | Some (d, _) =>
      match stat s d with
      | Some Dir => None
      | Some _ => Some NotADirectoryError
      | None => Some FileNotFoundError
      end
  end.

(** [p.unlink()] *)
Definition unlink (p : path) (s : fs) : result fs :=
  match s !! p with
  | None => Raise FileNotFoundError
  | Some Dir => Raise IsADirectoryError
  | Some _ => Ok (delete p s)
  end.

(** [os.symlink(target, dst)] *)
Definition symlink (target dst : path) (s : fs) : result fs :=
  match s !! dst with
  | Some _ => Raise FileExistsError
  | None =>
      match check_parent s dst with
      | Some e => Raise e
      | None => Ok (<[dst := Symlink target]> s)
      end
  end.

(** [os.mkdir(p)] *)
Definition mkdir (p : path) (s : fs) : result fs :=
  match s !! p with
  | Some _ => Raise FileExistsError
  | None =>
      match check_parent s p with
      | Some e => Raise e
      | None => Ok (<[p := Dir]> s)
      end
  end.

(** [p.mkdir(exist_ok=True)] *)
Definition mkdir_exist_ok (p : path) (s : fs) : result fs :=
  match mkdir p s with
  | Raise FileExistsError => if is_dir s p then Ok s else Raise FileExistsError
  | r => r
  end.

(** [p.mkdir(parents=True, exist_ok=True)], the missing directories made
    from the top; [done] is the part of the path already walked.  The
    directories made before a failure stay. *)
Fixpoint mkdir_from (done : path) (todo : list string) (s : fs) : option exn * fs :=
  match todo with
  | [] => (None, s)
  | c :: r =>
      match mkdir_exist_ok (done </> c) s with
      | Ok s' => mkdir_from (done </> c) r s'
      | Raise e => (Some e, s)
      end
  end.

Definition mkdir_parents (p : path) (s : fs) : option exn * fs := mkdir_from [] p s.

(** [shutil.rmtree(d)] *)
Definition rmtree (d : path) (s : fs) : result fs :=
  match s !! d with
  | Some Dir => Ok (filter (fun kv => ¬ d `prefix_of` kv.1) s)
  | Some (Symlink _) => Raise OSError
  | Some (File _ _) => Raise NotADirectoryError
  | None => Raise FileNotFoundError
  end.

(** [shutil.copy2(src, dst)] *)
Definition copy2 (src dst : path) (s : fs) : result fs :=
  match stat s src with
  | None => Raise FileNotFoundError
  | Some Dir => Raise IsADirectoryError
  | Some (Symlink _) => Raise OSError
  | Some (File sz doc) =>
      match follow MAXSYMLINKS s dst with
      | None => Raise OSError
      | Some q =>
          match s !! q with
          | Some Dir => Ok (<[q </> name src := File sz doc]> s)
          | Some _ => Ok (<[q := File sz doc]> s)
          | None =>
              match check_parent s q with
              | Some e => Raise e
              | None => Ok (<[q := File sz doc]> s)
              end
          end
      end
  end.

(** [p.stat().st_size]; a directory reports one block. *)
Definition st_size (s : fs) (p : path) : result Z :=
  match stat s p with
  | Some (File sz _) => Ok sz
  | Some _ => Ok 4096%Z
  | None => Raise FileNotFoundError
  end.

(** [json.load(open(p))] *)
Definition json_load (s : fs) (p : path) : result pyval :=
  match stat s p with
  | Some (File _ (Some v)) => Ok v
  | Some (File _ None) => Raise JSONDecodeError
  | Some _ => Raise IsADirectoryError
  | None => Raise FileNotFoundError
  end.

End FS.

(** [str(e)] of a caught exception, up to the operands the interpreter
    appends to the text. *)
Definition str_exn (e : exn) : string :=
  match e with
  | TypeError => "TypeError"
  | KeyError => "KeyError"
  | JSONDecodeError => "Expecting value"
  | FileExistsError => "[Errno 17] File exists"
  | FileNotFoundError => "[Errno 2] No such file or directory"
  | NotADirectoryError => "[Errno 20] Not a directory"
  | IsADirectoryError => "[Errno 21] Is a directory"
  | OSError => "OSError"
  end.

Definition result_bind {A B} (f : A -> result B) (r : result A) : result B :=
  match r with Ok a => f a | Raise e => Raise e end.

Definition is_ok {A} (r : result A) : bool :=
  match r with Ok _ => true | Raise _ => false end.

#[global] Instance result_mret : MRet result := @Ok.
#[global] Instance result_mbind : MBind result := @result_bind.

(** ** Persistence store ([models.DataManager]) *)

Module DataManager.
Import FS.

Definition SYMLINK_PREFIX : string := "ronmgr_".

Record t : Type := DataManager { data_dir : path }.

Definition mods_dir (dm : t) : path := data_dir dm </> "mods".
Definition instances_dir (dm : t) : path := data_dir dm </> "instances".
Definition state_file (dm : t) : path := data_dir dm </> "state.json".

Definition _ensure_dirs (dm : t) (s : fs) : option exn * fs :=
  match mkdir_parents (data_dir dm) s with
  | (Some e, s1) => (Some e, s1)
  | (None, s1) =>
      match mkdir_exist_ok (mods_dir dm) s1 with
      | Raise e => (Some e, s1)
      | Ok s2 =>
          match mkdir_exist_ok (instances_dir dm) s2 with
          | Raise e => (Some e, s2)
          | Ok s3 => (None, s3)
          end
      end
  end.

(** [load_state]: the state and the lines printed.  The result type
    keeps an exception leaving the function apart from a returned state. *)
Definition load_state (dm : t) (s : fs) : result (built AppState.t) * list string :=
  if exists_ s (state_file dm) then
    match json_load s (state_file dm) ≫= AppState.from_dict with
    | Ok st => (Ok st, [])
    | Raise e =>
        (Ok (Built AppState.empty), ["Error loading state: " +:+ str_exn e])
    end
  else (Ok (Built AppState.empty), []).

(** [load_instance]: the instance, if any, and the lines printed. *)
Definition load_instance (dm : t) (name : string) (s : fs)
  : option (built Instance.t) * list string :=
  let instance_file := instances_dir dm </> name </> "instance.json" in
  if negb (exists_ s instance_file) then (None, [])
  else
    match json_load s instance_file ≫= Instance.from_dict with
    | Ok i => (Some i, [])
    | Raise e =>
        (None, ["Error loading instance " +:+ name +:+ ": " +:+ str_exn e])
    end.

(** [open(p, 'w')] followed by [json.dump(v, f, indent=2)]; [len] is the
    length of the text written. *)
Definition write_json (len : pyval -> Z) (p : path) (v : pyval) (s : fs) : result fs :=
  match follow MAXSYMLINKS s p with
  | None => Raise OSError
  | Some q =>
      match s !! q with
      | Some Dir => Raise IsADirectoryError
      | Some _ => Ok (<[q := File (len v) (Some v)]> s)
      | None =>
          match check_parent s q with
          | Some e => Raise e
          | None => Ok (<[q := File (len v) (Some v)]> s)
          end
      end
  end.

Definition save_state (len : pyval -> Z) (dm : t) (st : AppState.t) (s : fs) : result fs :=
  write_json len (state_file dm) (AppState.to_dict st) s.

Definition save_instance (len : pyval -> Z) (dm : t) (i : Instance.t) (s : fs) : result fs :=
  let instance_dir := instances_dir dm </> Instance.name i in
  s1 ← mkdir_exist_ok instance_dir s;
  write_json len (instance_dir </> "instance.json") (Instance.to_dict i) s1.

Definition delete_instance (dm : t) (name : string) (s : fs) : result fs :=
  let instance_dir := instances_dir dm </> name in
  if exists_ s instance_dir then rmtree instance_dir s else Ok s.

(** [sorted] on strings. *)
Definition sorted (l : list string) : list string := merge_sort String.le l.

Definition list_instances (dm : t) (s : fs) : result (list string) :=
  if negb (exists_ s (instances_dir dm)) then Ok []
  else
    items ← iterdir s (instances_dir dm);
    Ok (sorted
          (name <$> filter (fun item => is_dir s item = true ∧
                                        exists_ s (item </> "instance.json") = true)
                           items)).

(** [import_mod]: the mod, if one was imported, and the store after. *)
Definition import_mod (dm : t) (pak_file : path) (s : fs) : result (option Mod.t) * fs :=
  if negb (exists_ s pak_file) || negb (String.eqb (Str.lower (suffix pak_file)) ".pak")
  then (Ok None, s)
  else
    let dest := mods_dir dm </> name pak_file in
    if exists_ s dest then (Ok None, s)
    else
      match copy2 pak_file dest s with
      | Raise e => (Raise e, s)
      | Ok s' =>
          match st_size s' dest with
          | Raise e => (Raise e, s')
          | Ok sz =>
              (Ok (Some (Mod.Mod (stem pak_file) (name pak_file) (str dest) sz true)), s')
          end
      end.

(** The loop of [import_archive] over the extracted package files. *)
Fixpoint import_all (dm : t) (paks : list path) (s : fs) : result (list Mod.t) * fs :=
  match paks with
  | [] => (Ok [], s)
  | pak_file :: rest =>
      match import_mod dm pak_file s with
      | (Raise e, s') => (Raise e, s')
      | (Ok o, s') =>
          match import_all dm rest s' with
          | (Raise e, s'') => (Raise e, s'')
          | (Ok l, s'') => (Ok (option_list o ++ l)%list, s'')
          end
      end
  end.

(** [import_archive].  [_extract_archive] runs the extraction tool of the
    archive format: what it returned or raised is [extracted], and [s] is
    the store it left. *)
Definition import_archive (dm : t) (archive_path : path)
    (extracted : result (list path)) (s : fs)
  : (list Mod.t * option string) * fs :=
  if negb (exists_ s archive_path) then (([], Some "Archive file not found"), s)
  else
    let sfx := Str.lower (suffix archive_path) in
    if negb (bool_decide (sfx ∈ [".zip"; ".7z"; ".rar"]))
    then (([], Some ("Unsupported archive format: " +:+ sfx)), s)
    else
      match extracted with
      | Raise e => (([], Some (str_exn e)), s)
      | Ok [] => (([], Some "No .pak files found in archive"), s)
      | Ok extracted_paks =>
          match import_all dm extracted_paks s with
          | (Ok imported_mods, s') => ((imported_mods, None), s')
          | (Raise e, s') => (([], Some (str_exn e)), s')
          end
      end.

End DataManager.

(** ** Game path resolver and activation engine ([mod_manager.ModManager]) *)

Module ModManager.
Import FS.

Record t : Type := ModManager {
  data_manager : DataManager.t;
  game_mods_dir : option path;
  error_message : option string
}.

(** *** Resolution

    The resolver runs over the store and records, in order, every path
    it examines with [exists()] and every line it prints. *)

Record world : Type := World {
  files : fs;
  probes : list path;
  stdout : list string
}.

Definition io (A : Type) : Type := world -> A * world.

Definition io_ret {A} (a : A) : io A := fun w => (a, w).
Definition io_bind {A B} (m : io A) (k : A -> io B) : io B :=
  fun w => let '(a, w') := m w in k a w'.

Notation "'do' x <- m ; k" := (io_bind m (fun x => k))
  (at level 10, x name, m at level 100, k at level 200).

Definition probe (p : path) : io bool :=
  fun w => (exists_ (files w) p, World (files w) (probes w ++ [p]) (stdout w)).

Definition print (line : string) : io unit :=
  fun w => (tt, World (files w) (probes w) (stdout w ++ [line])).

Definition make_dirs (p : path) : io (option exn) :=
  fun w => let '(e, s) := mkdir_parents p (files w) in
           (e, World s (probes w) (stdout w)).

(** The diagnoses of the resolver. *)
Definition SteamNotFound : string :=
  "Steam installation not detected (native or Flatpak)." +:+ Str.nl +:+ Str.nl +:+
  "Expected locations:" +:+ Str.nl +:+
  "  • ~/.steam/steam/steamapps (native)" +:+ Str.nl +:+
  "  • ~/.var/app/com.valvesoftware.Steam/.steam/steam/steamapps (Flatpak)".

Definition GameFilesMissing : string :=
  "Ready or Not is registered in Steam but game files are missing." +:+ Str.nl +:+ Str.nl +:+
  "Please verify the game files in Steam:" +:+ Str.nl +:+
  "Right-click Ready or Not → Properties → Installed Files → Verify integrity".

Definition PrefixMissing : string :=
  "Ready or Not is installed, but the Proton prefix does not exist." +:+ Str.nl +:+ Str.nl +:+
  "Please launch the game once in Steam to generate the Proton prefix.".

Definition PrefixIncomplete : string :=
  "Proton prefix exists but appears incomplete." +:+ Str.nl +:+ Str.nl +:+
  "The AppData/Local directory structure is missing." +:+ Str.nl +:+
  "Please launch the game once to complete prefix initialization.".

Definition DirectoryCreateFailed (e : exn) : string :=
  "Failed to create mod directory: " +:+ str_exn e.

Definition GameNotInstalled (checked : nat) : string :=
  "Ready or Not is not installed in any detected Steam library." +:+ Str.nl +:+ Str.nl +:+
  "Checked " +:+ pretty checked +:+ " Steam librar" +:+
  (if (checked =? 1)%nat then "y" else "ies") +:+ "." +:+ Str.nl +:+ Str.nl +:+
  "Please install Ready or Not from Steam.".

Definition manifest (steamapps : path) : path :=
  steamapps </> "appmanifest_1144200.acf".
Definition game_dir (steamapps : path) : path :=
  steamapps </> "common" </> "Ready Or Not".
Definition compatdata_pfx (steamapps : path) : path :=
  steamapps </> "compatdata" </> "1144200" </> "pfx".
Definition appdata_local (steamapps : path) : path :=
  compatdata_pfx steamapps </> "drive_c" </> "users" </> "steamuser" </>
  "AppData" </> "Local".
Definition mods_path (steamapps : path) : path :=
  appdata_local steamapps </> "ReadyOrNot" </> "Saved" </> "Paks".

(** Returns [(path, error_message)]. *)
Definition _validate_and_create_mod_directory (steamapps : path)
  : io (option path * option string) :=
  do found <- probe (manifest steamapps);
  if negb found then io_ret (None, None)
  else
    do found <- probe (game_dir steamapps);
    if negb found then io_ret (None, Some GameFilesMissing)
    else
      do found <- probe (compatdata_pfx steamapps);
      if negb found then io_ret (None, Some PrefixMissing)
      else
        do found <- probe (mods_path steamapps);
        if found then io_ret (Some (mods_path steamapps), None)
        else
          do found <- probe (appdata_local steamapps);
          if negb found then io_ret (None, Some PrefixIncomplete)
          else
            do failure <- make_dirs (mods_path steamapps);
            match failure with
            | None =>
                do _ <- print ("Created mod directory: " +:+ str (mods_path steamapps));
                io_ret (Some (mods_path steamapps), None)
            | Some e => io_ret (None, Some (DirectoryCreateFailed e))
            end.

(** How the loop over the libraries ended. *)
Inductive verdict : Type :=
  | Found (p : path)
  | Fatal (error : string)
  | KeepSearching.

(** The loop of [_detect_game_path]. *)
Fixpoint check_libraries (libraries : list path) : io verdict :=
  match libraries with
  | [] => io_ret KeepSearching
  | steamapps :: rest =>
      do r <- _validate_and_create_mod_directory steamapps;
      match r with
      | (Some p, _) => io_ret (Found p)
      | (None, Some error) =>
          if Str.truthy error then io_ret (Fatal error) else check_libraries rest
      | (None, None) => check_libraries rest
      end
  end.

(** [_detect_game_path], the libraries being those that
    [_find_steam_libraries] returned: the value returned and the manager
    after the call. *)
Definition _detect_game_path (libraries : list path) (self : t)
  : io (option path * t) :=
  match libraries with
  | [] =>
      io_ret (None, ModManager (data_manager self) (game_mods_dir self)
                               (Some SteamNotFound))
  | _ =>
      do v <- check_libraries libraries;
      match v with
      | Found p => io_ret (Some p, ModManager (data_manager self) (Some p) None)
      | Fatal error =>
          io_ret (None, ModManager (data_manager self) (game_mods_dir self)
                                   (Some error))
      | KeepSearching =>
          io_ret (None, ModManager (data_manager self) (game_mods_dir self)
                                   (Some (GameNotInstalled (length libraries))))
      end
  end.

(** *** Activation *)

Definition is_game_path_valid (self : t) (s : fs) : bool :=
  match game_mods_dir self with
  | Some d => exists_ s d
  | None => false
  end.

Definition get_game_path (self : t) : option string :=
  str <$> game_mods_dir self.

(** A managed entry: a symbolic link whose name carries the prefix. *)
Definition managed (s : fs) (item : path) : Prop :=
  is_symlink s item = true ∧
  Str.startswith DataManager.SYMLINK_PREFIX (name item) = true.

#[global] Instance managed_dec s item : Decision (managed s item).
Proof. unfold managed. apply _. Defined.

Definition get_managed_symlinks (self : t) (s : fs) : result (list path) :=
  match game_mods_dir self with
  | Some d =>
      if exists_ s d then
        items ← iterdir s d;
        Ok (filter (managed s) items)
      else Ok []
  | None => Ok []
  end.

(** The loop of [clear_managed_symlinks]: the count, the store and the
    lines printed for the links that could not be removed. *)
Fixpoint unlink_all (symlinks : list path) (count : nat) (s : fs)
  : nat * fs * list string :=
  match symlinks with
  | [] => (count, s, [])
  | symlink :: rest =>
      match unlink symlink s with
      | Ok s' => unlink_all rest (count + 1) s'
      | Raise e =>
          let '(n, s', out) := unlink_all rest count s in
          (n, s',
           ("Error removing symlink " +:+ str symlink +:+ ": " +:+ str_exn e) :: out)
      end
  end.

Definition clear_managed_symlinks (self : t) (s : fs) : result nat * fs :=
  if negb (is_game_path_valid self s) then (Ok 0%nat, s)
  else
    match get_managed_symlinks self s with
    | Raise e => (Raise e, s)
    | Ok symlinks => let '(n, s', _) := unlink_all symlinks 0 s in (Ok n, s')
    end.

(** One turn of the loop of [activate_instance] in the directory [d]. *)
Definition link_mod (d : path) (m : Mod.t) (acc : nat * list string * fs)
  : nat * list string * fs :=
  let '(count, errors, s) := acc in
  let mod_path := Path (Mod.path m) in
  if negb (exists_ s mod_path) then
    (count, errors ++ ["Mod file not found: " +:+ Mod.filename m], s)%list
  else
    let symlink_name := DataManager.SYMLINK_PREFIX +:+ Mod.filename m in
    let symlink_path := d </> symlink_name in
    match symlink mod_path symlink_path s with
    | Ok s' => (count + 1, errors, s')%nat
    | Raise FileExistsError =>
        (count, errors ++ ["Symlink already exists: " +:+ symlink_name], s)%list
    | Raise e =>
        (count,
         errors ++ ["Failed to create symlink for " +:+ Mod.filename m +:+ ": "
                    +:+ str_exn e], s)%list
    end.

Definition link_all (d : path) (l : list Mod.t) (acc : nat * list string * fs)
  : nat * list string * fs :=
  fold_left (fun a m => link_mod d m a) l acc.

(** Returns [(count, errors)] and the store after the call. *)
Definition activate_instance (self : t) (instance : Instance.t) (s : fs)
  : result (nat * list string) * fs :=
  match game_mods_dir self with
  | Some d =>
      if exists_ s d then
        match clear_managed_symlinks self s with
        | (Raise e, s1) => (Raise e, s1)
        | (Ok _, s1) =>
            let '(count, errors, s2) :=
              link_all d (Instance.get_enabled_mods instance) (0%nat, [], s1) in
            (Ok (count, errors), s2)
        end
      else (Ok (0%nat, ["Game directory not found"]), s)
  | None => (Ok (0%nat, ["Game directory not found"]), s)
  end.

Definition deactivate_all (self : t) (s : fs) : result nat * fs :=
  clear_managed_symlinks self s.

Definition verify_mods (instance : Instance.t) (s : fs) : list string :=
  Mod.filename <$>
    filter (fun m => exists_ s (Path (Mod.path m)) = false) (Instance.mods instance).

(** *** Conflict heuristics *)

Definition ai_keywords : list string := ["ai"; "suspect"; "swat"; "officer"].

Definition is_ai_mod (m : Mod.t) : bool :=
  existsb (fun keyword => Str.contains keyword (Str.lower (Mod.name m))) ai_keywords.

(** [mod.name.lower().split('_v')[0].split('-v')[0]] *)
Definition base_name (m : Mod.t) : string :=
  Str.before_first "-v" (Str.before_first "_v" (Str.lower (Mod.name m))).

Definition similar_warning (first_seen this : string) : string :=
  "Similar mods detected: '" +:+ first_seen +:+ "' and '" +:+ this +:+ "'. " +:+
  "These may be duplicate versions.".

(** One turn of the second loop of [detect_conflicts]. *)
Definition note_similar (acc : gmap string string * list string) (m : Mod.t)
  : gmap string string * list string :=
  let '(seen_names, warnings) := acc in
  match seen_names !! base_name m with
  | Some first_seen =>
      (seen_names, warnings ++ [similar_warning first_seen (Mod.name m)])%list
  | None => (<[base_name m := Mod.name m]> seen_names, warnings)
  end.

Definition detect_conflicts (instance : Instance.t) : list string :=
  let ai_mods := Mod.name <$> filter (fun m => is_ai_mod m = true)
                                     (Instance.get_enabled_mods instance) in
  let warnings :=
    if (1 <? length ai_mods)%nat then
      ["Multiple AI-related mods detected: " +:+ Str.join ", " ai_mods +:+ ". " +:+
       "These may conflict."]
    else [] in
  (fold_left note_similar (Instance.get_enabled_mods instance) (∅, warnings)).2.

Definition get_steam_launch_command : string := "steam steam://rungameid/1144200".

End ModManager.

(** ** The instance handlers of the main window ([main.MainWindow]) *)

Module MainWindow.
Import FS.

Record t : Type := MainWindow {
  data_manager : DataManager.t;
  state : AppState.t;
  log : list (string * string)   (* lines of the log widget, with their level *)
}.

(** What the handler showed and what it left: a warning box and nothing
    else when the instance is the active one; otherwise the instance is
    deleted, the instances are listed again and the two lines are
    logged. *)
Inductive shown : Type :=
  | Nothing
  | Warning (title text : string).

Definition delete_instance (self : t) (name : string) (s : fs)
  : result (shown * t) * fs :=
  if bool_decide (AppState.active_instance (state self) = Some name) then
    (Ok (Warning "Cannot Delete"
                 "Cannot delete the active instance. Please deactivate it first.",
         self), s)
  else
    match DataManager.delete_instance (data_manager self) name s with
    | Raise e => (Raise e, s)
    | Ok s' =>
        (* [_load_instances()] *)
        match DataManager.list_instances (data_manager self) s' with
        | Raise e => (Raise e, s')
        | Ok instances =>
            (Ok (Nothing,
                 MainWindow (data_manager self) (state self)
                            (log self ++
                             [("Loaded " +:+ pretty (length instances)
                               +:+ " instance(s)", "info");
                              ("Deleted instance: " +:+ name, "info")])%list),
             s')
        end
    end.

End MainWindow.

(** ** Reference definitions, following the wording of the design document *)

Module Reference.
Import FS.

(** Truncation of a name at the first occurrence of a version marker,
    in either of its two spellings. *)
Fixpoint cut_at_marker (s : string) : string :=
  if Str.startswith "_v" s || Str.startswith "-v" s then EmptyString
  else match s with
       | EmptyString => EmptyString
       | String c r => String c (cut_at_marker r)
       end.

Definition normalized (m : Mod.t) : string :=
  cut_at_marker (Str.lower (Mod.name m)).

(** The near-duplicate warnings of a list of mods that follows the mods
    [earlier]: one for each mod whose normalized name is that of a mod
    before it, naming the first such mod. *)
Fixpoint near_duplicates (earlier l : list Mod.t) : list string :=
  match l with
  | [] => []
  | m :: r =>
      match find (fun x => bool_decide (normalized x = normalized m)) earlier with
      | Some first_seen =>
          ModManager.similar_warning (Mod.name first_seen) (Mod.name m)
          :: near_duplicates (earlier ++ [m]) r
      | None => near_duplicates (earlier ++ [m]) r
      end
  end.

(** The combined warning of the keyword heuristic. *)
Definition ai_warning (l : list Mod.t) : list string :=
  let ai_mods := Mod.name <$> filter (fun m => ModManager.is_ai_mod m = true) l in
  if (1 <? length ai_mods)%nat then
    ["Multiple AI-related mods detected: " +:+ Str.join ", " ai_mods +:+ ". " +:+
     "These may conflict."]
  else [].

(** A state document of the wrong shape: not an object, or an object with
    a key that is no field of the state. *)
Definition wrong_shape (v : pyval) : Prop :=
  match v with
  | PDict d => ∃ k, k ∈ dict_keys d ∧ k ∉ AppState.fields
  | _ => True
  end.

(** A state document of the right shape when the words are read in full:
    an object whose keys are fields of the state and whose values are
    strings or null. *)
Definition state_shaped (v : pyval) : Prop :=
  match v with
  | PDict d =>
      Forall (fun kv => kv.1 ∈ AppState.fields ∧ is_Some (as_opt_str kv.2)) d
  | _ => False
  end.

(** The directory of the instance [n] holds a document that loads. *)
Definition has_valid_document (dm : DataManager.t) (s : fs) (n : string) : Prop :=
  ∃ i, (DataManager.load_instance dm n s).1 = Some i.

(** The error recorded for an enabled mod whose source file is gone. *)
Definition MissingSource (m : Mod.t) : string :=
  "Mod file not found: " +:+ Mod.filename m.

End Reference.

(** ** Ownership of the entries of the game mod directory *)

Module Invariant.
Import FS.

(** A symbolic link. *)
Definition is_link (o : option node) : bool :=
  match o with Some (Symlink _) => true | _ => false end.

(** An entry of the directory [d] that the manager owns: a link directly
    below [d] whose name carries the prefix. *)
Definition owned (d q : path) (o : option node) : Prop :=
  q = d </> name q ∧
  Str.startswith DataManager.SYMLINK_PREFIX (name q) = true ∧
  is_link o = true.

#[global] Instance owned_dec d q o : Decision (owned d q o).
Proof. unfold owned. apply _. Defined.

(** The store [s] grew from [c] by entries the manager owns in [d]. *)
Definition grown (d : path) (c s : fs) : Prop :=
  ∀ q, s !! q = c !! q ∨ (c !! q = None ∧ owned d q (s !! q)).

(** A file the archive import passes over: its suffix is not that of a
    package, or the library has a file of its name. *)
Definition passed_over dm s (n : string) : Prop :=
  Str.lower (suffix [n]) ≠ ".pak" ∨ exists_ s (DataManager.mods_dir dm </> n) = true.

End Invariant.

(** ** Sample data *)

Module Sample.
Import FS.

(** The store a mutation returned. *)
Definition store_of (r : result fs) : fs :=
  match r with Ok s => s | Raise _ => ∅ end.

Definition dm : DataManager.t := DataManager.DataManager ["home"; "u"; ".ron-modmgr"].

Definition overhaul (v : string) (on : bool) : Mod.t :=
  Mod.Mod ("Overhaul_v" +:+ v) ("Overhaul_v" +:+ v +:+ ".pak")
          ("/home/u/.ron-modmgr/mods/Overhaul_v" +:+ v +:+ ".pak") 1024 on.

Definition profile : Instance.t :=
  Instance.Instance "tactical" [overhaul "1" true; overhaul "2" true] "2024-01-01T00:00:00".

Definition window : MainWindow.t :=
  MainWindow.MainWindow dm (AppState.AppState (Some "tactical") None) [].

(** Stores holding a state document: unreadable, an array, an object
    with a key that is no field. *)
Definition state_store (doc : option pyval) : fs :=
  {[ DataManager.data_dir dm := Dir;
     DataManager.state_file dm := File 17 doc ]}.

Definition stray_key : pyval :=
  PDict [("active_instance", PStr "tactical"); ("theme", PStr "dark")].

(** A store with the data directories made and nothing in them. *)
Definition fresh_store : fs :=
  {[ ["home"] := Dir; ["home"; "u"] := Dir;
     DataManager.data_dir dm := Dir;
     DataManager.mods_dir dm := Dir;
     DataManager.instances_dir dm := Dir ]}.

(** An instance directory whose document is not JSON, next to one whose
    document loads. *)
Definition instances_store : fs :=
  <[ DataManager.instances_dir dm </> "broken" := Dir ]>
  (<[ DataManager.instances_dir dm </> "broken" </> "instance.json" := File 9 None ]>
  (<[ DataManager.instances_dir dm </> "tactical" := Dir ]>
  (<[ DataManager.instances_dir dm </> "tactical" </> "instance.json" :=
        File 64 (Some (Instance.to_dict profile)) ]>
  (<[ DataManager.instances_dir dm </> "notes.txt" := File 3 None ]>
   fresh_store)))).

(** Three Steam libraries: the first without the game, the second with
    the manifest of the game and no game files, the third with the game
    installed and its prefix populated. *)
Definition native : path := ["home"; "u"; ".steam"; "steam"; "steamapps"].
Definition games : path := ["mnt"; "games"; "steamapps"].
Definition ssd : path := ["mnt"; "ssd"; "steamapps"].

Definition steam_store : fs :=
  <[ native := Dir ]>
  (<[ games := Dir ]>
  (<[ ModManager.manifest games := File 700 None ]>
  (<[ ssd := Dir ]>
  (<[ ModManager.manifest ssd := File 700 None ]>
  (<[ ModManager.game_dir ssd := Dir ]>
  (<[ ModManager.compatdata_pfx ssd := Dir ]>
  (<[ ModManager.appdata_local ssd := Dir ]>
  (<[ ModManager.mods_path ssd := Dir ]> ∅)))))))).

Definition manager : ModManager.t := ModManager.ModManager dm None None.

(** The resolved manager, and the store with a library that has the
    first package of [profile] only, and with a stale managed link and a
    file of the user in the game mod directory. *)
Definition resolved : ModManager.t :=
  ModManager.ModManager dm (Some (ModManager.mods_path ssd)) None.

Definition library_store : fs :=
  <[ DataManager.mods_dir dm </> "Overhaul_v1.pak" := File 1024 None ]>
  (<[ ModManager.mods_path ssd </> "ronmgr_old.pak" :=
        Symlink (DataManager.mods_dir dm </> "old.pak") ]>
  (<[ ModManager.mods_path ssd </> "user.pak" := File 10 None ]> steam_store)).

Definition stale_profile : Instance.t :=
  Instance.Instance "stale" [overhaul "2" true; overhaul "1" false] "2024-01-02T00:00:00".

(** An archive and its three packages, extracted twice, each time into
    a scratch directory of its own. *)
Definition archive : path := ["home"; "u"; "Downloads"; "mods.zip"].
Definition scratch (n : string) : path := ["tmp"; n].

Definition extracted (n : string) : list path :=
  [scratch n </> "a.pak"; scratch n </> "sub" </> "b.pak";
   scratch n </> "sub" </> "deep" </> "c.pak"].

Definition extracted_once : list path := extracted "x1".
Definition extracted_again : list path := extracted "x2".

Definition archive_store : fs :=
  <[ archive := File 4096 None ]>
  (<[ scratch "x1" </> "a.pak" := File 10 None ]>
  (<[ scratch "x1" </> "sub" </> "b.pak" := File 20 None ]>
  (<[ scratch "x1" </> "sub" </> "deep" </> "c.pak" := File 30 None ]>
  (<[ scratch "x2" </> "a.pak" := File 10 None ]>
  (<[ scratch "x2" </> "sub" </> "b.pak" := File 20 None ]>
  (<[ scratch "x2" </> "sub" </> "deep" </> "c.pak" := File 30 None ]>
   fresh_store)))))).

End Sample.

(** ** Notions for the properties of the remaining code *)

Module Notions.
Import FS.

(** The fields of [Mod] that have no default: a document without one of
    them cannot be turned into a [Mod]. *)
Definition required : list string := ["name"; "filename"; "path"; "size"].

(** The name [activate_instance] gives the link of a mod, and the place
    of the link in the game mod directory [d]. *)
Definition link_name (m : Mod.t) : string :=
  DataManager.SYMLINK_PREFIX +:+ Mod.filename m.

Definition link_path (d : path) (m : Mod.t) : path := d </> link_name m.

(** A mod that [activate_instance] can link in [d]: its source is a
    regular file, and the name of its link is free or held by a link. *)
Definition linkable (d : path) (s : fs) (m : Mod.t) : Prop :=
  (∃ sz doc, s !! Path (Mod.path m) = Some (File sz doc)) ∧
  (s !! link_path d m = None ∨ Invariant.is_link (s !! link_path d m) = true).

(** The paths [mkdir_from] walks: each component joined in turn. *)
Fixpoint walk (walked : path) (todo : list string) : list path :=
  match todo with
  | [] => []
  | c :: rest => (walked </> c) :: walk (walked </> c) rest
  end.

(** Nothing is at [q], or a directory is. *)
Definition free_or_dir (s : fs) (q : path) : bool :=
  match s !! q with None => true | Some _ => is_dir s q end.

(** A component of a path as [str] writes it and [Path] reads it back:
    not empty, not the single dot, without a slash. *)
Definition component (c : string) : Prop :=
  c ≠ "" ∧ c ≠ "." ∧ Str.contains "/" c = false.

#[global] Instance component_dec c : Decision (component c).
Proof. unfold component. apply _. Defined.

End Notions.

(** ** The library listing ([DataManager.list_library_mods]) *)

Module Library.
Import FS.

(** [s.endswith(sfx)] *)
Fixpoint endswith (sfx s : string) : bool :=
  String.eqb sfx s ||
  match s with
  | EmptyString => false
  | String _ r => endswith sfx r
  end.

(** [d.glob("*.pak")]: the entries of [d] whose name ends in [.pak],
    letter case respected; nothing when [d] is no directory. *)
Definition glob_pak (s : fs) (d : path) : list path :=
  if is_dir s d then filter (fun p => endswith ".pak" (name p) = true) (children s d)
  else [].

(** The loop over the entries found. *)
Fixpoint mods_of (s : fs) (paks : list path) : result (list Mod.t) :=
  match paks with
  | [] => Ok []
  | pak_file :: rest =>
      sz ← st_size s pak_file;
      mods ← mods_of s rest;
      Ok (Mod.Mod (stem pak_file) (name pak_file) (str pak_file) sz true :: mods)
  end.

(** The key of the sort, [m.name.lower()], and its order. *)
Definition key (m : Mod.t) : string := Str.lower (Mod.name m).

Definition key_le (a b : Mod.t) : Prop := String.le (key a) (key b).

#[global] Instance key_le_dec : RelDecision key_le.
Proof. intros a b. unfold key_le. apply _. Defined.

(** [list_library_mods].  Mods of one key come in the order of the
    directory listing, which the system leaves open. *)
Definition list_library_mods (dm : DataManager.t) (s : fs) : result (list Mod.t) :=
  mods ← mods_of s (glob_pak s (DataManager.mods_dir dm));
  Ok (merge_sort key_le mods).

End Library.

(** ** Handlers of the main window ([main.MainWindow]) *)

Module Handlers.
Import FS.

(** The message boxes. *)
Inductive dialog : Type :=
  | Critical (title text : string)
  | Warning (title text : string)
  | Information (title text : string).

(** What a handler leaves: the window with its state and its log, the
    instance on display ([self.current_instance]), the boxes it showed in
    order, and the exception that left it, if one did.  The calls that
    redraw the two lists are not part of the model, and what
    [load_instance] prints is dropped. *)
Record outcome : Type := Outcome {
  window : MainWindow.t;
  current_instance : option Instance.t;
  shown : list dialog;
  raised : option exn
}.

Definition logged (self : MainWindow.t) (lines : list (string * string)) : MainWindow.t :=
  MainWindow.MainWindow (MainWindow.data_manager self) (MainWindow.state self)
                        (MainWindow.log self ++ lines)%list.

(** [self.state.active_instance = v] *)
Definition set_active (self : MainWindow.t) (v : option string) : MainWindow.t :=
  MainWindow.MainWindow (MainWindow.data_manager self)
                        (AppState.AppState v (AppState.steam_path (MainWindow.state self)))
                        (MainWindow.log self).

(** [_on_instance_activated]; [mm] is [self.mod_manager].  An instance
    whose fields are not of the annotated types is outside the model. *)
Definition _on_instance_activated (len : pyval → Z) (mm : ModManager.t)
    (self : MainWindow.t) (cur : option Instance.t) (name : string) (s : fs)
  : option (outcome * fs) :=
  if negb (ModManager.is_game_path_valid mm s) then
    Some (Outcome self cur
            [Critical "Error" "Game directory not found. Cannot activate instance."]
            None, s)
  else
    match (DataManager.load_instance (MainWindow.data_manager self) name s).1 with
    | None => Some (Outcome self cur [] None, s)
    | Some Unannotated => None
    | Some (Built instance) =>
        match ModManager.activate_instance mm instance s with
        | (Raise e, s1) => Some (Outcome self cur [] (Some e), s1)
        | (Ok (count, errors), s1) =>
            let boxes :=
              match errors with
              | [] => []
              | _ => [Warning "Activation Errors"
                        ("Instance activated with " +:+ pretty (length errors)
                         +:+ " error(s):" +:+ Str.nl +:+ Str.nl
                         +:+ Str.join Str.nl errors)]
              end in
            let self1 :=
              set_active (logged self ((fun error => (error, "error")) <$> errors))
                         (Some name) in
            match DataManager.save_state len (MainWindow.data_manager self)
                                         (MainWindow.state self1) s1 with
            | Raise e => Some (Outcome self1 cur boxes (Some e), s1)
            | Ok s2 =>
                Some (Outcome
                        (logged self1
                           [("Activated instance '" +:+ name +:+ "': "
                             +:+ pretty count +:+ " mod(s) enabled", "success")])
                        cur
                        (boxes ++
                         [Information "Instance Activated"
                            ("Instance '" +:+ name +:+ "' activated."
                             +:+ Str.nl +:+ Str.nl +:+ pretty count
                             +:+ " mod(s) have been symlinked to the game directory.")])
                        None, s2)
            end
        end
    end.

(** [_on_instance_deactivated] *)
Definition _on_instance_deactivated (len : pyval → Z) (mm : ModManager.t)
    (self : MainWindow.t) (cur : option Instance.t) (s : fs) : outcome * fs :=
  if negb (ModManager.is_game_path_valid mm s) then
    (Outcome self cur [Critical "Error" "Game directory not found."] None, s)
  else
    match ModManager.deactivate_all mm s with
    | (Raise e, s1) => (Outcome self cur [] (Some e), s1)
    | (Ok count, s1) =>
        let self1 := set_active self None in
        match DataManager.save_state len (MainWindow.data_manager self)
                                     (MainWindow.state self1) s1 with
        | Raise e => (Outcome self1 cur [] (Some e), s1)
        | Ok s2 =>
            (Outcome
               (logged self1
                  [("Deactivated all mods: removed " +:+ pretty count
                    +:+ " symlink(s)", "success")])
               cur
               [Information "Mods Deactivated"
                  ("All mods have been deactivated." +:+ Str.nl +:+ Str.nl
                   +:+ pretty count +:+ " symlink(s) removed.")]
               None, s2)
        end
    end.

(** [mod.enabled = enabled] *)
Definition flagged (enabled : bool) (m : Mod.t) : Mod.t :=
  Mod.Mod (Mod.name m) (Mod.filename m) (Mod.path m) (Mod.size m) enabled.

(** The loop of [_on_mod_toggled]: the first mod of the filename gets
    the flag. *)
Fixpoint toggle (filename : string) (enabled : bool) (mods : list Mod.t) : list Mod.t :=
  match mods with
  | [] => []
  | m :: rest =>
      if String.eqb (Mod.filename m) filename
      then flagged enabled m :: rest
      else m :: toggle filename enabled rest
  end.

(** [save_instance] with the store it leaves when it raises: the
    directory of the instance may have been made by then. *)
Definition save_instance (len : pyval → Z) (dm : DataManager.t) (i : Instance.t) (s : fs)
  : option exn * fs :=
  let instance_dir := DataManager.instances_dir dm </> Instance.name i in
  match mkdir_exist_ok instance_dir s with
  | Raise e => (Some e, s)
  | Ok s1 =>
      match DataManager.write_json len (instance_dir </> "instance.json")
                                   (Instance.to_dict i) s1 with
      | Raise e => (Some e, s1)
      | Ok s2 => (None, s2)
      end
  end.

(** [_on_mod_toggled] *)
Definition _on_mod_toggled (len : pyval → Z) (self : MainWindow.t)
    (cur : option Instance.t) (filename : string) (enabled : bool) (s : fs)
  : outcome * fs :=
  match cur with
  | None => (Outcome self None [] None, s)
  | Some i =>
      let i' := Instance.Instance (Instance.name i)
                                  (toggle filename enabled (Instance.mods i))
                                  (Instance.created i) in
      match save_instance len (MainWindow.data_manager self) i' s with
      | (Some e, s') => (Outcome self (Some i') [] (Some e), s')
      | (None, s') =>
          let status := if enabled then "enabled" else "disabled" in
          (Outcome (logged self [("Mod '" +:+ filename +:+ "' " +:+ status, "info")])
                   (Some i') [] None, s')
      end
  end.

(** [remove_mods_from_instance] *)
Definition remove_mods_from_instance (len : pyval → Z) (self : MainWindow.t)
    (cur : option Instance.t) (filenames : list string) (s : fs) : outcome * fs :=
  match cur with
  | None => (Outcome self None [] None, s)
  | Some i =>
      let i' := fold_left (fun i filename => Instance.remove_mod filename i) filenames i in
      let self1 :=
        logged self ((fun filename => ("Removed mod: " +:+ filename, "info")) <$> filenames) in
      match save_instance len (MainWindow.data_manager self) i' s with
      | (Some e, s') => (Outcome self1 (Some i') [] (Some e), s')
      | (None, s') => (Outcome self1 (Some i') [] None, s')
      end
  end.

(** The loop of [scan_and_add_library_mods]: the instance, the two
    counts and the lines logged. *)
Definition scan_step (acc : Instance.t * nat * nat * list (string * string)) (m : Mod.t)
  : Instance.t * nat * nat * list (string * string) :=
  let '(i, added_count, skipped_count, lines) := acc in
  match Instance.add_mod m i with
  | (true, i') =>
      (i', (added_count + 1)%nat, skipped_count,
       (lines ++ [("Added from library: " +:+ Mod.filename m, "info")])%list)
  | (false, i') => (i', added_count, (skipped_count + 1)%nat, lines)
  end.

Definition scan_summary (name : string) (added_count skipped_count : nat) : string :=
  "Added " +:+ pretty added_count +:+ " mod(s) to instance '" +:+ name +:+ "'." +:+
  (if (0 <? skipped_count)%nat
   then Str.nl +:+ pretty skipped_count +:+ " mod(s) already in instance."
   else "").

(** [scan_and_add_library_mods] *)
Definition scan_and_add_library_mods (len : pyval → Z) (self : MainWindow.t)
    (cur : option Instance.t) (s : fs) : outcome * fs :=
  match cur with
  | None => (Outcome self None [] None, s)
  | Some i =>
      match Library.list_library_mods (MainWindow.data_manager self) s with
      | Raise e => (Outcome self cur [] (Some e), s)
      | Ok [] =>
          (Outcome self cur
             [Information "No Mods Found"
                ("No mods found in the library." +:+ Str.nl +:+ Str.nl +:+
                 "Add .pak files to: "
                 +:+ str (DataManager.mods_dir (MainWindow.data_manager self)))]
             None, s)
      | Ok library_mods =>
          let '(i', added_count, skipped_count, lines) :=
            fold_left scan_step library_mods (i, 0%nat, 0%nat, []) in
          let self1 := logged self lines in
          let msg := scan_summary (Instance.name i') added_count skipped_count in
          let finish (s' : fs) :=
            (Outcome (logged self1 [(msg, if (0 <? added_count)%nat
                                          then "success" else "info")])
                     (Some i') [Information "Library Scan Complete" msg] None, s') in
          if (0 <? added_count)%nat then
            match save_instance len (MainWindow.data_manager self) i' s with
            | (Some e, s') => (Outcome self1 (Some i') [] (Some e), s')
            | (None, s') => finish s'
            end
          else finish s
      end
  end.

(** What the loop of the scan keeps and what it adds, from the instance,
    the counts and the lines [before] to those [after] the mods [l]. *)
Definition scanned (l : list Mod.t)
    (before after : Instance.t * nat * nat * list (string * string)) : Prop :=
  let '(i, a, k, lines) := before in
  let '(i', a', k', lines') := after in
  (a' + k' = a + k + length l)%nat ∧
  (a ≤ a')%nat ∧
  Instance.name i' = Instance.name i ∧
  Instance.created i' = Instance.created i ∧
  Instance.mods i `prefix_of` Instance.mods i' ∧
  length (Instance.mods i') = (length (Instance.mods i) + (a' - a))%nat ∧
  length lines' = (length lines + (a' - a))%nat ∧
  (∀ m, m ∈ l → Mod.filename m ∈ Mod.filename <$> Instance.mods i') ∧
  (∀ m, m ∈ Instance.mods i' → m ∈ Instance.mods i ∨ m ∈ l) ∧
  (NoDup (Mod.filename <$> Instance.mods i) →
   NoDup (Mod.filename <$> Instance.mods i')) ∧
  (a' = a → i' = i ∧ lines' = lines).

End Handlers.

(** ** Further sample data *)

Module Fixture.
Import FS.

(** The third library of [Sample.steam_store] before the game has made
    its mod directory: the prefix is populated down to [AppData/Local]. *)
Definition first_launch_store : fs :=
  delete (ModManager.mods_path Sample.ssd) Sample.steam_store.

(** An instance whose one mod is in the library of
    [Sample.library_store]. *)
Definition sole_profile : Instance.t :=
  Instance.Instance "sole" [Sample.overhaul "1" true] "2024-01-03T00:00:00".

(** A document of an instance with an entry that is no [Mod]. *)
Definition torn_document : list (string * pyval) :=
  [("name", PStr "torn"); ("mods", PList [PDict [("name", PStr "half")]])].

(** [Sample.library_store] with a regular file of the user in the game
    mod directory whose name happens to carry the prefix. *)
Definition kept_store : fs :=
  <[ ModManager.mods_path Sample.ssd </> "ronmgr_mine.pak" := File 5 None ]>
  Sample.library_store.

(** A library with two packages, a package whose suffix is in upper
    case, and a file that is no package. *)
Definition shelf_store : fs :=
  <[ DataManager.mods_dir Sample.dm </> "Overhaul_v1.pak" := File 1024 None ]>
  (<[ DataManager.mods_dir Sample.dm </> "armor.pak" := File 7 None ]>
  (<[ DataManager.mods_dir Sample.dm </> "LOUD.PAK" := File 5 None ]>
  (<[ DataManager.mods_dir Sample.dm </> "notes.txt" := File 3 None ]>
   Sample.fresh_store))).

Definition shelf : list Mod.t :=
  [Mod.Mod "armor" "armor.pak" "/home/u/.ron-modmgr/mods/armor.pak" 7 true;
   Sample.overhaul "1" true].

(** A package with the suffix in upper case, not yet in the library. *)
Definition loud : path := ["home"; "u"; "Downloads"; "LOUD.PAK"].

Definition loud_store : fs := <[ loud := File 5 None ]> Sample.fresh_store.

(** A package next to the data directories and the game mod directory. *)
Definition armor : path := ["home"; "u"; "Downloads"; "armor.pak"].

Definition desk_store : fs :=
  <[ armor := File 7 None ]>
  (<[ ModManager.mods_path Sample.ssd := Dir ]> Sample.fresh_store).

(** The instances of [Sample.instances_store] with the game mod
    directory. *)
Definition session_store : fs :=
  <[ ModManager.mods_path Sample.ssd := Dir ]> Sample.instances_store.

(** An archive of a format that is none of the three. *)
Definition tarball : path := ["home"; "u"; "Downloads"; "mods.tar"].

Definition tarball_store : fs := <[ tarball := File 9 None ]> Sample.fresh_store.

End Fixture.

(** ** Entity model: properties *)

Section entity.

Lemma Mod_roundtrip (m : Mod.t) : Mod.from_dict (Mod.to_dict m) = Ok (Built m).
Proof. by destruct m. Qed.

Lemma mods_from_to_dict (l : list Mod.t) :
  Instance.mods_from (map Mod.to_dict l) = Ok (Built l).
Proof.
  induction l as [|m l IH]; [done|].
  cbn [map Instance.mods_from]. by rewrite Mod_roundtrip, IH.
Qed.

Lemma Instance_roundtrip (i : Instance.t) :
  Instance.from_dict (Instance.to_dict i) = Ok (Built i).
Proof.
  destruct i as [n l c]. unfold Instance.from_dict, Instance.to_dict.
  cbn. by rewrite mods_from_to_dict.
Qed.

Lemma AppState_roundtrip (st : AppState.t) :
  AppState.from_dict (AppState.to_dict st) = Ok (Built st).
Proof. by destruct st as [[a|] [p|]]. Qed.

Lemma existsb_filename (m : Mod.t) (l : list Mod.t) :
  existsb (fun existing => String.eqb (Mod.filename existing) (Mod.filename m)) l = true
  ↔ Mod.filename m ∈ Mod.filename <$> l.
Proof.
  rewrite existsb_exists, list_elem_of_fmap. split.
  - intros (x & Hx%list_elem_of_In & Heq%String.eqb_eq). eauto.
  - intros (x & Heq & Hx%list_elem_of_In). exists x. split; [done|].
    by apply String.eqb_eq.
Qed.

Lemma add_mod_present (m : Mod.t) (i : Instance.t) :
  Mod.filename m ∈ Mod.filename <$> Instance.mods i →
  Instance.add_mod m i = (false, i).
Proof.
  intros H%existsb_filename. unfold Instance.add_mod. by rewrite H.
Qed.

Lemma add_mod_then_present (m : Mod.t) (i : Instance.t) :
  Mod.filename m ∈ Mod.filename <$> Instance.mods (Instance.add_mod m i).2.
Proof.
  unfold Instance.add_mod.
  destruct (existsb _ _) eqn:E; cbn.
  - by apply existsb_filename.
  - rewrite fmap_app. set_solver.
Qed.

(** C4. Adding a mod whose filename is already in the list of the
    instance returns [False] and leaves the instance as it is; so a second
    [add_mod] of the same filename, whatever the other fields of the mod,
    returns [False] and leaves the list, and its length, unchanged. *)
Theorem add_mod_idempotent_on_filename (i : Instance.t) (m m' : Mod.t) :
  (Mod.filename m ∈ Mod.filename <$> Instance.mods i →
   Instance.add_mod m i = (false, i)) ∧
  (Mod.filename m' = Mod.filename m →
   let i1 := (Instance.add_mod m i).2 in
   Instance.add_mod m' i1 = (false, i1) ∧
   length (Instance.mods (Instance.add_mod m' i1).2) = length (Instance.mods i1)).
Proof.
  split; [apply add_mod_present|].
  intros Heq i1.
  assert (Instance.add_mod m' i1 = (false, i1)) as ->; [|done].
  apply add_mod_present. rewrite Heq. apply add_mod_then_present.
Qed.

Lemma add_mod_idempotent_on_filename_witness :
  Instance.add_mod (Sample.overhaul "1" false) Sample.profile = (false, Sample.profile) ∧
  (let i1 := (Instance.add_mod (Sample.overhaul "3" true) Sample.profile).2 in
   Instance.add_mod (Sample.overhaul "3" false) i1 = (false, i1) ∧
   length (Instance.mods (Instance.add_mod (Sample.overhaul "3" false) i1).2) = 3%nat).
Proof.
  split.
  - apply (proj1 (add_mod_idempotent_on_filename
                    Sample.profile (Sample.overhaul "1" false) (Sample.overhaul "1" false))).
    apply (bool_decide_unpack _); vm_compute; exact I.
  - apply (proj2 (add_mod_idempotent_on_filename
                    Sample.profile (Sample.overhaul "3" true) (Sample.overhaul "3" false))).
    reflexivity.
Defined.

End entity.

(** ** File system: lemmas *)

(** Closed decidable facts are settled by evaluation. *)
Ltac by_compute :=
  match goal with
  | |- ?P => apply (bool_decide_unpack P); vm_compute; exact I
  end.

Section fs_lemmas.
Import FS.
Implicit Types (s : fs) (p q d : path) (x : node).

Lemma option_bind_Some_l {A B} (f : A → option B) (a : A) : Some a ≫= f = f a.
Proof. done. Qed.

Lemma split_last_snoc d (n : string) : split_last (d </> n) = Some (d, n).
Proof.
  unfold joinpath. induction d as [|c d IH]; [done|].
  cbn [app split_last]. rewrite IH.
  by destruct (d ++ [n])%list eqn:E; [destruct d; discriminate|].
Qed.

Lemma split_last_Some p d (n : string) : split_last p = Some (d, n) ↔ p = d </> n.
Proof.
  split; [|intros ->; apply split_last_snoc].
  revert d. induction p as [|c p IH]; intros d; [done|].
  destruct p as [|c' p].
  - cbn. intros [= <- <-]. done.
  - change (split_last (c :: c' :: p)) with (prod_map (cons c) id <$> split_last (c' :: p)).
    destruct (split_last (c' :: p)) as [[d' n']|] eqn:E; [|done].
    cbn. intros [= <- <-]. unfold joinpath. cbn. f_equal. by apply IH.
Qed.

Lemma name_snoc d (n : string) : name (d </> n) = n.
Proof. unfold name. by rewrite split_last_snoc. Qed.

Lemma parent_snoc d (n : string) : parent (d </> n) = d.
Proof. unfold parent. by rewrite split_last_snoc. Qed.

Lemma joinpath_inj d1 d2 (n1 n2 : string) : d1 </> n1 = d2 </> n2 → d1 = d2 ∧ n1 = n2.
Proof. unfold joinpath. intros H. by apply app_inj_tail in H. Qed.

(** A chain of links ends at a path that holds no link. *)
Lemma follow_end n s p q : follow n s p = Some q → ∀ t, s !! q ≠ Some (Symlink t).
Proof.
  revert p. induction n as [|n IH]; intros p; cbn.
  - destruct (s !! p) as [[]|] eqn:E; intros [= <-] t; congruence.
  - destruct (s !! p) as [[]|] eqn:E; try (intros [= <-] t; congruence).
    apply IH.
Qed.

(** Writing at the end of a chain keeps the chain. *)
Lemma follow_insert_end n s p q x :
  follow n s p = Some q → (∀ t, x ≠ Symlink t) →
  follow n (<[q := x]> s) p = Some q.
Proof.
  intros Hf Hx. pose proof (follow_end _ _ _ _ Hf) as Hq.
  revert p Hf. induction n as [|n IH]; intros p; cbn.
  - destruct (decide (p = q)) as [->|Hne].
    + rewrite lookup_insert_eq. destruct x; naive_solver.
    + rewrite lookup_insert_ne by done.
      destruct (s !! p) as [[]|]; congruence.
  - destruct (decide (p = q)) as [->|Hne].
    + rewrite lookup_insert_eq. destruct x; naive_solver.
    + rewrite lookup_insert_ne by done.
      destruct (s !! p) as [[]|]; try congruence. apply IH.
Qed.

Lemma stat_insert_end s p q x :
  follow MAXSYMLINKS s p = Some q → (∀ t, x ≠ Symlink t) →
  stat (<[q := x]> s) p = Some x.
Proof.
  intros Hf Hx. unfold stat.
  rewrite (follow_insert_end _ _ _ _ _ Hf Hx), option_bind_Some_l.
  apply lookup_insert_eq.
Qed.

(** What a store holds, every store above it holds. *)
Lemma follow_weaken n s s' p q x :
  s ⊆ s' → follow n s p = Some q → s !! q = Some x →
  follow n s' p = Some q.
Proof.
  intros Hsub. revert p. induction n as [|n IH]; intros p; cbn.
  - destruct (s !! p) as [y|] eqn:E.
    + rewrite (lookup_weaken _ _ _ _ E Hsub). by destruct y.
    + intros [= <-]. congruence.
  - destruct (s !! p) as [y|] eqn:E.
    + rewrite (lookup_weaken _ _ _ _ E Hsub). destruct y; auto.
    + intros [= <-]. congruence.
Qed.

Lemma stat_weaken s s' p x : s ⊆ s' → stat s p = Some x → stat s' p = Some x.
Proof.
  intros Hsub. unfold stat.
  destruct (follow MAXSYMLINKS s p) as [q|] eqn:Hf; [|done].
  rewrite option_bind_Some_l. intros Hq.
  rewrite (follow_weaken _ _ _ _ _ _ Hsub Hf Hq), option_bind_Some_l.
  by apply (lookup_weaken s).
Qed.

Lemma exists_weaken s s' p : s ⊆ s' → exists_ s p = true → exists_ s' p = true.
Proof.
  intros Hsub. unfold exists_.
  destruct (stat s p) as [x|] eqn:E; [|done].
  by rewrite (stat_weaken _ _ _ _ Hsub E).
Qed.

Lemma exists_weaken_false s s' p : s ⊆ s' → exists_ s' p = false → exists_ s p = false.
Proof.
  intros Hsub H. destruct (exists_ s p) eqn:E; [|done].
  by rewrite (exists_weaken _ _ _ Hsub E) in H.
Qed.

Lemma stat_None_absent s p : s !! p = None → stat s p = None.
Proof.
  intros H. unfold stat, MAXSYMLINKS. cbn. rewrite H. cbn. done.
Qed.

Lemma stat_Dir s p : s !! p = Some Dir → stat s p = Some Dir.
Proof.
  intros H. unfold stat, MAXSYMLINKS. cbn. rewrite H. cbn. done.
Qed.

Lemma is_dir_present s p : is_dir s p = true → is_Some (s !! p).
Proof.
  unfold is_dir. destruct (s !! p) eqn:E; [eauto|].
  by rewrite (stat_None_absent _ _ E).
Qed.

Lemma exists_present s p : exists_ s p = true → is_Some (s !! p).
Proof.
  unfold exists_. destruct (s !! p) eqn:E; [eauto|].
  by rewrite (stat_None_absent _ _ E).
Qed.

Lemma elem_of_children s d p :
  p ∈ children s d ↔ is_Some (s !! p) ∧ p = d </> name p.
Proof.
  unfold children. rewrite list_elem_of_filter, split_last_Some.
  rewrite list_elem_of_fmap. split.
  - intros [Hp ([k x] & -> & Hin%elem_of_map_to_list)]. cbn in *. eauto.
  - intros [[x Hx] Hp]. split; [done|]. exists (p, x). split; [done|].
    by apply elem_of_map_to_list.
Qed.

Lemma NoDup_children s d : NoDup (children s d).
Proof. unfold children. apply NoDup_filter, NoDup_fst_map_to_list. Qed.

End fs_lemmas.

(** ** Persistence store: properties *)

Section store.
Import FS.
Implicit Types (s : fs) (p q d : path) (dm : DataManager.t).

Lemma write_json_stat len p v s s' :
  DataManager.write_json len p v s = Ok s' →
  stat s' p = Some (File (len v) (Some v)).
Proof.
  unfold DataManager.write_json.
  destruct (follow MAXSYMLINKS s p) as [q|] eqn:Hf; [|done].
  assert (∀ s0, Ok (<[q := File (len v) (Some v)]> s) = Ok s0 →
                stat s0 p = Some (File (len v) (Some v))) as Hw.
  { intros s0 [= <-]. by apply stat_insert_end. }
  destruct (s !! q) as [[]|]; try done; try apply Hw.
  destruct (check_parent s q); [done|apply Hw].
Qed.

Lemma result_bind_Ok {A B} (f : A → result B) (a : A) : Ok a ≫= f = f a.
Proof. done. Qed.

Lemma exists_of_stat s p x : stat s p = Some x → exists_ s p = true.
Proof. unfold exists_. by intros ->. Qed.

Lemma json_load_doc s p sz v :
  stat s p = Some (File sz (Some v)) → json_load s p = Ok v.
Proof. unfold json_load. by intros ->. Qed.

Lemma json_load_malformed s p sz :
  stat s p = Some (File sz None) → json_load s p = Raise JSONDecodeError.
Proof. unfold json_load. by intros ->. Qed.

Lemma load_state_saved len dm st s s' :
  DataManager.save_state len dm st s = Ok s' →
  DataManager.load_state dm s' = (Ok (Built st), []).
Proof.
  intros H%write_json_stat. unfold DataManager.load_state.
  rewrite (exists_of_stat _ _ _ H), (json_load_doc _ _ _ _ H), result_bind_Ok.
  by rewrite AppState_roundtrip.
Qed.

Lemma load_instance_saved len dm i s s' :
  DataManager.save_instance len dm i s = Ok s' →
  DataManager.load_instance dm (Instance.name i) s' = (Some (Built i), []).
Proof.
  unfold DataManager.save_instance.
  destruct (mkdir_exist_ok _ s) as [s1|]; [|done]. cbn.
  intros H%write_json_stat. unfold DataManager.load_instance.
  rewrite (exists_of_stat _ _ _ H), (json_load_doc _ _ _ _ H), result_bind_Ok.
  by rewrite Instance_roundtrip.
Qed.

(** C10. Deserializing the dictionary a [Mod], an [Instance] or an
    [AppState] serializes to gives the value back, with the enabled flag
    of every mod and the order of the mods; hence a state or an instance
    that was saved is what loading the saved document returns. *)
Theorem to_dict_from_dict_roundtrip :
  (∀ m, Mod.from_dict (Mod.to_dict m) = Ok (Built m)) ∧
  (∀ i, Instance.from_dict (Instance.to_dict i) = Ok (Built i)) ∧
  (∀ st, AppState.from_dict (AppState.to_dict st) = Ok (Built st)) ∧
  (∀ len dm st s s',
     DataManager.save_state len dm st s = Ok s' →
     DataManager.load_state dm s' = (Ok (Built st), [])) ∧
  (∀ len dm i s s',
     DataManager.save_instance len dm i s = Ok s' →
     DataManager.load_instance dm (Instance.name i) s' = (Some (Built i), [])).
Proof.
  split_and!.
  - apply Mod_roundtrip.
  - apply Instance_roundtrip.
  - apply AppState_roundtrip.
  - apply load_state_saved.
  - apply load_instance_saved.
Qed.

Lemma Ok_store_of (r : result fs) : is_ok r = true → r = Ok (Sample.store_of r).
Proof. by destruct r. Qed.

Lemma to_dict_from_dict_roundtrip_witness :
  DataManager.load_state Sample.dm
    (Sample.store_of (DataManager.save_state (fun _ => 64%Z) Sample.dm
                        (MainWindow.state Sample.window) Sample.fresh_store))
    = (Ok (Built (MainWindow.state Sample.window)), []) ∧
  DataManager.load_instance Sample.dm (Instance.name Sample.profile)
    (Sample.store_of (DataManager.save_instance (fun _ => 64%Z) Sample.dm
                        Sample.profile Sample.fresh_store))
    = (Some (Built Sample.profile), []).
Proof.
  split.
  - apply (proj1 (proj2 (proj2 (proj2 to_dict_from_dict_roundtrip)))
             (fun _ => 64%Z) Sample.dm _ Sample.fresh_store).
    apply Ok_store_of. vm_compute. reflexivity.
  - apply (proj2 (proj2 (proj2 (proj2 to_dict_from_dict_roundtrip)))
             (fun _ => 64%Z) Sample.dm _ Sample.fresh_store).
    apply Ok_store_of. vm_compute. reflexivity.
Defined.

(** C7, amended. [load_state] always returns a state: the empty one when
    there is no state document; the empty one, after printing the error,
    when the document is not JSON, when it is no object, and when it is an
    object with a key that is no field of the state.  An object whose
    keys are fields is returned as it decodes and nothing is printed: the
    values of the two fields are not inspected, so a value that is no
    string and not null gives a state outside the annotations. *)
Theorem load_state_never_fails dm s :
  (∃ st out, DataManager.load_state dm s = (Ok st, out)) ∧
  (exists_ s (DataManager.state_file dm) = false →
   DataManager.load_state dm s = (Ok (Built AppState.empty), [])) ∧
  (∀ sz, stat s (DataManager.state_file dm) = Some (File sz None) →
   DataManager.load_state dm s
   = (Ok (Built AppState.empty), ["Error loading state: Expecting value"])) ∧
  (∀ sz v, stat s (DataManager.state_file dm) = Some (File sz (Some v)) →
   Reference.wrong_shape v →
   DataManager.load_state dm s
   = (Ok (Built AppState.empty), ["Error loading state: TypeError"])) ∧
  (∀ sz (items : list (string * pyval)),
     stat s (DataManager.state_file dm) = Some (File sz (Some (PDict items))) →
     (∀ k, k ∈ dict_keys items → k ∈ AppState.fields) →
     ∃ st, DataManager.load_state dm s = (Ok st, []) ∧
           (st = Unannotated ↔
            as_opt_str (default PNone (dict_get "active_instance" items)) = None ∨
            as_opt_str (default PNone (dict_get "steam_path" items)) = None)).
Proof.
  unfold DataManager.load_state. split_and!.
  - destruct (exists_ _ _); [|eauto].
    destruct (json_load _ _ ≫= _); eauto.
  - by intros ->.
  - intros sz H.
    by rewrite (exists_of_stat _ _ _ H), (json_load_malformed _ _ _ H).
  - intros sz v H Hv.
    rewrite (exists_of_stat _ _ _ H), (json_load_doc _ _ _ _ H), result_bind_Ok.
    assert (AppState.from_dict v = Raise TypeError) as ->; [|done].
    destruct v as [| | | | |d]; try done.
    destruct Hv as (k & Hk & Hnot). unfold AppState.from_dict.
    destruct (forallb _ _) eqn:E; [|done].
    rewrite forallb_forall in E. apply list_elem_of_In, E in Hk.
    by apply bool_decide_eq_true in Hk.
  - intros sz items H Hkeys.
    rewrite (exists_of_stat _ _ _ H), (json_load_doc _ _ _ _ H), result_bind_Ok.
    unfold AppState.from_dict.
    assert (forallb (fun k => bool_decide (k ∈ AppState.fields)) (dict_keys items) = true)
      as ->.
    { apply forallb_forall. intros k Hk%list_elem_of_In.
      by apply bool_decide_eq_true, Hkeys. }
    eexists. split; [done|].
    destruct (as_opt_str (default PNone (dict_get "active_instance" items)));
      destruct (as_opt_str (default PNone (dict_get "steam_path" items)));
      cbn; split; try done; try (intros [?|?]; done); auto.
Qed.

(** C7, as stated, fails: a document whose value of a field is a number
    is of the wrong shape, but the state that is returned is not the
    empty one and nothing is printed. *)
Lemma load_state_passes_untyped_values :
  ¬ (∀ dm s sz v,
       stat s (DataManager.state_file dm) = Some (File sz (Some v)) →
       ¬ Reference.state_shaped v →
       ∃ out, DataManager.load_state dm s = (Ok (Built AppState.empty), out) ∧
              out ≠ []).
Proof.
  intros H.
  destruct (H Sample.dm
              (Sample.state_store (Some (PDict [("active_instance", PInt 123)])))
              17%Z (PDict [("active_instance", PInt 123)]))
    as (out & Hout & _).
  - vm_compute. reflexivity.
  - intros [[_ [x Hx]] _]%Forall_cons. discriminate Hx.
  - vm_compute in Hout. discriminate Hout.
Qed.

(** A document with the two keys is not inspected further: values that
    are no strings go into the state that is returned, and nothing is
    printed. *)
Example load_state_values_unchecked :
  DataManager.load_state Sample.dm
    (Sample.state_store (Some (PDict [("active_instance", PInt 123)])))
  = (Ok Unannotated, []).
Proof. vm_compute. reflexivity. Qed.

Lemma load_state_never_fails_witness :
  DataManager.load_state Sample.dm ∅ = (Ok (Built AppState.empty), []) ∧
  DataManager.load_state Sample.dm (Sample.state_store None)
  = (Ok (Built AppState.empty), ["Error loading state: Expecting value"]) ∧
  DataManager.load_state Sample.dm (Sample.state_store (Some (PList [])))
  = (Ok (Built AppState.empty), ["Error loading state: TypeError"]) ∧
  DataManager.load_state Sample.dm (Sample.state_store (Some Sample.stray_key))
  = (Ok (Built AppState.empty), ["Error loading state: TypeError"]).
Proof.
  split_and!.
  - apply (proj1 (proj2 (load_state_never_fails Sample.dm ∅))). vm_compute; reflexivity.
  - apply (proj1 (proj2 (proj2 (load_state_never_fails Sample.dm _))) 17%Z).
    vm_compute; reflexivity.
  - apply (proj1 (proj2 (proj2 (proj2 (load_state_never_fails Sample.dm _))))
             17%Z (PList [])).
    + vm_compute; reflexivity.
    + exact I.
  - apply (proj1 (proj2 (proj2 (proj2 (load_state_never_fails Sample.dm _))))
             17%Z Sample.stray_key).
    + vm_compute; reflexivity.
    + exists "theme". split; by_compute.
Defined.

Lemma sorted_elem_of (l : list string) (n : string) : n ∈ DataManager.sorted l ↔ n ∈ l.
Proof. unfold DataManager.sorted. by rewrite merge_sort_Permutation. Qed.

Lemma list_instances_dir dm s :
  is_dir s (DataManager.instances_dir dm) = true →
  DataManager.list_instances dm s
  = Ok (DataManager.sorted
          (name <$> filter (fun item => is_dir s item = true ∧
                                        exists_ s (item </> "instance.json") = true)
                           (children s (DataManager.instances_dir dm)))).
Proof.
  unfold DataManager.list_instances, is_dir, exists_, iterdir.
  by destruct (stat s (DataManager.instances_dir dm)) as [[]|].
Qed.

(** C8, as amended. When the instances directory is a directory,
    [list_instances] returns the names of its subdirectories that hold an
    entry named [instance.json], whatever that entry contains, each once,
    in the order of [str] comparison (code points, case-sensitive). *)
Theorem list_instances_names dm s :
  is_dir s (DataManager.instances_dir dm) = true →
  ∃ l, DataManager.list_instances dm s = Ok l ∧
       Sorted String.le l ∧ NoDup l ∧
       ∀ n, n ∈ l ↔
            is_dir s (DataManager.instances_dir dm </> n) = true ∧
            exists_ s (DataManager.instances_dir dm </> n </> "instance.json") = true.
Proof.
  intros Hd. rewrite (list_instances_dir _ _ Hd). eexists. split; [done|].
  set (d := DataManager.instances_dir dm). split_and!.
  - apply (Sorted_merge_sort String.le).
  - unfold DataManager.sorted. rewrite merge_sort_Permutation.
    apply NoDup_fmap_2_strong; [|apply NoDup_filter, NoDup_children].
    intros x y [_ [_ Hx]%elem_of_children]%list_elem_of_filter
               [_ [_ Hy]%elem_of_children]%list_elem_of_filter Hn.
    rewrite Hx, Hy. by rewrite Hn.
  - intros n. rewrite sorted_elem_of, list_elem_of_fmap. split.
    + intros (item & -> & [[H1 H2] [_ Hitem]%elem_of_children]%list_elem_of_filter).
      by rewrite <- Hitem.
    + intros [H1 H2]. exists (d </> n). rewrite name_snoc. split; [done|].
      apply list_elem_of_filter. split; [done|].
      apply elem_of_children. rewrite name_snoc. split; [|done].
      by apply is_dir_present.
Qed.

Lemma list_instances_names_witness :
  ∃ l, DataManager.list_instances Sample.dm Sample.instances_store = Ok l ∧
       Sorted String.le l ∧ NoDup l ∧
       ∀ n, n ∈ l ↔
            is_dir Sample.instances_store
                   (DataManager.instances_dir Sample.dm </> n) = true ∧
            exists_ Sample.instances_store
                    (DataManager.instances_dir Sample.dm </> n </> "instance.json") = true.
Proof.
  apply (list_instances_names Sample.dm Sample.instances_store).
  vm_compute. reflexivity.
Defined.

(** C8, as stated, fails: a subdirectory whose [instance.json] does not
    load is listed all the same. *)
Lemma list_instances_lists_unreadable_document :
  ¬ (∀ dm s l n,
       DataManager.list_instances dm s = Ok l →
       n ∈ l → Reference.has_valid_document dm s n).
Proof.
  intros H.
  destruct (H Sample.dm Sample.instances_store ["broken"; "tactical"] "broken")
    as [i Hi].
  - vm_compute. reflexivity.
  - by_compute.
  - vm_compute in Hi. discriminate Hi.
Qed.

Lemma rmtree_removes d s s' p :
  rmtree d s = Ok s' → d `prefix_of` p → s' !! p = None.
Proof.
  unfold rmtree. destruct (s !! d) as [[]|]; try done.
  intros [= <-] Hp. apply map_lookup_filter_None. right. intros x _. cbn. tauto.
Qed.

Lemma rmtree_keeps d s s' p :
  rmtree d s = Ok s' → ¬ d `prefix_of` p → s' !! p = s !! p.
Proof.
  unfold rmtree. destruct (s !! d) as [[]|]; try done.
  intros [= <-] Hp. destruct (s !! p) as [x|] eqn:E.
  - by apply map_lookup_filter_Some.
  - apply map_lookup_filter_None. by left.
Qed.

(** Deleting an instance that is not the active one removes its
    directory and everything below it. *)
Lemma delete_instance_removes (self : MainWindow.t) (n : string) s r s' p :
  AppState.active_instance (MainWindow.state self) ≠ Some n →
  s !! (DataManager.instances_dir (MainWindow.data_manager self) </> n) = Some Dir →
  MainWindow.delete_instance self n s = (r, s') →
  DataManager.instances_dir (MainWindow.data_manager self) </> n `prefix_of` p →
  s' !! p = None.
Proof.
  intros Hne Hd. unfold MainWindow.delete_instance, DataManager.delete_instance.
  rewrite bool_decide_eq_false_2 by done.
  rewrite (exists_of_stat _ _ _ (stat_Dir _ _ Hd)).
  destruct (rmtree _ s) as [s1|e] eqn:E.
  - destruct (DataManager.list_instances _ s1); intros [= <- <-];
      apply (rmtree_removes _ _ _ _ E).
  - unfold rmtree in E. by rewrite Hd in E.
Qed.

(** C5. Deleting the instance that the state records as active is
    refused: the handler shows the warning and returns with the store,
    and so the directory of the instance and the state document, and the
    window with its state, as they were. *)
Theorem delete_active_instance_rejected (self : MainWindow.t) (n : string) s :
  AppState.active_instance (MainWindow.state self) = Some n →
  MainWindow.delete_instance self n s
  = (Ok (MainWindow.Warning
           "Cannot Delete"
           "Cannot delete the active instance. Please deactivate it first.",
         self), s).
Proof.
  intros H. unfold MainWindow.delete_instance.
  by rewrite bool_decide_eq_true_2.
Qed.

Lemma delete_active_instance_rejected_witness :
  MainWindow.delete_instance Sample.window "tactical" Sample.instances_store
  = (Ok (MainWindow.Warning
           "Cannot Delete"
           "Cannot delete the active instance. Please deactivate it first.",
         Sample.window), Sample.instances_store).
Proof.
  apply (delete_active_instance_rejected Sample.window "tactical").
  reflexivity.
Defined.

End store.

(** ** Conflict heuristics: properties *)

Section conflicts.

Lemma prefix2 (a b : ascii) (s : string) :
  Str.startswith (String a (String b "")) s = true ↔ ∃ r, s = String a (String b r).
Proof.
  unfold Str.startswith. destruct s as [|c [|c' r]]; cbn.
  - split; [done|]. by intros [r ?].
  - destruct (ascii_dec a c); (split; [done|]); by intros [? ?].
  - destruct (ascii_dec a c) as [->|]; [destruct (ascii_dec b c') as [->|]|].
    + destruct r; split; eauto.
    + split; [done|]. intros [? [=]]. done.
    + split; [done|]. intros [? [=]]. done.
Qed.

Lemma before_first_unfold sep s :
  Str.before_first sep s =
  if Str.startswith sep s then EmptyString
  else match s with
       | EmptyString => EmptyString
       | String c r => String c (Str.before_first sep r)
       end.
Proof. by destruct s. Qed.

Lemma before_first_head (sep : string) (s : string) :
  match Str.before_first sep s with
  | String x _ => ∃ r, s = String x r
  | EmptyString => True
  end.
Proof.
  rewrite before_first_unfold.
  destruct (Str.startswith sep s); [done|]. destruct s; eauto.
Qed.

Lemma cut_at_marker_unfold s :
  Reference.cut_at_marker s =
  if Str.startswith "_v" s || Str.startswith "-v" s then EmptyString
  else match s with
       | EmptyString => EmptyString
       | String c r => String c (Reference.cut_at_marker r)
       end.
Proof. by destruct s. Qed.

Lemma split_twice s :
  Str.before_first "-v" (Str.before_first "_v" s) = Reference.cut_at_marker s.
Proof.
  induction s as [|c r IH]; [done|].
  rewrite cut_at_marker_unfold, (before_first_unfold "_v").
  destruct (Str.startswith "_v" (String c r)) eqn:E1. { reflexivity. }
  rewrite (before_first_unfold "-v"). cbn [orb].
  destruct (Str.startswith "-v" (String c r)) eqn:E2.
  - apply prefix2 in E2 as [r' [= -> ->]].
    assert (Str.startswith "-v" (String "-" (Str.before_first "_v" (String "v" r'))) = true) as ->; [|done].
    apply prefix2. rewrite (before_first_unfold "_v").
    assert (Str.startswith "_v" (String "v" r') = false) as ->; [|eauto].
    destruct (Str.startswith "_v" (String "v" r')) eqn:E; [|done].
    by apply prefix2 in E as [? [=]].
  - assert (Str.startswith "-v" (String c (Str.before_first "_v" r)) = false) as ->.
    { destruct (Str.startswith "-v" (String c (Str.before_first "_v" r))) eqn:E; [|done].
      apply prefix2 in E as [r' [= -> Hr]].
      pose proof (before_first_head "_v" r) as Hh. rewrite Hr in Hh.
      destruct Hh as [r'' ->].
      assert (Str.startswith "-v" (String "-" (String "v" r'')) = true) as Ht
        by (apply prefix2; eauto).
      congruence. }
    by rewrite IH.
Qed.

Lemma base_name_normalized (m : Mod.t) : ModManager.base_name m = Reference.normalized m.
Proof. apply split_twice. Qed.

Lemma find_snoc {A} (f : A → bool) (l : list A) (x : A) :
  find f (l ++ [x]) =
  match find f l with
  | Some y => Some y
  | None => if f x then Some x else None
  end.
Proof.
  induction l as [|a l IH]; cbn; [done|]. by destruct (f a).
Qed.

(** The dictionary of the loop holds, for every normalized name met so
    far, the name of the first mod that had it. *)
Lemma fold_note_similar (l earlier : list Mod.t) (seen : gmap string string)
    (warnings : list string) :
  (∀ b, seen !! b
        = Mod.name <$> find (fun x => bool_decide (Reference.normalized x = b)) earlier) →
  (fold_left ModManager.note_similar l (seen, warnings)).2
  = (warnings ++ Reference.near_duplicates earlier l)%list.
Proof.
  revert earlier seen warnings.
  induction l as [|m l IH]; intros earlier seen warnings Hseen.
  - cbn. by rewrite app_nil_r.
  - cbn [fold_left Reference.near_duplicates]. unfold ModManager.note_similar at 2.
    rewrite base_name_normalized, Hseen.
    destruct (find (fun x => bool_decide (Reference.normalized x = Reference.normalized m))
                   earlier) as [first_seen|] eqn:E; cbn [fmap option_fmap option_map].
    + rewrite (IH (earlier ++ [m])%list).
      * by rewrite <- app_assoc.
      * intros b. rewrite find_snoc, Hseen.
        destruct (find (fun x => bool_decide (Reference.normalized x = b)) earlier)
          eqn:Eb; [done|].
        rewrite bool_decide_eq_false_2; [done|]. intros <-. congruence.
    + apply IH. intros b. rewrite find_snoc.
      destruct (decide (Reference.normalized m = b)) as [<-|Hne].
      * rewrite lookup_insert_eq, E. by rewrite bool_decide_eq_true_2.
      * rewrite lookup_insert_ne, Hseen by done.
        destruct (find (fun x => bool_decide (Reference.normalized x = b)) earlier);
          [done|].
        by rewrite bool_decide_eq_false_2.
Qed.

Lemma near_duplicates_length (l earlier : list Mod.t) :
  (length (Reference.near_duplicates earlier l) ≤ length l)%nat.
Proof.
  revert earlier. induction l as [|m l IH]; intros earlier; cbn; [done|].
  destruct (find _ earlier); cbn; specialize (IH (earlier ++ [m])%list); lia.
Qed.

(** C9. The name a mod is compared by is its lower-cased name cut at
    the first [_v] or [-v]; the warnings of [detect_conflicts] are the
    keyword warning followed, in the order of the enabled mods, by one
    warning for each enabled mod whose normalized name is that of an
    earlier enabled mod, naming the first mod that had it and then this
    one; there are no more of them than enabled mods.  Two enabled mods
    named [Overhaul_v1] and [Overhaul_v2] give the single warning that
    names [Overhaul_v1] first. *)
Theorem detect_conflicts_near_duplicates (i : Instance.t) :
  (∀ m, ModManager.base_name m = Reference.cut_at_marker (Str.lower (Mod.name m))) ∧
  ModManager.detect_conflicts i
  = (Reference.ai_warning (Instance.get_enabled_mods i)
     ++ Reference.near_duplicates [] (Instance.get_enabled_mods i))%list ∧
  (length (Reference.near_duplicates [] (Instance.get_enabled_mods i))
   ≤ length (Instance.get_enabled_mods i))%nat ∧
  (∀ n c f1 p1 s1 f2 p2 s2,
     ModManager.detect_conflicts
       (Instance.Instance n [Mod.Mod "Overhaul_v1" f1 p1 s1 true;
                             Mod.Mod "Overhaul_v2" f2 p2 s2 true] c)
     = ["Similar mods detected: 'Overhaul_v1' and 'Overhaul_v2'. "
        +:+ "These may be duplicate versions."]).
Proof.
  split_and!.
  - apply base_name_normalized.
  - unfold ModManager.detect_conflicts. apply fold_note_similar.
    intros b. by rewrite lookup_empty.
  - apply near_duplicates_length.
  - intros. vm_compute. reflexivity.
Qed.

End conflicts.

(** ** Game path resolver: properties *)

Section resolver.
Import FS ModManager.
Implicit Types (w : world) (steamapps : path) (self : ModManager.t).

(** A library without the manifest is passed over: the one test made,
    nothing found, nothing reported. *)
Lemma validate_no_manifest steamapps w :
  exists_ (files w) (manifest steamapps) = false →
  _validate_and_create_mod_directory steamapps w
  = ((None, None), World (files w) (probes w ++ [manifest steamapps]) (stdout w)).
Proof.
  intros H. unfold _validate_and_create_mod_directory, io_bind, probe.
  by rewrite H.
Qed.

Lemma validate_game_files_missing steamapps w :
  exists_ (files w) (manifest steamapps) = true →
  exists_ (files w) (game_dir steamapps) = false →
  _validate_and_create_mod_directory steamapps w
  = ((None, Some GameFilesMissing),
     World (files w) (probes w ++ [manifest steamapps; game_dir steamapps]) (stdout w)).
Proof.
  intros H1 H2. unfold _validate_and_create_mod_directory, io_bind, probe.
  rewrite H1. cbn [negb files probes stdout]. rewrite H2. cbn [negb io_ret].
  by rewrite <- app_assoc.
Qed.

Lemma check_libraries_game_files_missing (pre : list path) r (post : list path) w :
  Forall (fun q => exists_ (files w) (manifest q) = false) pre →
  exists_ (files w) (manifest r) = true →
  exists_ (files w) (game_dir r) = false →
  check_libraries (pre ++ r :: post) w
  = (Fatal GameFilesMissing,
     World (files w)
           (probes w ++ (manifest <$> pre) ++ [manifest r; game_dir r])
           (stdout w)).
Proof.
  intros Hpre Hr Hg. revert w Hpre Hr Hg.
  induction pre as [|q pre IH]; intros w Hpre Hr Hg.
  - cbn [app check_libraries]. unfold io_bind.
    by rewrite (validate_game_files_missing _ _ Hr Hg).
  - apply Forall_cons in Hpre as [Hq Hpre].
    cbn [app check_libraries]. unfold io_bind.
    rewrite (validate_no_manifest _ _ Hq).
    rewrite IH by done. cbn [files probes stdout fmap list_fmap].
    by rewrite <- app_assoc.
Qed.

(** C1. When the libraries before [r] have no manifest of the game and
    [r] has the manifest but no game directory, resolution ends at [r]:
    it returns no path, the error of the manager is [GameFilesMissing],
    its game directory is as before, the store is untouched, and the
    paths examined are the manifests of the libraries up to [r] and the
    game directory of [r], none of a later library. *)
Theorem game_files_missing_ends_search
    (pre : list path) r (post : list path) self w :
  Forall (fun q => exists_ (files w) (manifest q) = false) pre →
  exists_ (files w) (manifest r) = true →
  exists_ (files w) (game_dir r) = false →
  _detect_game_path (pre ++ r :: post) self w
  = ((None, ModManager.ModManager (data_manager self) (game_mods_dir self)
                                  (Some GameFilesMissing)),
     World (files w)
           (probes w ++ (manifest <$> pre) ++ [manifest r; game_dir r])
           (stdout w)).
Proof.
  intros Hpre Hr Hg. unfold _detect_game_path.
  destruct (pre ++ r :: post)%list as [|x l] eqn:E.
  { by destruct pre. }
  rewrite <- E. unfold io_bind.
  by rewrite (check_libraries_game_files_missing _ _ _ _ Hpre Hr Hg).
Qed.

Lemma game_files_missing_ends_search_witness :
  _detect_game_path [Sample.native; Sample.games; Sample.ssd] Sample.manager
                    (World Sample.steam_store [] [])
  = ((None, ModManager.ModManager Sample.dm None (Some GameFilesMissing)),
     World Sample.steam_store
           [manifest Sample.native; manifest Sample.games; game_dir Sample.games] []).
Proof.
  apply (game_files_missing_ends_search
           [Sample.native] Sample.games [Sample.ssd] Sample.manager
           (World Sample.steam_store [] [])).
  - constructor; [|constructor]. vm_compute. reflexivity.
  - vm_compute. reflexivity.
  - vm_compute. reflexivity.
Defined.

(** Without the second library the search reaches the third and finds
    the mod directory there. *)
Example detect_game_path_found :
  (_detect_game_path [Sample.native; Sample.ssd] Sample.manager
                     (World Sample.steam_store [] [])).1.1
  = Some (mods_path Sample.ssd).
Proof. vm_compute. reflexivity. Qed.

End resolver.

(** ** Activation engine: properties *)

Section activation.
Import FS ModManager Invariant.
Implicit Types (s c : fs) (p q d : path) (self : ModManager.t) (m : Mod.t).

Lemma is_link_Some o : is_link o = true ↔ ∃ t, o = Some (Symlink t).
Proof.
  destruct o as [[]|]; split; try done; eauto; by intros [? [=]].
Qed.

Lemma startswith_app (p x : string) : Str.startswith p (p +:+ x) = true.
Proof.
  unfold Str.startswith. induction p as [|a p IH].
  - by destruct x.
  - change (String a p +:+ x) with (String a (p +:+ x)). cbn.
    by destruct (ascii_dec a a).
Qed.

Lemma is_symlink_Some s q : is_symlink s q = true ↔ ∃ t, s !! q = Some (Symlink t).
Proof. apply is_link_Some. Qed.

Lemma elem_of_managed_children s d q :
  q ∈ filter (managed s) (children s d) ↔ owned d q (s !! q).
Proof.
  rewrite list_elem_of_filter, elem_of_children. unfold managed, owned.
  change (is_symlink s q) with (is_link (s !! q)). split.
  - intros [[Hs Hp] [_ Hq]]. done.
  - intros (Hq & Hp & Hl). split_and!; try done.
    apply is_link_Some in Hl as [t ->]. eauto.
Qed.

Lemma lookup_fold_delete (l : list path) s q :
  fold_left (fun s p => delete p s) l s !! q
  = if decide (q ∈ l) then None else s !! q.
Proof.
  revert s. induction l as [|p l IH]; intros s; cbn [fold_left].
  - rewrite decide_False; [done|]. apply not_elem_of_nil.
  - rewrite IH. destruct (decide (q = p)) as [->|Hne].
    + rewrite lookup_delete_eq, (decide_True (P := p ∈ p :: l)) by apply list_elem_of_here.
      by destruct (decide (p ∈ l)).
    + rewrite lookup_delete_ne by done.
      destruct (decide (q ∈ l)) as [Hin|Hin].
      * rewrite decide_True; [done|]. by apply list_elem_of_further.
      * rewrite decide_False; [done|]. by intros [?|?]%elem_of_cons.
Qed.

Lemma unlink_all_symlinks (l : list path) (n : nat) s :
  NoDup l → (∀ p, p ∈ l → is_symlink s p = true) →
  unlink_all l n s = ((n + length l)%nat, fold_left (fun s p => delete p s) l s, []).
Proof.
  revert n s. induction l as [|p l IH]; intros n s Hnd Hl.
  - cbn. by rewrite Nat.add_0_r.
  - apply NoDup_cons in Hnd as [Hp Hnd].
    cbn [unlink_all fold_left]. unfold unlink.
    destruct (proj1 (is_symlink_Some s p) (Hl p (list_elem_of_here p l))) as [t Ht].
    rewrite Ht, IH; [| done |].
    + do 2 f_equal. cbn. lia.
    + intros q Hq. apply is_symlink_Some.
      destruct (proj1 (is_symlink_Some s q) (Hl q (list_elem_of_further q p l Hq)))
        as [t' Ht'].
      exists t'. rewrite lookup_delete_ne; [done|]. by intros ->.
Qed.

(** The store [clear_managed_symlinks] leaves. *)
Lemma clear_managed_symlinks_spec self d s :
  game_mods_dir self = Some d → s !! d = Some Dir →
  ∃ c, clear_managed_symlinks self s
       = (Ok (length (filter (managed s) (children s d))), c) ∧
       ∀ q, c !! q = if decide (owned d q (s !! q)) then None else s !! q.
Proof.
  intros Hd Hs. unfold clear_managed_symlinks, is_game_path_valid, get_managed_symlinks.
  rewrite Hd, (exists_of_stat _ _ _ (stat_Dir _ _ Hs)). cbn [negb].
  unfold iterdir. rewrite (stat_Dir _ _ Hs), result_bind_Ok.
  rewrite unlink_all_symlinks.
  - eexists. split; [done|]. intros q. rewrite lookup_fold_delete.
    destruct (decide (owned d q (s !! q))).
    + by rewrite decide_True by by apply elem_of_managed_children.
    + by rewrite decide_False by by rewrite elem_of_managed_children.
  - apply NoDup_filter, NoDup_children.
  - by intros p [[? _] _]%list_elem_of_filter.
Qed.


Lemma grown_refl d c : grown d c c.
Proof. intros q. by left. Qed.

(** A turn of the loop leaves the store, or adds the link of the mod
    under a name that was free. *)
Lemma link_mod_store d m (n : nat) (e : list string) s :
  (link_mod d m (n, e, s)).2 = s ∨
  ∃ k, k = d </> (DataManager.SYMLINK_PREFIX +:+ Mod.filename m) ∧
       s !! k = None ∧
       (link_mod d m (n, e, s)).2 = <[k := Symlink (Path (Mod.path m))]> s.
Proof.
  unfold link_mod, symlink.
  destruct (exists_ s (Path (Mod.path m))); cbn [negb]; [|by left].
  destruct (s !! (d </> _)) as [x|] eqn:E; [by left|].
  destruct (check_parent s _) as [[]|]; try by left.
  right. eauto.
Qed.

Lemma link_mod_grown d c m (acc : nat * list string * fs) :
  grown d c acc.2 → grown d c (link_mod d m acc).2.
Proof.
  destruct acc as [[n e] s]. cbn [snd]. intros Hg.
  destruct (link_mod_store d m n e s) as [->|(k & Hk & Hfree & ->)]; [done|].
  intros q. destruct (decide (q = k)) as [->|Hne].
  - rewrite lookup_insert_eq. right. split.
    + destruct (Hg k) as [H|[H _]]; congruence.
    + unfold owned. rewrite Hk, name_snoc. split_and!; [done| |done].
      apply startswith_app.
  - rewrite lookup_insert_ne by done. apply Hg.
Qed.

Lemma link_all_grown d c (l : list Mod.t) (acc : nat * list string * fs) :
  grown d c acc.2 → grown d c (link_all d l acc).2.
Proof.
  revert acc. induction l as [|m l IH]; intros acc Hg; [done|].
  cbn [link_all fold_left]. apply IH. by apply link_mod_grown.
Qed.

(** Clearing what grew from a store without owned entries gives that
    store back. *)
Lemma clear_grown d c s q :
  (∀ q, ¬ owned d q (c !! q)) → grown d c s →
  (if decide (owned d q (s !! q)) then None else s !! q) = c !! q.
Proof.
  intros Hc Hg. destruct (Hg q) as [Heq|[Hnone Hown]].
  - rewrite Heq. by rewrite decide_False.
  - by rewrite decide_True.
Qed.

Lemma cleared_not_owned d s c :
  (∀ q, c !! q = if decide (owned d q (s !! q)) then None else s !! q) →
  ∀ q, ¬ owned d q (c !! q).
Proof.
  intros Hc q. rewrite Hc. destruct (decide (owned d q (s !! q))); [|done].
  by intros (_ & _ & ?).
Qed.

Lemma cleared_dir d s c :
  (∀ q, c !! q = if decide (owned d q (s !! q)) then None else s !! q) →
  s !! d = Some Dir → c !! d = Some Dir.
Proof.
  intros Hc Hd. rewrite Hc, Hd. rewrite decide_False; [done|]. by intros (_ & _ & ?).
Qed.

Lemma grown_dir d c s : c !! d = Some Dir → grown d c s → s !! d = Some Dir.
Proof. intros Hd Hg. destruct (Hg d) as [->|[? _]]; congruence. Qed.

Lemma cleared_subseteq d s c :
  (∀ q, c !! q = if decide (owned d q (s !! q)) then None else s !! q) → c ⊆ s.
Proof.
  intros Hc. apply map_subseteq_spec. intros q x. rewrite Hc.
  by destruct (decide _).
Qed.

(** [activate_instance] in a directory that is there: the links are
    made, mod after mod, in the cleared store. *)
Lemma activate_instance_resolved self d (i : Instance.t) s :
  game_mods_dir self = Some d → s !! d = Some Dir →
  is_ok (clear_managed_symlinks self s).1 = true ∧
  activate_instance self i s
  = (let '(n, e, s2) := link_all d (Instance.get_enabled_mods i)
                                 (0%nat, [], (clear_managed_symlinks self s).2) in
     (Ok (n, e), s2)).
Proof.
  intros Hd Hs. destruct (clear_managed_symlinks_spec self d s Hd Hs) as (c & Hc & _).
  unfold activate_instance.
  rewrite Hd, (exists_of_stat _ _ _ (stat_Dir _ _ Hs)), Hc. done.
Qed.

Lemma get_managed_symlinks_none self d c :
  game_mods_dir self = Some d → c !! d = Some Dir →
  (∀ q, ¬ owned d q (c !! q)) →
  get_managed_symlinks self c = Ok [].
Proof.
  intros Hd Hcd Hc. unfold get_managed_symlinks, iterdir.
  rewrite Hd, (exists_of_stat _ _ _ (stat_Dir _ _ Hcd)), (stat_Dir _ _ Hcd).
  rewrite result_bind_Ok. f_equal.
  (* no entry passes the filter *)
  destruct (filter (managed c) (children c d)) as [|q l] eqn:E; [done|].
  assert (q ∈ filter (managed c) (children c d)) as Hq
    by (rewrite E; apply list_elem_of_here).
  apply elem_of_managed_children in Hq. by destruct (Hc q).
Qed.

(** C2. In a resolved game mod directory, whatever it holds, activating
    an instance succeeds, and activating it again at once returns the
    same count and errors and leaves the same store, hence the same
    managed symlinks; deactivating after the activation leaves no managed
    symlink. *)
Theorem activate_idempotent self d (i : Instance.t) s :
  game_mods_dir self = Some d → s !! d = Some Dir →
  let once := activate_instance self i s in
  let twice := activate_instance self i once.2 in
  is_ok once.1 = true ∧
  twice = once ∧
  get_managed_symlinks self twice.2 = get_managed_symlinks self once.2 ∧
  get_managed_symlinks self (deactivate_all self once.2).2 = Ok [].
Proof.
  intros Hd Hs.
  destruct (clear_managed_symlinks_spec self d s Hd Hs) as (c & Hc & Hlook).
  pose proof (cleared_not_owned _ _ _ Hlook) as Hnone.
  pose proof (cleared_dir _ _ _ Hlook Hs) as Hcd.
  destruct (activate_instance_resolved self d i s Hd Hs) as [_ Hact].
  rewrite Hc in Hact. cbn [snd] in Hact.
  pose proof (link_all_grown d c (Instance.get_enabled_mods i) (0%nat, [], c)
                (grown_refl d c)) as Hg.
  destruct (link_all d (Instance.get_enabled_mods i) (0%nat, [], c))
    as [[n e] s2] eqn:Hlink.
  cbn [snd] in Hg. pose proof (grown_dir _ _ _ Hcd Hg) as Hs2.
  destruct (clear_managed_symlinks_spec self d s2 Hd Hs2) as (c2 & Hc2 & Hlook2).
  assert (c2 = c) as ->.
  { apply map_eq. intros q. rewrite Hlook2. by apply clear_grown. }
  cbn zeta. rewrite Hact. cbn [fst snd].
  assert (activate_instance self i s2 = (Ok (n, e), s2)) as Htwice.
  { destruct (activate_instance_resolved self d i s2 Hd Hs2) as [_ ->].
    rewrite Hc2. cbn [snd]. by rewrite Hlink. }
  rewrite Htwice. split_and!; try done.
  unfold deactivate_all. rewrite Hc2. cbn [snd].
  by apply (get_managed_symlinks_none self d).
Qed.


Lemma link_mod_missing d m (n : nat) (e : list string) s :
  exists_ s (Path (Mod.path m)) = false →
  link_mod d m (n, e, s) = (n, (e ++ [Reference.MissingSource m])%list, s).
Proof. intros H. unfold link_mod. by rewrite H. Qed.

Lemma link_all_missing d (l : list Mod.t) (n : nat) (e : list string) s :
  Forall (fun m => exists_ s (Path (Mod.path m)) = false) l →
  link_all d l (n, e, s) = (n, (e ++ (Reference.MissingSource <$> l))%list, s).
Proof.
  revert e. induction l as [|m l IH]; intros e Hl.
  - cbn. by rewrite app_nil_r.
  - apply Forall_cons in Hl as [Hm Hl]. cbn [link_all fold_left].
    rewrite (link_mod_missing _ _ _ _ _ Hm).
    change (fold_left (fun a m0 => link_mod d m0 a) l) with (link_all d l).
    rewrite IH by done. by rewrite <- app_assoc.
Qed.

Lemma link_all_app d (l1 l2 : list Mod.t) (acc : nat * list string * fs) :
  link_all d (l1 ++ l2) acc = link_all d l2 (link_all d l1 acc).
Proof. apply fold_left_app. Qed.

(** C3. In a resolved game mod directory [activate_instance] takes the
    enabled mods in the order of the instance, after clearing.  When the
    turn of an enabled mod comes and its source file does not exist, the
    error naming the mod is appended and the loop goes on with the count
    and the store it had: no symlink is made for it.  When no enabled mod
    has its source file, the count is 0 and the errors name the enabled
    mods in their order; for a single enabled mod this is the count 0 and
    the one error naming it, and no managed symlink is left. *)
Theorem activate_missing_source self d (i : Instance.t) s :
  game_mods_dir self = Some d → s !! d = Some Dir →
  let c := (clear_managed_symlinks self s).2 in
  (∀ l1 m l2,
     Instance.get_enabled_mods i = (l1 ++ m :: l2)%list →
     let '(n1, e1, s1) := link_all d l1 (0%nat, [], c) in
     exists_ s1 (Path (Mod.path m)) = false →
     activate_instance self i s
     = (let '(n, e, s2) :=
          link_all d l2 (n1, (e1 ++ ["Mod file not found: " +:+ Mod.filename m])%list, s1) in
        (Ok (n, e), s2))) ∧
  (Forall (fun m => exists_ s (Path (Mod.path m)) = false)
          (Instance.get_enabled_mods i) →
   activate_instance self i s
   = (Ok (0%nat, Reference.MissingSource <$> Instance.get_enabled_mods i), c)) ∧
  (∀ m, Instance.get_enabled_mods i = [m] →
        exists_ s (Path (Mod.path m)) = false →
        activate_instance self i s
        = (Ok (0%nat, ["Mod file not found: " +:+ Mod.filename m]), c) ∧
        get_managed_symlinks self c = Ok []).
Proof.
  intros Hd Hs c.
  destruct (clear_managed_symlinks_spec self d s Hd Hs) as (c' & Hc & Hlook).
  assert (c = c') as Hcc by (unfold c; by rewrite Hc).
  destruct (activate_instance_resolved self d i s Hd Hs) as [_ Hact].
  fold c in Hact.
  assert (Forall (fun m => exists_ s (Path (Mod.path m)) = false)
                 (Instance.get_enabled_mods i) →
          activate_instance self i s
          = (Ok (0%nat, Reference.MissingSource <$> Instance.get_enabled_mods i), c))
    as Hall.
  { intros Hall. rewrite Hact, link_all_missing; [done|].
    eapply Forall_impl; [exact Hall|]. intros m Hm. cbn in Hm.
    apply (exists_weaken_false c s); [|done].
    rewrite Hcc. by apply (cleared_subseteq d). }
  split_and!.
  - intros l1 m l2 Hsplit.
    destruct (link_all d l1 (0%nat, [], c)) as [[n1 e1] s1] eqn:H1.
    intros Hm. rewrite Hact, Hsplit, link_all_app, H1.
    change (m :: l2) with ([m] ++ l2)%list. rewrite link_all_app.
    cbn [link_all fold_left]. by rewrite (link_mod_missing _ _ _ _ _ Hm).
  - exact Hall.
  - intros m Hone Hm. split.
    + rewrite Hall; rewrite Hone; [done|]. by constructor.
    + rewrite Hcc. apply (get_managed_symlinks_none self d); [done| |].
      * by apply (cleared_dir d s).
      * by apply (cleared_not_owned d s).
Qed.


Lemma activate_idempotent_witness :
  let once := activate_instance Sample.resolved Sample.profile Sample.library_store in
  let twice := activate_instance Sample.resolved Sample.profile once.2 in
  is_ok once.1 = true ∧
  twice = once ∧
  get_managed_symlinks Sample.resolved twice.2
  = get_managed_symlinks Sample.resolved once.2 ∧
  get_managed_symlinks Sample.resolved (deactivate_all Sample.resolved once.2).2 = Ok [].
Proof.
  apply (activate_idempotent Sample.resolved (mods_path Sample.ssd)
           Sample.profile Sample.library_store).
  - reflexivity.
  - vm_compute. reflexivity.
Defined.

(** The sample activation replaces the stale link by the link of the one
    mod whose file is in the library, and reports the other. *)
Example activate_sample :
  get_managed_symlinks Sample.resolved Sample.library_store
  = Ok [mods_path Sample.ssd </> "ronmgr_old.pak"] ∧
  (activate_instance Sample.resolved Sample.profile Sample.library_store).1
  = Ok (1%nat, ["Mod file not found: Overhaul_v2.pak"]) ∧
  get_managed_symlinks Sample.resolved
    (activate_instance Sample.resolved Sample.profile Sample.library_store).2
  = Ok [mods_path Sample.ssd </> "ronmgr_Overhaul_v1.pak"].
Proof. split_and!; vm_compute; reflexivity. Qed.

Lemma activate_missing_source_witness :
  activate_instance Sample.resolved Sample.stale_profile Sample.library_store
  = (Ok (0%nat, ["Mod file not found: Overhaul_v2.pak"]),
     (clear_managed_symlinks Sample.resolved Sample.library_store).2) ∧
  get_managed_symlinks Sample.resolved
    (clear_managed_symlinks Sample.resolved Sample.library_store).2 = Ok [].
Proof.
  apply (proj2 (proj2 (activate_missing_source Sample.resolved (mods_path Sample.ssd)
                         Sample.stale_profile Sample.library_store
                         eq_refl ltac:(vm_compute; reflexivity)))
           (Sample.overhaul "2" true)).
  - vm_compute. reflexivity.
  - vm_compute. reflexivity.
Defined.

End activation.

(** ** Archive import: properties *)

Section import.
Import FS Invariant.
Implicit Types (s : fs) (p q pak_file : path) (dm : DataManager.t).

Lemma suffix_name p : suffix p = suffix [name p].
Proof. done. Qed.

Lemma import_mod_duplicate dm pak_file s :
  exists_ s (DataManager.mods_dir dm </> name pak_file) = true →
  DataManager.import_mod dm pak_file s = (Ok None, s).
Proof.
  intros H. unfold DataManager.import_mod.
  destruct (negb _ || negb _); [done|]. by rewrite H.
Qed.

Lemma import_mod_passed_over dm pak_file s :
  passed_over dm s (name pak_file) →
  DataManager.import_mod dm pak_file s = (Ok None, s).
Proof.
  intros [Hsfx|Hdup]; [|by apply import_mod_duplicate].
  unfold DataManager.import_mod. rewrite suffix_name.
  apply String.eqb_neq in Hsfx. rewrite Hsfx. cbn [negb].
  by rewrite orb_true_r.
Qed.

(** What [import_mod] leaves when it returns: a larger store, in which
    the file, if it was there and is a package, has its name taken in
    the library. *)
Lemma import_mod_returns dm pak_file s o s' :
  DataManager.import_mod dm pak_file s = (Ok o, s') →
  s ⊆ s' ∧ (exists_ s pak_file = true → passed_over dm s' (name pak_file)).
Proof.
  unfold DataManager.import_mod, passed_over. rewrite <- suffix_name.
  destruct (exists_ s pak_file) eqn:Hex; cbn [negb orb].
  2: { intros [= <- <-]. done. }
  destruct (String.eqb_spec (Str.lower (suffix pak_file)) ".pak") as [Hsfx|Hsfx];
    cbn [negb].
  2: { intros [= <- <-]. eauto. }
  set (dest := DataManager.mods_dir dm </> name pak_file).
  destruct (exists_ s dest) eqn:Hdest.
  { intros [= <- <-]. eauto. }
  unfold copy2. destruct (stat s pak_file) as [[|sz doc|]|]; try done.
  destruct (follow MAXSYMLINKS s dest) as [q|] eqn:Hf; [|done].
  assert (s !! q = None) as Hq.
  { unfold exists_, stat in Hdest. rewrite Hf in Hdest. cbn in Hdest.
    by destruct (s !! q). }
  rewrite Hq. destruct (check_parent s q); [done|].
  assert (stat (<[q := File sz doc]> s) dest = Some (File sz doc)) as Hst
    by by apply stat_insert_end.
  unfold st_size. rewrite Hst. intros [= <- <-]. split.
  - by apply insert_subseteq.
  - intros _. right. by rewrite (exists_of_stat _ _ _ Hst).
Qed.

Lemma passed_over_weaken dm s s' n : s ⊆ s' → passed_over dm s n → passed_over dm s' n.
Proof. intros Hsub [?|?]; [by left|right]. by apply (exists_weaken s). Qed.

Lemma import_all_returns dm (paks : list path) s l s' :
  DataManager.import_all dm paks s = (Ok l, s') →
  s ⊆ s' ∧
  (Forall (fun p => exists_ s p = true) paks →
   Forall (passed_over dm s') (name <$> paks)).
Proof.
  revert s l. induction paks as [|pak_file rest IH]; intros s l.
  - cbn. intros [= <- <-]. split; [done|]. constructor.
  - cbn [DataManager.import_all].
    destruct (DataManager.import_mod dm pak_file s) as [[o|e] s1] eqn:E1; [|done].
    destruct (DataManager.import_all dm rest s1) as [[l'|e] s2] eqn:E2; [|done].
    intros [= <- <-].
    destruct (import_mod_returns _ _ _ _ _ E1) as [Hsub1 Hhead].
    destruct (IH _ _ E2) as [Hsub2 Hrest]. split; [by etrans|].
    intros [Hp Hr]%Forall_cons. cbn [fmap list_fmap]. constructor.
    + apply (passed_over_weaken _ s1); auto.
    + apply Hrest. eapply Forall_impl; [exact Hr|].
      intros p Hp'. by apply (exists_weaken s).
Qed.

Lemma import_all_nothing_new dm (paks : list path) s :
  Forall (passed_over dm s) (name <$> paks) →
  DataManager.import_all dm paks s = (Ok [], s).
Proof.
  induction paks as [|pak_file rest IH]; [done|].
  cbn [fmap list_fmap]. intros [Hp Hr]%Forall_cons.
  cbn [DataManager.import_all].
  rewrite (import_mod_passed_over _ _ _ Hp), IH by done. done.
Qed.

(** C6. A package file whose name is taken in the library is not
    imported: [import_mod] returns [None] and the store, with the library
    file in it, as it was.  So when an archive import has returned without
    error, importing the same archive again (the package files extracted
    anew, under the same names, into a store that kept what the first
    import left) imports nothing and returns no error either. *)
Theorem import_skips_library_duplicates dm :
  (∀ pak_file s,
     exists_ s (DataManager.mods_dir dm </> name pak_file) = true →
     DataManager.import_mod dm pak_file s = (Ok None, s)) ∧
  (∀ archive_path (paks1 paks2 : list path) s,
     Forall (fun p => exists_ s p = true) paks1 →
     name <$> paks2 = name <$> paks1 →
     let first := DataManager.import_archive dm archive_path (Ok paks1) s in
     first.1.2 = None →
     ∀ s', first.2 ⊆ s' →
       DataManager.import_archive dm archive_path (Ok paks2) s' = (([], None), s')).
Proof.
  split; [apply import_mod_duplicate|].
  intros archive_path paks1 paks2 s Hfound Hnames first Hnone s' Hsub.
  subst first. unfold DataManager.import_archive in *.
  destruct (exists_ s archive_path) eqn:Harch; cbn [negb] in *; [|done].
  destruct (bool_decide _) eqn:Hfmt; cbn [negb] in *; [|done].
  destruct paks1 as [|p1 paks1]; [done|].
  destruct paks2 as [|p2 paks2]; [done|].
  destruct (DataManager.import_all dm (p1 :: paks1) s) as [[l|e] s1] eqn:E; [|done].
  cbn [fst snd] in *.
  destruct (import_all_returns _ _ _ _ _ E) as [Hsub1 Hpassed].
  rewrite (exists_weaken s s') by (done || by etrans).
  cbn [negb]. rewrite import_all_nothing_new; [done|].
  rewrite Hnames. eapply Forall_impl; [exact (Hpassed Hfound)|].
  intros n. by apply passed_over_weaken.
Qed.


Lemma import_skips_library_duplicates_witness :
  let first := DataManager.import_archive Sample.dm Sample.archive
                 (Ok Sample.extracted_once) Sample.archive_store in
  DataManager.import_mod Sample.dm (Sample.scratch "x2" </> "a.pak") first.2
  = (Ok None, first.2) ∧
  DataManager.import_archive Sample.dm Sample.archive (Ok Sample.extracted_again) first.2
  = (([], None), first.2).
Proof.
  split.
  - apply (proj1 (import_skips_library_duplicates Sample.dm)).
    vm_compute. reflexivity.
  - apply (proj2 (import_skips_library_duplicates Sample.dm)
             Sample.archive Sample.extracted_once Sample.extracted_again
             Sample.archive_store).
    + repeat constructor; vm_compute; reflexivity.
    + vm_compute. reflexivity.
    + vm_compute. reflexivity.
    + reflexivity.
Defined.

(** The first import of the sample archive takes its three packages. *)
Example import_archive_sample :
  Mod.filename <$> (DataManager.import_archive Sample.dm Sample.archive
                      (Ok Sample.extracted_once) Sample.archive_store).1.1
  = ["a.pak"; "b.pak"; "c.pak"].
Proof. vm_compute. reflexivity. Qed.

End import.

(** ** Instances and their mods: further properties *)

Section entity_more.
Implicit Types (i : Instance.t) (m : Mod.t).

Lemma add_mod_absent m i :
  Mod.filename m ∉ (Mod.filename <$> Instance.mods i) →
  Instance.add_mod m i
  = (true, Instance.Instance (Instance.name i) (Instance.mods i ++ [m]) (Instance.created i)).
Proof.
  intros H. unfold Instance.add_mod.
  destruct (existsb _ _) eqn:E; [|done]. by apply existsb_filename in E.
Qed.

(** X1. [add_mod] keeps the filenames of an instance distinct: it
    answers [True] exactly when the filename is new, then appends the mod
    at the end, and otherwise leaves the list as it is; the name and the
    timestamp of the instance are never changed. *)
Theorem add_mod_keeps_filenames_unique i m :
  NoDup (Mod.filename <$> Instance.mods i) →
  NoDup (Mod.filename <$> Instance.mods (Instance.add_mod m i).2) ∧
  ((Instance.add_mod m i).1 = true ↔ Mod.filename m ∉ (Mod.filename <$> Instance.mods i)) ∧
  Instance.mods (Instance.add_mod m i).2
  = (if (Instance.add_mod m i).1 then Instance.mods i ++ [m] else Instance.mods i)%list ∧
  Instance.name (Instance.add_mod m i).2 = Instance.name i ∧
  Instance.created (Instance.add_mod m i).2 = Instance.created i.
Proof.
  intros Hnd.
  destruct (decide (Mod.filename m ∈ Mod.filename <$> Instance.mods i)) as [Hin|Hout].
  - rewrite (add_mod_present _ _ Hin). cbn. split_and!; try done.
  - rewrite (add_mod_absent _ _ Hout). cbn. split_and!; try done.
    rewrite fmap_app. apply NoDup_app. split_and!; [done| |apply NoDup_singleton].
    intros f Hf [->|[]%elem_of_nil]%elem_of_cons. done.
Qed.

Lemma remove_mod_mods (f : string) i :
  Instance.mods (Instance.remove_mod f i)
  = filter (fun m => Mod.filename m ≠ f) (Instance.mods i).
Proof. done. Qed.

(** X2. [remove_mod] drops every mod of the filename and nothing else,
    keeping the order of the others; an absent filename leaves the
    instance as it is; distinct filenames stay distinct; and a mod of the
    removed filename can be added again. *)
Theorem remove_mod_removes_filename (f : string) i :
  (f ∉ Mod.filename <$> Instance.mods (Instance.remove_mod f i)) ∧
  (∀ m, m ∈ Instance.mods (Instance.remove_mod f i)
        ↔ m ∈ Instance.mods i ∧ Mod.filename m ≠ f) ∧
  Instance.mods (Instance.remove_mod f i) `sublist_of` Instance.mods i ∧
  (f ∉ (Mod.filename <$> Instance.mods i) → Instance.remove_mod f i = i) ∧
  (NoDup (Mod.filename <$> Instance.mods i) →
   NoDup (Mod.filename <$> Instance.mods (Instance.remove_mod f i))) ∧
  (∀ m, Mod.filename m = f →
        (Instance.add_mod m (Instance.remove_mod f i)).1 = true).
Proof.
  assert (f ∉ (Mod.filename <$> Instance.mods (Instance.remove_mod f i))) as Hgone.
  { rewrite remove_mod_mods. intros (m & -> & Hm)%list_elem_of_fmap.
    by apply list_elem_of_filter in Hm as [Hm _]. }
  split_and!.
  - done.
  - intros m. rewrite remove_mod_mods, list_elem_of_filter. tauto.
  - rewrite remove_mod_mods. apply sublist_filter.
  - clear Hgone. intros Hout. destruct i as [n l c]. unfold Instance.remove_mod.
    cbn [Instance.mods Instance.name Instance.created] in *. f_equal.
    induction l as [|m l IH]; [done|].
    rewrite fmap_cons in Hout. apply not_elem_of_cons in Hout as [Hm Hl].
    rewrite filter_cons, decide_True by done. f_equal. by apply IH.
  - intros Hnd. rewrite remove_mod_mods.
    eapply sublist_NoDup; [exact Hnd|]. apply fmap_sublist, sublist_filter.
  - intros m <-. rewrite add_mod_absent; [done|exact Hgone].
Qed.

Lemma add_mod_keeps_filenames_unique_witness :
  NoDup (Mod.filename <$>
         Instance.mods (Instance.add_mod (Sample.overhaul "3" true) Sample.profile).2) ∧
  ((Instance.add_mod (Sample.overhaul "3" true) Sample.profile).1 = true ↔
   Mod.filename (Sample.overhaul "3" true)
   ∉ (Mod.filename <$> Instance.mods Sample.profile)) ∧
  Instance.mods (Instance.add_mod (Sample.overhaul "3" true) Sample.profile).2
  = (if (Instance.add_mod (Sample.overhaul "3" true) Sample.profile).1
     then Instance.mods Sample.profile ++ [Sample.overhaul "3" true]
     else Instance.mods Sample.profile)%list ∧
  Instance.name (Instance.add_mod (Sample.overhaul "3" true) Sample.profile).2
  = Instance.name Sample.profile ∧
  Instance.created (Instance.add_mod (Sample.overhaul "3" true) Sample.profile).2
  = Instance.created Sample.profile.
Proof.
  apply (add_mod_keeps_filenames_unique Sample.profile (Sample.overhaul "3" true)).
  by_compute.
Defined.

Lemma remove_mod_removes_filename_witness :
  Instance.remove_mod "Other.pak" Sample.profile = Sample.profile.
Proof.
  apply (proj1 (proj2 (proj2 (proj2
           (remove_mod_removes_filename "Other.pak" Sample.profile))))).
  by_compute.
Defined.

End entity_more.

(** ** Decoding the documents: what is accepted and what raises *)

Section entity_errors.
Import Notions.

Lemma forallb_bool_decide {A} (P : A → Prop) `{!∀ x, Decision (P x)} (l : list A) :
  forallb (fun x => bool_decide (P x)) l = true ↔ ∀ x, x ∈ l → P x.
Proof.
  rewrite forallb_forall. split.
  - intros Hall x Hx. apply list_elem_of_In, Hall in Hx.
    by apply bool_decide_eq_true in Hx.
  - intros Hall x Hx. apply bool_decide_eq_true, Hall. by apply list_elem_of_In.
Qed.

(** X3. [Mod.from_dict] returns a [Mod] exactly for an object whose keys
    are all fields of [Mod] and that has the four fields without a
    default; everything else raises [TypeError]; a document without
    [enabled] gives an enabled mod. *)
Theorem Mod_from_dict_accepts (v : pyval) :
  (is_ok (Mod.from_dict v) = true ↔
   ∃ d, v = PDict d ∧
        (∀ k, k ∈ dict_keys d → k ∈ Mod.fields) ∧
        (∀ k, k ∈ required → is_Some (dict_get k d))) ∧
  (is_ok (Mod.from_dict v) = false → Mod.from_dict v = Raise TypeError) ∧
  (∀ n f p s,
     Mod.from_dict
       (PDict [("name", PStr n); ("filename", PStr f); ("path", PStr p); ("size", PInt s)])
     = Ok (Built (Mod.Mod n f p s true))).
Proof.
  split_and!.
  - destruct v as [| | | | |d]; try (split; [done|by intros (? & [=] & _)]).
    unfold Mod.from_dict. split.
    + destruct (forallb _ _) eqn:E; [|done].
      pose proof (proj1 (forallb_bool_decide (fun k : string => k ∈ Mod.fields) _) E) as Hkeys.
      destruct (dict_get "name" d) eqn:E1; [|done].
      destruct (dict_get "filename" d) eqn:E2; [|done].
      destruct (dict_get "path" d) eqn:E3; [|done].
      destruct (dict_get "size" d) eqn:E4; [|done].
      intros _. exists d. split_and!; [done..|].
      intros k Hk. unfold required in Hk.
      repeat (apply elem_of_cons in Hk as [->|Hk]; [by eexists|]).
      by apply elem_of_nil in Hk.
    + intros (d' & [= <-] & Hkeys & Hreq).
      rewrite (proj2 (forallb_bool_decide (fun k : string => k ∈ Mod.fields) _) Hkeys).
      destruct (Hreq "name") as [? ->]; [by_compute|].
      destruct (Hreq "filename") as [? ->]; [by_compute|].
      destruct (Hreq "path") as [? ->]; [by_compute|].
      destruct (Hreq "size") as [? ->]; [by_compute|]. done.
  - destruct v as [| | | | |d]; try done. unfold Mod.from_dict.
    destruct (forallb _ _); [|done].
    destruct (dict_get "name" d); [|done].
    destruct (dict_get "filename" d); [|done].
    destruct (dict_get "path" d); [|done].
    by destruct (dict_get "size" d).
  - done.
Qed.

Lemma mods_from_raises (l : list pyval) (v : pyval) :
  v ∈ l → is_ok (Mod.from_dict v) = false → is_ok (Instance.mods_from l) = false.
Proof.
  induction l as [|x l IH]; [by intros ?%elem_of_nil|].
  intros [->|Hin]%elem_of_cons Hv; cbn [Instance.mods_from].
  - by destruct (Mod.from_dict x).
  - destruct (Mod.from_dict x); [|done].
    specialize (IH Hin Hv). by destruct (Instance.mods_from l).
Qed.

(** X4. [Instance.from_dict]: a document without [name] raises
    [KeyError]; only [name], [mods] and [created] are read; without
    [mods] and [created] the instance has no mods and the empty
    timestamp; and one entry of [mods] that is no [Mod] fails the whole
    instance. *)
Theorem Instance_from_dict_edges (d : list (string * pyval)) :
  (dict_get "name" d = None → Instance.from_dict (PDict d) = Raise KeyError) ∧
  (∀ d', dict_get "name" d' = dict_get "name" d →
         dict_get "mods" d' = dict_get "mods" d →
         dict_get "created" d' = dict_get "created" d →
         Instance.from_dict (PDict d') = Instance.from_dict (PDict d)) ∧
  (∀ n, dict_get "name" d = Some (PStr n) → dict_get "mods" d = None →
        dict_get "created" d = None →
        Instance.from_dict (PDict d) = Ok (Built (Instance.Instance n [] ""))) ∧
  (∀ l v, dict_get "mods" d = Some (PList l) → v ∈ l →
          is_ok (Mod.from_dict v) = false →
          is_ok (Instance.from_dict (PDict d)) = false).
Proof.
  unfold Instance.from_dict. split_and!.
  - by intros ->.
  - by intros d' -> -> ->.
  - by intros n -> -> ->.
  - intros l v -> Hin Hv. destruct (dict_get "name" d); [|done].
    change (default (PList []) (Some (PList l))) with (PList l).
    cbn [Instance.iterate].
    pose proof (mods_from_raises _ _ Hin Hv). by destruct (Instance.mods_from l).
Qed.

Lemma Mod_from_dict_accepts_witness :
  Mod.from_dict (PList []) = Raise TypeError.
Proof.
  apply (proj1 (proj2 (Mod_from_dict_accepts (PList [])))). reflexivity.
Defined.

Lemma Instance_from_dict_edges_witness :
  is_ok (Instance.from_dict (PDict Fixture.torn_document)) = false.
Proof.
  apply (proj2 (proj2 (proj2 (Instance_from_dict_edges Fixture.torn_document)))
           [PDict [("name", PStr "half")]] (PDict [("name", PStr "half")])).
  - reflexivity.
  - apply list_elem_of_here.
  - reflexivity.
Defined.

End entity_errors.

(** ** Saving, listing and deleting instances *)

Section store_more.
Import FS Invariant.
Implicit Types (s : fs) (p q d : path) (dm : DataManager.t) (i : Instance.t).

(** Replacing the content of a regular file changes no lookup of a
    kind. *)
Lemma follow_insert_file n s p q a b c e :
  s !! q = Some (File a b) →
  follow n (<[q := File c e]> s) p = follow n s p.
Proof.
  intros Hq. revert p. induction n as [|n IH]; intros p; cbn.
  - destruct (decide (p = q)) as [->|Hne].
    + by rewrite lookup_insert_eq, Hq.
    + by rewrite lookup_insert_ne.
  - destruct (decide (p = q)) as [->|Hne].
    + by rewrite lookup_insert_eq, Hq.
    + rewrite lookup_insert_ne by done. by destruct (s !! p) as [[]|].
Qed.

Lemma stat_insert_file s p q a b c e :
  s !! q = Some (File a b) →
  stat (<[q := File c e]> s) p
  = if decide (follow MAXSYMLINKS s p = Some q) then Some (File c e) else stat s p.
Proof.
  intros Hq. unfold stat. rewrite (follow_insert_file _ _ _ _ _ _ _ _ Hq).
  destruct (follow MAXSYMLINKS s p) as [r|] eqn:Hf; [|by rewrite decide_False].
  rewrite !option_bind_Some_l. destruct (decide (r = q)) as [->|Hne].
  - by rewrite decide_True, lookup_insert_eq.
  - rewrite decide_False by congruence. by rewrite lookup_insert_ne.
Qed.

Lemma stat_follow s p q : follow MAXSYMLINKS s p = Some q → stat s p = s !! q.
Proof. intros H. unfold stat. by rewrite H. Qed.

(** Writing a file where there is none, or over a regular file, keeps
    what is a directory and what exists. *)
Lemma is_dir_insert_file s p q c e :
  s !! q = None ∨ (∃ a b, s !! q = Some (File a b)) →
  is_dir s p = true → is_dir (<[q := File c e]> s) p = true.
Proof.
  intros [Hq|(a & b & Hq)]; unfold is_dir.
  - destruct (stat s p) as [x|] eqn:E; [|done].
    by rewrite (stat_weaken s _ p x (insert_subseteq _ _ _ Hq) E).
  - rewrite (stat_insert_file _ _ _ _ _ _ _ Hq).
    destruct (decide _) as [Hf|]; [|done]. by rewrite (stat_follow _ _ _ Hf), Hq.
Qed.

Lemma exists_insert_file s p q c e :
  s !! q = None ∨ (∃ a b, s !! q = Some (File a b)) →
  exists_ s p = true → exists_ (<[q := File c e]> s) p = true.
Proof.
  intros [Hq|(a & b & Hq)].
  - apply exists_weaken. by apply insert_subseteq.
  - unfold exists_. rewrite (stat_insert_file _ _ _ _ _ _ _ Hq).
    by destruct (decide _).
Qed.

Lemma write_json_keeps len p v s s' :
  DataManager.write_json len p v s = Ok s' →
  (∀ x, is_dir s x = true → is_dir s' x = true) ∧
  (∀ x, exists_ s x = true → exists_ s' x = true).
Proof.
  unfold DataManager.write_json.
  destruct (follow MAXSYMLINKS s p) as [q|] eqn:Hf; [|done].
  pose proof (follow_end _ _ _ _ Hf) as Hend.
  assert (s !! q = None ∨ (∃ a b, s !! q = Some (File a b)) →
          ∀ s0, Ok (<[q := File (len v) (Some v)]> s) = Ok s0 →
          (∀ x, is_dir s x = true → is_dir s0 x = true) ∧
          (∀ x, exists_ s x = true → exists_ s0 x = true)) as Hw.
  { intros Hq s0 [= <-]. split; intros x.
    - by apply is_dir_insert_file.
    - by apply exists_insert_file. }
  destruct (s !! q) as [[|a b|t]|] eqn:Hq; try done.
  - apply Hw. right. eauto.
  - by destruct (Hend t).
  - destruct (check_parent s q); [done|]. apply Hw. by left.
Qed.

Lemma mkdir_exist_ok_grows p s s' :
  mkdir_exist_ok p s = Ok s' → s ⊆ s' ∧ is_dir s' p = true.
Proof.
  unfold mkdir_exist_ok, mkdir.
  destruct (s !! p) as [x|] eqn:Hp.
  - destruct (is_dir s p) eqn:Hd; [|done]. by intros [= <-].
  - assert (is_dir s p = false) as Hnd
      by (unfold is_dir; by rewrite (stat_None_absent _ _ Hp)).
    destruct (check_parent s p) as [[]|]; try done; try by rewrite Hnd.
    intros [= <-]. split; [by apply insert_subseteq|].
    unfold is_dir. by rewrite (stat_Dir _ p) by apply lookup_insert_eq.
Qed.

Lemma is_dir_weaken s s' p : s ⊆ s' → is_dir s p = true → is_dir s' p = true.
Proof.
  intros Hsub. unfold is_dir. destruct (stat s p) as [x|] eqn:E; [|done].
  by rewrite (stat_weaken _ _ _ _ Hsub E).
Qed.

Lemma list_instances_elem dm s (l : list string) (n : string) :
  is_dir s (DataManager.instances_dir dm) = true →
  DataManager.list_instances dm s = Ok l →
  (n ∈ l ↔ is_dir s (DataManager.instances_dir dm </> n) = true ∧
           exists_ s (DataManager.instances_dir dm </> n </> "instance.json") = true).
Proof.
  intros Hd. rewrite (list_instances_dir _ _ Hd). intros [= <-].
  set (d := DataManager.instances_dir dm).
  rewrite sorted_elem_of, list_elem_of_fmap. split.
  - intros (item & -> & [[H1 H2] [_ Hitem]%elem_of_children]%list_elem_of_filter).
    by rewrite <- Hitem.
  - intros [H1 H2]. exists (d </> n). rewrite name_snoc. split; [done|].
    apply list_elem_of_filter. split; [done|].
    apply elem_of_children. rewrite name_snoc. split; [|done].
    by apply is_dir_present.
Qed.

Lemma list_instances_returns dm s :
  is_dir s (DataManager.instances_dir dm) = true →
  ∃ l, DataManager.list_instances dm s = Ok l.
Proof. intros Hd. rewrite (list_instances_dir _ _ Hd). eauto. Qed.

(** X5. For an instance whose name is a single component of a path (not
    empty, no slash, neither of the two dot names, so that the directory
    of the instance is the one entry of that name in the directory of the
    instances): after [save_instance] the instance is among the names
    [list_instances] returns, the names listed before are still listed,
    and [load_instance] of its name returns the instance that was
    saved. *)
Theorem saved_instance_is_listed len dm i s s' :
  Notions.component (Instance.name i) → Instance.name i ≠ ".." →
  is_dir s (DataManager.instances_dir dm) = true →
  DataManager.save_instance len dm i s = Ok s' →
  ∃ l, DataManager.list_instances dm s' = Ok l ∧
       Instance.name i ∈ l ∧
       (∀ l0 n, DataManager.list_instances dm s = Ok l0 → n ∈ l0 → n ∈ l) ∧
       DataManager.load_instance dm (Instance.name i) s' = (Some (Built i), []).
Proof.
  intros _ _ Hd Hsave. pose proof (load_instance_saved _ _ _ _ _ Hsave) as Hload.
  unfold DataManager.save_instance in Hsave.
  destruct (mkdir_exist_ok _ s) as [s1|] eqn:Hmk; [|done].
  rewrite result_bind_Ok in Hsave.
  destruct (mkdir_exist_ok_grows _ _ _ Hmk) as [Hsub Hdir1].
  destruct (write_json_keeps _ _ _ _ _ Hsave) as [Hkd Hke].
  assert (∀ x, is_dir s x = true → is_dir s' x = true) as Hd'
    by (intros x Hx; by apply Hkd, (is_dir_weaken s)).
  assert (∀ x, exists_ s x = true → exists_ s' x = true) as He'
    by (intros x Hx; by apply Hke, (exists_weaken s)).
  destruct (list_instances_returns dm s' (Hd' _ Hd)) as [l Hl].
  exists l. split_and!; [done| | |done].
  - apply (list_instances_elem dm s' l _ (Hd' _ Hd) Hl). split; [by apply Hkd|].
    apply (exists_of_stat _ _ _ (write_json_stat _ _ _ _ _ Hsave)).
  - intros l0 n Hl0 [H1 H2]%(list_instances_elem dm s l0 n Hd Hl0).
    apply (list_instances_elem dm s' l _ (Hd' _ Hd) Hl). auto.
Qed.

(** X6. [delete_instance] of a name without a directory changes nothing.
    Of an instance directory it removes the directory and all that is
    below it and nothing else; afterwards the instance does not load and
    is not listed. *)
Theorem delete_instance_forgets dm (n : string) s :
  (exists_ s (DataManager.instances_dir dm </> n) = false →
   DataManager.delete_instance dm n s = Ok s) ∧
  (s !! (DataManager.instances_dir dm </> n) = Some Dir →
   ∃ s', DataManager.delete_instance dm n s = Ok s' ∧
         (∀ p, s' !! p = if decide (DataManager.instances_dir dm </> n `prefix_of` p)
                         then None else s !! p) ∧
         DataManager.load_instance dm n s' = (None, []) ∧
         (∀ l, DataManager.list_instances dm s' = Ok l → n ∉ l)).
Proof.
  unfold DataManager.delete_instance. split.
  - by intros ->.
  - intros Hd. set (d := DataManager.instances_dir dm </> n) in *.
    rewrite (exists_of_stat _ _ _ (stat_Dir _ _ Hd)).
    destruct (rmtree d s) as [s'|e] eqn:E; [|unfold rmtree in E; by rewrite Hd in E].
    exists s'. split; [done|].
    assert (∀ p, s' !! p = if decide (d `prefix_of` p) then None else s !! p) as Hlook.
    { intros p. destruct (decide _).
      - by apply (rmtree_removes d s).
      - by apply (rmtree_keeps d s). }
    split_and!; [done| |].
    + unfold DataManager.load_instance. fold d.
      assert (exists_ s' (d </> "instance.json") = false) as ->; [|done].
      unfold exists_. rewrite stat_None_absent; [done|].
      rewrite Hlook, decide_True; [done|]. by exists ["instance.json"].
    + intros l Hl Hin.
      destruct (exists_ s' (DataManager.instances_dir dm)) eqn:Hex.
      2: { unfold DataManager.list_instances in Hl. rewrite Hex in Hl.
           injection Hl as <-. by apply elem_of_nil in Hin. }
      unfold DataManager.list_instances, iterdir in Hl. rewrite Hex in Hl. cbn [negb] in Hl.
      destruct (stat s' (DataManager.instances_dir dm)) as [[]|] eqn:Hst; try done.
      rewrite result_bind_Ok in Hl. injection Hl as <-.
      apply sorted_elem_of, list_elem_of_fmap in Hin as (item & Hn & Hitem).
      apply list_elem_of_filter in Hitem as [[H1 _] [_ Hitem]%elem_of_children].
      rewrite Hitem, <- Hn in H1. fold d in H1.
      apply is_dir_present in H1 as [x Hx].
      rewrite Hlook, decide_True in Hx; done.
Qed.

Lemma saved_instance_is_listed_witness :
  ∃ l, DataManager.list_instances Sample.dm
         (Sample.store_of (DataManager.save_instance (fun _ => 64%Z) Sample.dm
                             Fixture.sole_profile Sample.instances_store)) = Ok l ∧
       Instance.name Fixture.sole_profile ∈ l ∧
       (∀ l0 n, DataManager.list_instances Sample.dm Sample.instances_store = Ok l0 →
                n ∈ l0 → n ∈ l) ∧
       DataManager.load_instance Sample.dm (Instance.name Fixture.sole_profile)
         (Sample.store_of (DataManager.save_instance (fun _ => 64%Z) Sample.dm
                             Fixture.sole_profile Sample.instances_store))
       = (Some (Built Fixture.sole_profile), []).
Proof.
  apply (saved_instance_is_listed (fun _ => 64%Z) Sample.dm Fixture.sole_profile
           Sample.instances_store).
  - by_compute.
  - discriminate.
  - vm_compute. reflexivity.
  - apply Ok_store_of. vm_compute. reflexivity.
Defined.

Lemma delete_instance_forgets_witness :
  ∃ s', DataManager.delete_instance Sample.dm "tactical" Sample.instances_store = Ok s' ∧
        (∀ p, s' !! p
              = if decide (DataManager.instances_dir Sample.dm </> "tactical" `prefix_of` p)
                then None else Sample.instances_store !! p) ∧
        DataManager.load_instance Sample.dm "tactical" s' = (None, []) ∧
        (∀ l, DataManager.list_instances Sample.dm s' = Ok l → "tactical" ∉ l).
Proof.
  apply (proj2 (delete_instance_forgets Sample.dm "tactical" Sample.instances_store)).
  vm_compute. reflexivity.
Defined.

End store_more.

(** ** Loading instances and importing packages: further properties *)

Section import_more.
Import FS Invariant.
Implicit Types (s : fs) (p q d pak_file : path) (dm : DataManager.t).

(** X7. [load_instance] returns an instance exactly when the document of
    the name is JSON that [Instance.from_dict] accepts, and then that
    instance; without a document it returns [None] and prints nothing;
    with a document it cannot load it returns [None] after printing one
    line that names the instance and the error. *)
Theorem load_instance_outcomes dm (n : string) s :
  let instance_file := DataManager.instances_dir dm </> n </> "instance.json" in
  (∀ i, (DataManager.load_instance dm n s).1 = Some i ↔
        ∃ sz v, stat s instance_file = Some (File sz (Some v)) ∧
                Instance.from_dict v = Ok i) ∧
  (exists_ s instance_file = false → DataManager.load_instance dm n s = (None, [])) ∧
  (exists_ s instance_file = true → (DataManager.load_instance dm n s).1 = None →
   ∃ e, (DataManager.load_instance dm n s).2
        = ["Error loading instance " +:+ n +:+ ": " +:+ str_exn e]).
Proof.
  intros instance_file. unfold DataManager.load_instance. fold instance_file.
  unfold exists_, json_load.
  destruct (stat s instance_file) as [[|sz [v|]|t]|] eqn:Hst; cbn [negb].
  1,3,4,5: split_and!;
    [intros i; split; [done|by intros (? & ? & [=] & _)]
    |done
    |try done; intros _ _; eexists; reflexivity].
  rewrite result_bind_Ok. destruct (Instance.from_dict v) as [i0|e] eqn:Hfd.
  - split_and!; [|done|done]. intros i. split.
    + intros [= <-]. eauto.
    + intros (? & ? & [= <- <-] & Hi). rewrite Hfd in Hi. by injection Hi as <-.
  - split_and!; [|done|eauto]. intros i. split; [done|].
    intros (? & ? & [= <- <-] & Hi). by rewrite Hfd in Hi.
Qed.

(** [import_mod] on a package file that is new to the library. *)
Lemma import_mod_fresh dm pak_file s (sz : Z) (doc : option pyval) :
  stat s pak_file = Some (File sz doc) →
  Str.lower (suffix pak_file) = ".pak" →
  s !! (DataManager.mods_dir dm </> name pak_file) = None →
  is_dir s (DataManager.mods_dir dm) = true →
  DataManager.import_mod dm pak_file s
  = (Ok (Some (Mod.Mod (stem pak_file) (name pak_file)
                       (str (DataManager.mods_dir dm </> name pak_file)) sz true)),
     <[DataManager.mods_dir dm </> name pak_file := File sz doc]> s).
Proof.
  intros Hpak Hsfx Hdest Hdir. unfold DataManager.import_mod.
  set (dest := DataManager.mods_dir dm </> name pak_file) in *.
  rewrite (exists_of_stat _ _ _ Hpak), Hsfx. cbn [negb String.eqb orb].
  assert (exists_ s dest = false) as ->
    by (unfold exists_; by rewrite (stat_None_absent _ _ Hdest)).
  unfold copy2. rewrite Hpak.
  assert (follow MAXSYMLINKS s dest = Some dest) as ->
    by (unfold MAXSYMLINKS; cbn; by rewrite Hdest).
  rewrite Hdest.
  assert (check_parent s dest = None) as ->.
  { unfold check_parent, dest. rewrite split_last_snoc.
    unfold is_dir in Hdir. destruct (stat s (DataManager.mods_dir dm)) as [[]|]; try done.
    by destruct (DataManager.mods_dir dm). }
  unfold st_size.
  assert (stat (<[dest := File sz doc]> s) dest = Some (File sz doc)) as ->; [|done].
  unfold stat, MAXSYMLINKS. cbn. by rewrite lookup_insert_eq, option_bind_Some_l, lookup_insert_eq.
Qed.

(** X8. [import_mod] of a regular file with the suffix [.pak] in any
    case, whose name the library does not have, copies the file into the
    library under its name and returns the enabled mod of that copy: its
    name is the stem, its path the path of the copy, its size the size of
    the file. *)
Theorem import_mod_imports dm pak_file s (sz : Z) (doc : option pyval) :
  stat s pak_file = Some (File sz doc) →
  Str.lower (suffix pak_file) = ".pak" →
  s !! (DataManager.mods_dir dm </> name pak_file) = None →
  is_dir s (DataManager.mods_dir dm) = true →
  DataManager.import_mod dm pak_file s
  = (Ok (Some (Mod.Mod (stem pak_file) (name pak_file)
                       (str (DataManager.mods_dir dm </> name pak_file)) sz true)),
     <[DataManager.mods_dir dm </> name pak_file := File sz doc]> s).
Proof. apply import_mod_fresh. Qed.

Lemma import_mod_grows dm pak_file s : s ⊆ (DataManager.import_mod dm pak_file s).2.
Proof.
  destruct (DataManager.import_mod dm pak_file s) as [[o|e] s'] eqn:E.
  - by destruct (import_mod_returns _ _ _ _ _ E).
  - revert E. unfold DataManager.import_mod.
    destruct (negb _ || negb _); [done|].
    destruct (exists_ s _) eqn:Hdest; [done|].
    destruct (copy2 _ _ s) as [s1|e1] eqn:Hc; [|by intros [= _ <-]].
    destruct (st_size s1 _); [done|]. intros [= _ <-]. cbn [snd].
    revert Hc. unfold copy2.
    destruct (stat s pak_file) as [[|sz doc|]|]; try done.
    destruct (follow MAXSYMLINKS s _) as [q|] eqn:Hf; [|done].
    assert (s !! q = None) as Hq.
    { unfold exists_ in Hdest. rewrite (stat_follow _ _ _ Hf) in Hdest.
      by destruct (s !! q). }
    rewrite Hq. destruct (check_parent s q); [done|].
    intros [= <-]. by apply insert_subseteq.
Qed.

Lemma import_all_grows dm (paks : list path) s :
  s ⊆ (DataManager.import_all dm paks s).2.
Proof.
  revert s. induction paks as [|pak_file rest IH]; intros s; [done|].
  cbn [DataManager.import_all].
  pose proof (import_mod_grows dm pak_file s) as H1.
  destruct (DataManager.import_mod dm pak_file s) as [[o|e] s1]; [|done].
  cbn [snd] in H1. pose proof (IH s1) as H2.
  destruct (DataManager.import_all dm rest s1) as [[l|e] s2]; cbn [snd] in *; by etrans.
Qed.

(** X9. The errors of [import_archive].  A missing archive and a suffix
    that is none of the three formats are reported before anything is
    extracted: whatever an extraction would give, the result is no mods
    and the message of the case, with the store as it was.  A failed
    extraction is reported with the text of its exception and an
    extraction without packages with its own message.  Whenever an error
    is reported no mods are returned. *)
Theorem import_archive_reports_errors dm archive_path s :
  (exists_ s archive_path = false →
   ∀ extracted,
     DataManager.import_archive dm archive_path extracted s
     = (([], Some "Archive file not found"), s)) ∧
  (exists_ s archive_path = true →
   Str.lower (suffix archive_path) ∉ [".zip"; ".7z"; ".rar"] →
   ∀ extracted,
     DataManager.import_archive dm archive_path extracted s
     = (([], Some ("Unsupported archive format: " +:+ Str.lower (suffix archive_path))),
        s)) ∧
  (exists_ s archive_path = true →
   Str.lower (suffix archive_path) ∈ [".zip"; ".7z"; ".rar"] →
   (∀ e, (DataManager.import_archive dm archive_path (Raise e) s).1
         = ([], Some (str_exn e))) ∧
   (DataManager.import_archive dm archive_path (Ok []) s).1
   = ([], Some "No .pak files found in archive")) ∧
  (∀ extracted,
     (DataManager.import_archive dm archive_path extracted s).1.2 ≠ None →
     (DataManager.import_archive dm archive_path extracted s).1.1 = []).
Proof.
  unfold DataManager.import_archive. split_and!.
  - by intros ->.
  - intros -> Hfmt extracted. cbn [negb]. by rewrite bool_decide_eq_false_2.
  - intros -> Hfmt. cbn [negb]. rewrite bool_decide_eq_true_2 by done. cbn [negb].
    done.
  - intros extracted. destruct (exists_ s archive_path); [|done]. cbn [negb].
    destruct (bool_decide _); [|done]. cbn [negb].
    destruct extracted as [[|p l]|e]; try done.
    by destruct (DataManager.import_all dm (p :: l) s) as [[?|?] ?].
Qed.

(** The mods [import_all] returns. *)
Lemma import_all_mods dm (paks : list path) s l s' :
  DataManager.import_all dm paks s = (Ok l, s') →
  NoDup (Mod.filename <$> l) ∧
  Forall (fun m => exists_ s (DataManager.mods_dir dm </> Mod.filename m) = false ∧
                   exists_ s' (DataManager.mods_dir dm </> Mod.filename m) = true ∧
                   Mod.path m = str (DataManager.mods_dir dm </> Mod.filename m) ∧
                   Mod.enabled m = true ∧
                   ∃ p, p ∈ paks ∧ Mod.filename m = name p ∧ Mod.name m = stem p) l.
Proof.
  revert s l. induction paks as [|pak_file rest IH]; intros s l.
  - cbn. intros [= <- <-]. split; constructor.
  - cbn [DataManager.import_all].
    destruct (DataManager.import_mod dm pak_file s) as [[o|e] s1] eqn:E1; [|done].
    destruct (DataManager.import_all dm rest s1) as [[l'|e] s2] eqn:E2; [|done].
    intros [= <- <-].
    destruct (IH _ _ E2) as [Hnd Hall].
    destruct (import_mod_returns _ _ _ _ _ E1) as [Hsub1 _].
    pose proof (import_all_grows dm rest s1) as Hsub2. rewrite E2 in Hsub2. cbn in Hsub2.
    assert (Forall (fun m =>
              exists_ s (DataManager.mods_dir dm </> Mod.filename m) = false ∧
              exists_ s2 (DataManager.mods_dir dm </> Mod.filename m) = true ∧
              Mod.path m = str (DataManager.mods_dir dm </> Mod.filename m) ∧
              Mod.enabled m = true ∧
              ∃ p, p ∈ pak_file :: rest ∧ Mod.filename m = name p ∧ Mod.name m = stem p) l')
      as Hall'.
    { eapply Forall_impl; [exact Hall|]. intros m (H1 & H2 & H3 & H4 & p & Hp & H5).
      split_and!; try done; [by apply (exists_weaken_false s s1)|].
      exists p. split; [by apply list_elem_of_further|done]. }
    destruct o as [m|]; [|done].
    (* the head was imported *)
    revert E1. unfold DataManager.import_mod.
    destruct (negb _ || negb _); [done|].
    destruct (exists_ s (DataManager.mods_dir dm </> name pak_file)) eqn:Hdest; [done|].
    destruct (copy2 _ _ s) as [s1'|] eqn:Hc; [|done].
    destruct (st_size s1' _) as [sz|] eqn:Hsz; [|done].
    intros [= <- <-]. simpl (option_list _ ++ _)%list.
    cbn [Mod.filename Mod.path Mod.enabled Mod.name].
    assert (exists_ s1' (DataManager.mods_dir dm </> name pak_file) = true) as Hnow.
    { unfold exists_. unfold st_size in Hsz. by destruct (stat s1' _). }
    split.
    + rewrite fmap_cons. apply NoDup_cons. split; [|done].
      intros (m' & Heq & Hm')%list_elem_of_fmap. cbn in Heq.
      rewrite Forall_forall in Hall. destruct (Hall m' Hm') as (Hno & _).
      rewrite <- Heq in Hno. congruence.
    + constructor; [|done]. split_and!; try done.
      * by apply (exists_weaken s1' s2).
      * exists pak_file. split; [apply list_elem_of_here|done].
Qed.

(** X10. When [import_archive] reports no error, the mods it returns have
    distinct filenames; each was not in the library before and is there
    afterwards, is enabled, has the path of its library copy, and takes
    its name and filename from one of the extracted packages. *)
Theorem import_archive_mods_distinct dm archive_path (extracted : result (list path)) s :
  (DataManager.import_archive dm archive_path extracted s).1.2 = None →
  ∃ paks, extracted = Ok paks ∧
    NoDup (Mod.filename <$> (DataManager.import_archive dm archive_path extracted s).1.1) ∧
    Forall (fun m =>
      exists_ s (DataManager.mods_dir dm </> Mod.filename m) = false ∧
      exists_ (DataManager.import_archive dm archive_path extracted s).2
              (DataManager.mods_dir dm </> Mod.filename m) = true ∧
      Mod.path m = str (DataManager.mods_dir dm </> Mod.filename m) ∧
      Mod.enabled m = true ∧
      ∃ p, p ∈ paks ∧ Mod.filename m = name p ∧ Mod.name m = stem p)
      (DataManager.import_archive dm archive_path extracted s).1.1.
Proof.
  unfold DataManager.import_archive.
  destruct (exists_ s archive_path); [|done]. cbn [negb].
  destruct (bool_decide _); [|done]. cbn [negb].
  destruct extracted as [[|p paks]|e]; try done.
  destruct (DataManager.import_all dm (p :: paks) s) as [[l|e] s'] eqn:E; [|done].
  intros _. exists (p :: paks). split; [done|]. cbn [fst snd].
  exact (import_all_mods _ _ _ _ _ E).
Qed.

Lemma load_instance_outcomes_witness :
  DataManager.load_instance Sample.dm "ghost" Sample.instances_store = (None, []).
Proof.
  apply (proj1 (proj2 (load_instance_outcomes Sample.dm "ghost" Sample.instances_store))).
  vm_compute. reflexivity.
Defined.

Lemma import_mod_imports_witness :
  DataManager.import_mod Sample.dm (Sample.scratch "x1" </> "a.pak") Sample.archive_store
  = (Ok (Some (Mod.Mod (stem (Sample.scratch "x1" </> "a.pak"))
                       (name (Sample.scratch "x1" </> "a.pak"))
                       (str (DataManager.mods_dir Sample.dm
                             </> name (Sample.scratch "x1" </> "a.pak")))
                       10 true)),
     <[DataManager.mods_dir Sample.dm </> name (Sample.scratch "x1" </> "a.pak")
       := File 10 None]> Sample.archive_store).
Proof.
  apply (import_mod_imports Sample.dm (Sample.scratch "x1" </> "a.pak")
           Sample.archive_store 10 None).
  - vm_compute. reflexivity.
  - vm_compute. reflexivity.
  - vm_compute. reflexivity.
  - vm_compute. reflexivity.
Defined.

Lemma import_archive_reports_errors_witness :
  DataManager.import_archive Sample.dm Fixture.tarball (Ok Sample.extracted_once)
                             Fixture.tarball_store
  = (([], Some ("Unsupported archive format: " +:+ Str.lower (suffix Fixture.tarball))),
     Fixture.tarball_store).
Proof.
  apply (proj1 (proj2 (import_archive_reports_errors Sample.dm Fixture.tarball
                         Fixture.tarball_store))).
  - vm_compute. reflexivity.
  - by_compute.
Defined.

Lemma import_archive_mods_distinct_witness :
  ∃ paks, Ok Sample.extracted_once = Ok paks ∧
    NoDup (Mod.filename <$>
           (DataManager.import_archive Sample.dm Sample.archive
              (Ok Sample.extracted_once) Sample.archive_store).1.1) ∧
    Forall (fun m =>
      exists_ Sample.archive_store (DataManager.mods_dir Sample.dm </> Mod.filename m)
      = false ∧
      exists_ (DataManager.import_archive Sample.dm Sample.archive
                 (Ok Sample.extracted_once) Sample.archive_store).2
              (DataManager.mods_dir Sample.dm </> Mod.filename m) = true ∧
      Mod.path m = str (DataManager.mods_dir Sample.dm </> Mod.filename m) ∧
      Mod.enabled m = true ∧
      ∃ p, p ∈ paks ∧ Mod.filename m = name p ∧ Mod.name m = stem p)
      (DataManager.import_archive Sample.dm Sample.archive
         (Ok Sample.extracted_once) Sample.archive_store).1.1.
Proof.
  apply (import_archive_mods_distinct Sample.dm Sample.archive
           (Ok Sample.extracted_once) Sample.archive_store).
  vm_compute. reflexivity.
Defined.

End import_more.

(** ** Resolving the game directory: outcome and record agree *)

Section resolver_more.
Import FS ModManager Invariant.
Implicit Types (s : fs) (w : world) (r steamapps : path) (self : ModManager.t).

Lemma mkdir_from_grows (walked : path) (todo : list string) s :
  s ⊆ (mkdir_from walked todo s).2.
Proof.
  revert walked s. induction todo as [|c todo IH]; intros walked s; [done|].
  cbn [mkdir_from]. destruct (mkdir_exist_ok (walked </> c) s) as [s1|e] eqn:E; [|done].
  destruct (mkdir_exist_ok_grows _ _ _ E) as [Hsub _]. etrans; [exact Hsub|apply IH].
Qed.

Lemma mkdir_from_dir (walked : path) (todo : list string) s s' :
  todo ≠ [] → mkdir_from walked todo s = (None, s') →
  is_dir s' (walked ++ todo)%list = true.
Proof.
  revert walked s. induction todo as [|c todo IH]; intros walked s Hne; [done|].
  cbn [mkdir_from]. destruct (mkdir_exist_ok (walked </> c) s) as [s1|e] eqn:E; [|done].
  destruct (mkdir_exist_ok_grows _ _ _ E) as [_ Hdir].
  destruct todo as [|c' todo].
  - cbn. by intros [= <-].
  - intros Hrun. apply IH in Hrun; [|done].
    unfold joinpath in Hrun. by rewrite <- app_assoc in Hrun.
Qed.

(** Every diagnosis is a non-empty text. *)
Lemma diagnoses_truthy (e : exn) :
  Str.truthy GameFilesMissing = true ∧ Str.truthy PrefixMissing = true ∧
  Str.truthy PrefixIncomplete = true ∧ Str.truthy (DirectoryCreateFailed e) = true.
Proof. done. Qed.

(** What the validation of one library returns and leaves. *)
Lemma validate_outcome steamapps w :
  let '((p, e), w') := _validate_and_create_mod_directory steamapps w in
  files w ⊆ files w' ∧
  match p, e with
  | Some x, None => x = mods_path steamapps ∧ exists_ (files w') x = true
  | None, Some msg =>
      Str.truthy msg = true ∧ exists_ (files w) (manifest steamapps) = true
  | None, None => exists_ (files w) (manifest steamapps) = false ∧ files w' = files w
  | Some _, Some _ => False
  end.
Proof.
  unfold _validate_and_create_mod_directory, io_bind, probe, io_ret.
  destruct (exists_ (files w) (manifest steamapps)) eqn:H1;
    cbn [negb files]; cbv beta iota; cbn [files]; [|done].
  destruct (exists_ (files w) (game_dir steamapps)) eqn:H2;
    cbn [negb files]; cbv beta iota; cbn [files];
    [|split_and!; (done || reflexivity)].
  destruct (exists_ (files w) (compatdata_pfx steamapps)) eqn:H3;
    cbn [negb files]; cbv beta iota; cbn [files];
    [|split_and!; (done || reflexivity)].
  destruct (exists_ (files w) (mods_path steamapps)) eqn:H4;
    cbn [negb files]; cbv beta iota; cbn [files]; [done|].
  destruct (exists_ (files w) (appdata_local steamapps)) eqn:H5;
    cbn [negb files]; cbv beta iota; cbn [files];
    [|split_and!; (done || reflexivity)].
  unfold make_dirs, mkdir_parents. cbn [files probes stdout].
  pose proof (mkdir_from_grows [] (mods_path steamapps) (files w)) as Hsub.
  destruct (mkdir_from [] (mods_path steamapps) (files w)) as [[e|] s'] eqn:Hmk;
    cbn [snd] in Hsub; cbv beta iota; unfold print; cbn [files].
  - split_and!; (done || reflexivity).
  - split; [done|]. split; [done|].
    apply mkdir_from_dir in Hmk.
    2: { unfold mods_path, joinpath. intros Hnil. by apply app_nil in Hnil as [_ ?]. }
    cbn [app] in Hmk.
    unfold exists_. unfold is_dir in Hmk. by destruct (stat s' _).
Qed.

Lemma check_libraries_outcome (libraries : list path) w :
  let '(v, w') := check_libraries libraries w in
  files w ⊆ files w' ∧
  match v with
  | Found p => exists_ (files w') p = true ∧ ∃ r, r ∈ libraries ∧ p = mods_path r
  | Fatal msg => msg ≠ ""
  | KeepSearching =>
      files w' = files w ∧
      Forall (fun r => exists_ (files w) (manifest r) = false) libraries
  end.
Proof.
  revert w. induction libraries as [|r rest IH]; intros w.
  - cbn. split; [done|]. split; [done|constructor].
  - cbn [check_libraries]. unfold io_bind.
    pose proof (validate_outcome r w) as Hv.
    destruct (_validate_and_create_mod_directory r w) as [[[p|] [msg|]] w1];
      destruct Hv as [Hsub Hv]; try done.
    + destruct Hv as [-> Hex]. split; [done|]. split; [done|].
      exists r. split; [apply list_elem_of_here|done].
    + destruct Hv as [Ht _]. rewrite Ht. split; [done|]. by destruct msg.
    + destruct Hv as [Hno Heq]. specialize (IH w1).
      destruct (check_libraries rest w1) as [v w2]. destruct IH as [Hsub2 IH].
      split; [by etrans|]. destruct v as [p|msg|].
      * destruct IH as [Hex (r' & Hr' & ->)]. split; [done|].
        exists r'. split; [by apply list_elem_of_further|done].
      * done.
      * destruct IH as [Hf Hall]. rewrite Heq in Hf, Hall. split; [done|].
        by constructor.
Qed.

(** X11. [_detect_game_path] only adds to the store and keeps the data
    manager.  When it returns a path, that path is the mod directory of
    one of the libraries, it is recorded as the game mod directory with
    no error message, and the game path is valid afterwards.  When it
    returns [None], the recorded game mod directory is unchanged and a
    non-empty error message is recorded. *)
Theorem detect_game_path_outcome (libraries : list path) self w :
  let '((found, self'), w') := _detect_game_path libraries self w in
  files w ⊆ files w' ∧
  data_manager self' = data_manager self ∧
  match found with
  | Some p =>
      game_mods_dir self' = Some p ∧ error_message self' = None ∧
      is_game_path_valid self' (files w') = true ∧
      ∃ r, r ∈ libraries ∧ p = mods_path r
  | None =>
      game_mods_dir self' = game_mods_dir self ∧
      ∃ msg, error_message self' = Some msg ∧ msg ≠ ""
  end.
Proof.
  unfold _detect_game_path. destruct libraries as [|r rest].
  - cbn. split_and!; try done. by eexists.
  - unfold io_bind, io_ret.
    pose proof (check_libraries_outcome (r :: rest) w) as Hc.
    destruct (check_libraries (r :: rest) w) as [[p|msg|] w']; destruct Hc as [Hsub Hc].
    + destruct Hc as [Hex Hr]. split_and!; done.
    + split_and!; try done. eauto.
    + split_and!; try done. by eexists.
Qed.

End resolver_more.

(** ** Resolving the game directory: the order of the search *)

Section resolver_search.
Import FS ModManager Invariant.
Implicit Types (s : fs) (w : world) (r steamapps : path) (self : ModManager.t).

Lemma check_libraries_skips (pre rest : list path) w :
  Forall (fun q => exists_ (files w) (manifest q) = false) pre →
  check_libraries (pre ++ rest) w
  = check_libraries rest (World (files w) (probes w ++ (manifest <$> pre)) (stdout w)).
Proof.
  revert w. induction pre as [|q pre IH]; intros w Hpre.
  - cbn. rewrite app_nil_r. by destruct w.
  - apply Forall_cons in Hpre as [Hq Hpre].
    cbn [app check_libraries]. unfold io_bind.
    rewrite (validate_no_manifest _ _ Hq), IH by done.
    cbn [files probes stdout fmap list_fmap]. by rewrite <- app_assoc.
Qed.

(** A library that has the manifest ends the loop. *)
Lemma check_libraries_manifest r (post : list path) w :
  exists_ (files w) (manifest r) = true →
  check_libraries (r :: post) w = check_libraries [r] w.
Proof.
  intros Hm. cbn [check_libraries]. unfold io_bind.
  pose proof (validate_outcome r w) as Hv.
  destruct (_validate_and_create_mod_directory r w) as [[[p|] [msg|]] w1];
    destruct Hv as [_ Hv]; try done.
  - destruct Hv as [-> _]. done.
  - destruct Hv as [Hno _]. congruence.
Qed.

Lemma detect_game_path_searches (libraries : list path) self w :
  libraries ≠ [] →
  _detect_game_path libraries self w
  = (let '(v, w') := check_libraries libraries w in
     (match v with
      | Found p => (Some p, ModManager.ModManager (data_manager self) (Some p) None)
      | Fatal error =>
          (None, ModManager.ModManager (data_manager self) (game_mods_dir self)
                                       (Some error))
      | KeepSearching =>
          (None, ModManager.ModManager (data_manager self) (game_mods_dir self)
                   (Some (GameNotInstalled (length libraries))))
      end, w')).
Proof.
  intros Hne. unfold _detect_game_path, io_bind, io_ret.
  destruct libraries as [|r rest]; [done|].
  destruct (check_libraries (r :: rest) w) as [[] ?]; done.
Qed.

(** X12. The first library that has the manifest of the game decides the
    search: the libraries after it are not looked at, and the search does
    not end undecided. *)
Theorem first_manifest_decides (pre : list path) r (post : list path) self w :
  Forall (fun q => exists_ (files w) (manifest q) = false) pre →
  exists_ (files w) (manifest r) = true →
  _detect_game_path (pre ++ r :: post) self w = _detect_game_path (pre ++ [r]) self w ∧
  ∃ v w', check_libraries (pre ++ r :: post) w = (v, w') ∧ v ≠ KeepSearching.
Proof.
  intros Hpre Hr.
  assert (check_libraries (pre ++ r :: post) w = check_libraries (pre ++ [r]) w) as Heq.
  { rewrite !check_libraries_skips by done. by apply check_libraries_manifest. }
  assert (∃ v w', check_libraries (pre ++ [r]) w = (v, w') ∧ v ≠ KeepSearching)
    as (v & w' & Hrun & Hv).
  { pose proof (check_libraries_outcome (pre ++ [r]) w) as Hc.
    destruct (check_libraries (pre ++ [r]) w) as [v w']. exists v, w'. split; [done|].
    intros ->. destruct Hc as (_ & _ & Hall).
    apply Forall_app in Hall as [_ Hall]. apply Forall_cons in Hall as [Hno _].
    congruence. }
  split; [|exists v, w'; by rewrite Heq].
  rewrite !detect_game_path_searches by (by destruct pre).
  rewrite Heq, Hrun. by destruct v.
Qed.

(** X13. Without a library [_detect_game_path] records that Steam was not
    detected.  With libraries none of which has the manifest it probes
    the manifest of each in turn, changes nothing in the store, and
    records that the game is not installed, with the number of libraries
    checked. *)
Theorem detect_game_path_nothing_found (libraries : list path) self w :
  _detect_game_path [] self w
  = ((None, ModManager.ModManager (data_manager self) (game_mods_dir self)
                                  (Some SteamNotFound)), w) ∧
  (libraries ≠ [] →
   Forall (fun q => exists_ (files w) (manifest q) = false) libraries →
   _detect_game_path libraries self w
   = ((None, ModManager.ModManager (data_manager self) (game_mods_dir self)
                (Some (GameNotInstalled (length libraries)))),
      World (files w) (probes w ++ (manifest <$> libraries)) (stdout w))).
Proof.
  split; [done|]. intros Hne Hall. rewrite detect_game_path_searches by done.
  rewrite <- (app_nil_r libraries) at 1. by rewrite check_libraries_skips.
Qed.

(** X14. [_validate_and_create_mod_directory] makes no directory and
    prints nothing when the manifest, the game files, the prefix or
    [AppData/Local] is missing, or when the mod directory is there
    already. *)
Theorem validate_creates_only_when_ready steamapps w :
  exists_ (files w) (manifest steamapps) = false ∨
  exists_ (files w) (game_dir steamapps) = false ∨
  exists_ (files w) (compatdata_pfx steamapps) = false ∨
  exists_ (files w) (mods_path steamapps) = true ∨
  exists_ (files w) (appdata_local steamapps) = false →
  files (_validate_and_create_mod_directory steamapps w).2 = files w ∧
  stdout (_validate_and_create_mod_directory steamapps w).2 = stdout w.
Proof.
  unfold _validate_and_create_mod_directory, io_bind, probe, io_ret.
  destruct (exists_ (files w) (manifest steamapps)) eqn:H1;
    cbn [negb files]; cbv beta iota; cbn [files]; [|done].
  destruct (exists_ (files w) (game_dir steamapps)) eqn:H2;
    cbn [negb files]; cbv beta iota; cbn [files]; [|done].
  destruct (exists_ (files w) (compatdata_pfx steamapps)) eqn:H3;
    cbn [negb files]; cbv beta iota; cbn [files]; [|done].
  destruct (exists_ (files w) (mods_path steamapps)) eqn:H4;
    cbn [negb files]; cbv beta iota; cbn [files]; [done|].
  destruct (exists_ (files w) (appdata_local steamapps)) eqn:H5;
    cbn [negb files]; cbv beta iota; cbn [files]; [|done].
  intros [?|[?|[?|[?|?]]]]; done.
Qed.

Lemma first_manifest_decides_witness :
  _detect_game_path ([Sample.native] ++ Sample.ssd :: [Sample.games]) Sample.manager
                    (World Sample.steam_store [] [])
  = _detect_game_path ([Sample.native] ++ [Sample.ssd]) Sample.manager
                      (World Sample.steam_store [] []) ∧
  ∃ v w', check_libraries ([Sample.native] ++ Sample.ssd :: [Sample.games])
                          (World Sample.steam_store [] []) = (v, w') ∧
          v ≠ KeepSearching.
Proof.
  apply (first_manifest_decides [Sample.native] Sample.ssd [Sample.games] Sample.manager
           (World Sample.steam_store [] [])).
  - constructor; [|constructor]. vm_compute. reflexivity.
  - vm_compute. reflexivity.
Defined.

Lemma detect_game_path_nothing_found_witness :
  _detect_game_path [Sample.native] Sample.manager (World Sample.steam_store [] [])
  = ((None, ModManager.ModManager (data_manager Sample.manager)
              (game_mods_dir Sample.manager)
              (Some (GameNotInstalled (length [Sample.native])))),
     World (files (World Sample.steam_store [] []))
           (probes (World Sample.steam_store [] []) ++ (manifest <$> [Sample.native]))
           (stdout (World Sample.steam_store [] []))).
Proof.
  apply (proj2 (detect_game_path_nothing_found [Sample.native] Sample.manager
                  (World Sample.steam_store [] []))).
  - discriminate.
  - constructor; [|constructor]. vm_compute. reflexivity.
Defined.

Lemma validate_creates_only_when_ready_witness :
  files (_validate_and_create_mod_directory Sample.games
           (World Sample.steam_store [] [])).2
  = files (World Sample.steam_store [] []) ∧
  stdout (_validate_and_create_mod_directory Sample.games
            (World Sample.steam_store [] [])).2
  = stdout (World Sample.steam_store [] []).
Proof.
  apply (validate_creates_only_when_ready Sample.games (World Sample.steam_store [] [])).
  right. left. vm_compute. reflexivity.
Defined.

End resolver_search.

(** ** Resolving the game directory: making the mod directory *)

Section resolver_create.
Import FS ModManager Invariant Notions.
Implicit Types (s : fs) (w : world) (r steamapps q : path) (self : ModManager.t).



Lemma walk_longer (walked : path) (todo : list string) q :
  q ∈ walk walked todo → (length walked < length q)%nat ∧ q `prefix_of` (walked ++ todo)%list.
Proof.
  revert walked. induction todo as [|c todo IH]; intros walked; [by intros ?%elem_of_nil|].
  cbn [walk]. intros [->|Hq]%elem_of_cons.
  - unfold joinpath. rewrite length_app. cbn. split; [lia|].
    exists todo. by rewrite <- app_assoc.
  - apply IH in Hq as [Hlen Hpre]. unfold joinpath in *.
    rewrite length_app in Hlen. cbn in Hlen. split; [lia|].
    by rewrite <- app_assoc in Hpre.
Qed.

Lemma mkdir_from_succeeds (walked : path) (todo : list string) s :
  walked = [] ∨ is_dir s walked = true →
  forallb (free_or_dir s) (walk walked todo) = true →
  ∃ s', mkdir_from walked todo s = (None, s') ∧
        ∀ q, s' !! q = s !! q ∨
             (s !! q = None ∧ q ∈ walk walked todo ∧ s' !! q = Some Dir).
Proof.
  revert walked s. induction todo as [|c todo IH]; intros walked s Hw Hall.
  - exists s. split; [done|]. by left.
  - cbn [walk forallb] in Hall. apply andb_true_iff in Hall as [Hq Hall].
    set (q0 := walked </> c) in *.
    assert (∃ s1, mkdir_exist_ok q0 s = Ok s1 ∧
                  (s1 = s ∨ (s !! q0 = None ∧ s1 = <[q0 := Dir]> s))) as (s1 & Hmk & Hs1).
    { unfold mkdir_exist_ok, mkdir, free_or_dir in *.
      destruct (s !! q0) as [x|] eqn:E.
      - rewrite Hq. eauto.
      - assert (check_parent s q0 = None) as ->.
        { unfold check_parent, q0. rewrite split_last_snoc.
          destruct Hw as [->|Hd]; [done|]. unfold is_dir in Hd.
          destruct (stat s walked) as [[]|]; try done. by destruct walked. }
        eauto. }
    destruct (mkdir_exist_ok_grows _ _ _ Hmk) as [Hsub Hdir].
    destruct (IH q0 s1) as (s' & Hrun & Hlook).
    + by right.
    + apply forallb_forall. intros q Hq'%list_elem_of_In.
      rewrite forallb_forall in Hall. specialize (Hall q (proj1 (list_elem_of_In _ _) Hq')).
      pose proof (walk_longer _ _ _ Hq') as [Hlen _].
      destruct Hs1 as [->|[_ ->]]; [done|].
      unfold free_or_dir in *. rewrite lookup_insert_ne by (intros <-; lia).
      destruct (s !! q) eqn:E; [|done].
      by apply (is_dir_weaken s).
    + exists s'. cbn [mkdir_from]. fold q0. rewrite Hmk. split; [done|].
      intros q. cbn [walk]. fold q0.
      destruct (Hlook q) as [Heq|(Hnone & Hin & Hd)].
      * destruct Hs1 as [->|[Hfree ->]]; [by left|].
        destruct (decide (q = q0)) as [->|Hne].
        -- right. rewrite Heq, lookup_insert_eq. split_and!; [done| |done].
           apply list_elem_of_here.
        -- left. by rewrite Heq, lookup_insert_ne.
      * right. split_and!; [|by apply list_elem_of_further|done].
        destruct Hs1 as [->|[_ ->]]; [done|].
        pose proof (walk_longer _ _ _ Hin) as [Hlen _].
        rewrite lookup_insert_ne in Hnone; [done|]. intros <-. lia.
Qed.


(** X15. When the manifest, the game files, the prefix and
    [AppData/Local] are there, the mod directory is not, and no file is in
    the way, [_validate_and_create_mod_directory] returns the mod
    directory with no error after making it: it probes the five places in
    the order of the source, prints one line, and changes the store only
    by new directories on the way to the mod directory. *)
Theorem validate_creates_mod_directory steamapps w :
  exists_ (files w) (manifest steamapps) = true →
  exists_ (files w) (game_dir steamapps) = true →
  exists_ (files w) (compatdata_pfx steamapps) = true →
  exists_ (files w) (mods_path steamapps) = false →
  exists_ (files w) (appdata_local steamapps) = true →
  forallb (free_or_dir (files w)) (walk [] (mods_path steamapps)) = true →
  ∃ s', _validate_and_create_mod_directory steamapps w
        = ((Some (mods_path steamapps), None),
           World s'
                 (probes w ++ [manifest steamapps; game_dir steamapps;
                               compatdata_pfx steamapps; mods_path steamapps;
                               appdata_local steamapps])
                 (stdout w ++ ["Created mod directory: " +:+ str (mods_path steamapps)])) ∧
        is_dir s' (mods_path steamapps) = true ∧
        ∀ q, s' !! q = files w !! q ∨
             (files w !! q = None ∧ q `prefix_of` mods_path steamapps ∧
              s' !! q = Some Dir).
Proof.
  intros H1 H2 H3 H4 H5 Hfree.
  destruct (mkdir_from_succeeds [] (mods_path steamapps) (files w)) as (s' & Hrun & Hlook);
    [by left|done|].
  exists s'. split_and!.
  - unfold _validate_and_create_mod_directory, io_bind, probe, io_ret.
    rewrite H1. cbn [negb files]. rewrite H2. cbn [negb files]. rewrite H3.
    cbn [negb files]. rewrite H4. cbn [negb files]. rewrite H5. cbn [negb files].
    unfold make_dirs, mkdir_parents. cbn [files probes stdout]. rewrite Hrun.
    unfold print. cbn [files probes stdout]. by rewrite <- !app_assoc.
  - apply (mkdir_from_dir [] (mods_path steamapps) (files w)); [|done].
    unfold mods_path, joinpath. intros Hnil. by apply app_nil in Hnil as [_ ?].
  - intros q. destruct (Hlook q) as [?|(Hnone & Hin & Hd)]; [by left|right].
    split_and!; [done| |done]. by apply walk_longer in Hin as [_ ?].
Qed.

Lemma validate_creates_mod_directory_witness :
  ∃ s', _validate_and_create_mod_directory Sample.ssd
          (World Fixture.first_launch_store [] [])
        = ((Some (mods_path Sample.ssd), None),
           World s'
                 (probes (World Fixture.first_launch_store [] [])
                  ++ [manifest Sample.ssd; game_dir Sample.ssd;
                      compatdata_pfx Sample.ssd; mods_path Sample.ssd;
                      appdata_local Sample.ssd])
                 (stdout (World Fixture.first_launch_store [] [])
                  ++ ["Created mod directory: " +:+ str (mods_path Sample.ssd)])) ∧
        is_dir s' (mods_path Sample.ssd) = true ∧
        ∀ q, s' !! q = files (World Fixture.first_launch_store [] []) !! q ∨
             (files (World Fixture.first_launch_store [] []) !! q = None ∧
              q `prefix_of` mods_path Sample.ssd ∧
              s' !! q = Some Dir).
Proof.
  apply (validate_creates_mod_directory Sample.ssd
           (World Fixture.first_launch_store [] [])).
  - vm_compute. reflexivity.
  - vm_compute. reflexivity.
  - vm_compute. reflexivity.
  - vm_compute. reflexivity.
  - vm_compute. reflexivity.
  - vm_compute. reflexivity.
Defined.

End resolver_create.

(** ** Activation: the entries it leaves alone *)

Section activation_more.
Import FS ModManager Invariant Notions.
Implicit Types (s c t : fs) (p q d : path) (self : ModManager.t) (m : Mod.t)
  (i : Instance.t).



(** Every turn of the loop counts a link or records an error. *)
Lemma link_mod_accounts d m (n : nat) (e : list string) s :
  let '(n', e', _) := link_mod d m (n, e, s) in
  (n' + length e' = n + length e + 1)%nat.
Proof.
  unfold link_mod. destruct (negb _); [rewrite length_app; cbn; lia|].
  destruct (symlink _ _ s) as [s'|[]]; try (rewrite length_app; cbn); lia.
Qed.

Lemma link_all_accounts d (l : list Mod.t) (acc : nat * list string * fs) :
  let '(n', e', _) := link_all d l acc in
  let '(n, e, _) := acc in
  (n' + length e' = n + length e + length l)%nat.
Proof.
  revert acc. induction l as [|m l IH]; intros [[n e] s].
  - cbn. lia.
  - cbn [link_all fold_left]. specialize (IH (link_mod d m (n, e, s))).
    pose proof (link_mod_accounts d m n e s) as H1.
    destruct (link_mod d m (n, e, s)) as [[n1 e1] s1].
    change (fold_left (fun a m0 => link_mod d m0 a) l) with (link_all d l).
    destruct (link_all d l (n1, e1, s1)) as [[n2 e2] s2]. cbn [length]. lia.
Qed.

(** X16. With the game directory resolved, [activate_instance] accounts
    for every enabled mod once: the number of links it made and the number
    of errors it reports add up to the number of enabled mods. *)
Theorem activate_accounts_for_every_enabled_mod self d i s :
  game_mods_dir self = Some d → s !! d = Some Dir →
  ∃ n e s', activate_instance self i s = (Ok (n, e), s') ∧
            (n + length e = length (Instance.get_enabled_mods i))%nat.
Proof.
  intros Hd Hs. destruct (activate_instance_resolved self d i s Hd Hs) as [_ ->].
  pose proof (link_all_accounts d (Instance.get_enabled_mods i)
                (0%nat, [], (clear_managed_symlinks self s).2)) as H.
  destruct (link_all _ _ _) as [[n e] s']. exists n, e, s'. split; [done|].
  cbn in H. lia.
Qed.

(** What activation and deactivation leave alone. *)
Lemma activation_keeps self d i s q :
  game_mods_dir self = Some d → s !! d = Some Dir →
  (¬ (q = d </> name q ∧ Str.startswith DataManager.SYMLINK_PREFIX (name q) = true)
   ∨ (is_Some (s !! q) ∧ is_link (s !! q) = false)) →
  (activate_instance self i s).2 !! q = s !! q ∧
  (deactivate_all self s).2 !! q = s !! q.
Proof.
  intros Hd Hs Hq.
  destruct (clear_managed_symlinks_spec self d s Hd Hs) as (c & Hc & Hlook).
  assert (¬ owned d q (s !! q)) as Hno.
  { intros (H1 & H2 & H3). destruct Hq as [Hq|[_ Hq]]; [by apply Hq|congruence]. }
  assert (c !! q = s !! q) as Hcq by (by rewrite Hlook, decide_False).
  split; [|unfold deactivate_all; by rewrite Hc].
  destruct (activate_instance_resolved self d i s Hd Hs) as [_ ->]. rewrite Hc. cbn [snd].
  pose proof (link_all_grown d c (Instance.get_enabled_mods i) (0%nat, [], c)
                (grown_refl d c)) as Hg.
  destruct (link_all _ _ _) as [[n e] s2]. cbn [snd] in *.
  destruct (Hg q) as [->|[Hnone (H1 & H2 & H3)]]; [done|].
  destruct Hq as [Hq|[[x Hx] _]]; [by destruct Hq|congruence].
Qed.

(** X17. Activation and deactivation leave alone every entry that is not
    a prefixed name directly in the game mod directory, and every existing
    entry that is not a symbolic link, whatever its name: files of the
    user, the library and the directory itself keep their content. *)
Theorem activation_leaves_other_entries self d i s q :
  game_mods_dir self = Some d → s !! d = Some Dir →
  (¬ (q = d </> name q ∧ Str.startswith DataManager.SYMLINK_PREFIX (name q) = true)
   ∨ (is_Some (s !! q) ∧ is_link (s !! q) = false)) →
  (activate_instance self i s).2 !! q = s !! q ∧
  (deactivate_all self s).2 !! q = s !! q.
Proof. apply activation_keeps. Qed.

(** X18. [deactivate_all] removes exactly the links
    [get_managed_symlinks] lists, returns their number, changes nothing
    else, and leaves no managed link behind. *)
Theorem deactivate_all_removes_managed_links self d s :
  game_mods_dir self = Some d → s !! d = Some Dir →
  ∃ l c, get_managed_symlinks self s = Ok l ∧
         deactivate_all self s = (Ok (length l), c) ∧
         (∀ q, c !! q = if decide (q ∈ l) then None else s !! q) ∧
         get_managed_symlinks self c = Ok [].
Proof.
  intros Hd Hs.
  destruct (clear_managed_symlinks_spec self d s Hd Hs) as (c & Hc & Hlook).
  exists (filter (managed s) (children s d)), c. split_and!.
  - unfold get_managed_symlinks, iterdir.
    by rewrite Hd, (exists_of_stat _ _ _ (stat_Dir _ _ Hs)), (stat_Dir _ _ Hs).
  - done.
  - intros q. rewrite Hlook. destruct (decide (owned d q (s !! q))) as [Ho|Ho].
    + by rewrite decide_True by by apply elem_of_managed_children.
    + by rewrite decide_False by by rewrite elem_of_managed_children.
  - apply (get_managed_symlinks_none self d); [done| |].
    + by apply (cleared_dir d s).
    + by apply (cleared_not_owned d s).
Qed.

(** X19. Without a valid game path [activate_instance] makes no link and
    reports the one error that the game directory was not found,
    [deactivate_all] removes nothing, no link counts as managed, and the
    store stays as it is. *)
Theorem unresolved_directory_is_not_touched self i s :
  is_game_path_valid self s = false →
  activate_instance self i s = (Ok (0%nat, ["Game directory not found"]), s) ∧
  deactivate_all self s = (Ok 0%nat, s) ∧
  get_managed_symlinks self s = Ok [].
Proof.
  unfold is_game_path_valid, activate_instance, deactivate_all, clear_managed_symlinks,
    get_managed_symlinks, is_game_path_valid.
  destruct (game_mods_dir self) as [d|]; [|done]. by intros ->.
Qed.

Lemma activate_accounts_for_every_enabled_mod_witness :
  ∃ n e s', activate_instance Sample.resolved Sample.profile Sample.library_store
            = (Ok (n, e), s') ∧
            (n + length e = length (Instance.get_enabled_mods Sample.profile))%nat.
Proof.
  apply (activate_accounts_for_every_enabled_mod Sample.resolved (mods_path Sample.ssd)
           Sample.profile Sample.library_store).
  - reflexivity.
  - vm_compute. reflexivity.
Defined.

Lemma activation_leaves_other_entries_witness :
  (activate_instance Sample.resolved Sample.profile Fixture.kept_store).2
    !! (mods_path Sample.ssd </> "ronmgr_mine.pak")
  = Fixture.kept_store !! (mods_path Sample.ssd </> "ronmgr_mine.pak") ∧
  (deactivate_all Sample.resolved Fixture.kept_store).2
    !! (mods_path Sample.ssd </> "ronmgr_mine.pak")
  = Fixture.kept_store !! (mods_path Sample.ssd </> "ronmgr_mine.pak").
Proof.
  apply (activation_leaves_other_entries Sample.resolved (mods_path Sample.ssd)
           Sample.profile Fixture.kept_store (mods_path Sample.ssd </> "ronmgr_mine.pak")).
  - reflexivity.
  - vm_compute. reflexivity.
  - right. by_compute.
Defined.

Lemma deactivate_all_removes_managed_links_witness :
  ∃ l c, get_managed_symlinks Sample.resolved Sample.library_store = Ok l ∧
         deactivate_all Sample.resolved Sample.library_store = (Ok (length l), c) ∧
         (∀ q, c !! q = if decide (q ∈ l) then None else Sample.library_store !! q) ∧
         get_managed_symlinks Sample.resolved c = Ok [].
Proof.
  apply (deactivate_all_removes_managed_links Sample.resolved (mods_path Sample.ssd)
           Sample.library_store).
  - reflexivity.
  - vm_compute. reflexivity.
Defined.

Lemma unresolved_directory_is_not_touched_witness :
  activate_instance Sample.manager Sample.profile Sample.library_store
  = (Ok (0%nat, ["Game directory not found"]), Sample.library_store) ∧
  deactivate_all Sample.manager Sample.library_store = (Ok 0%nat, Sample.library_store) ∧
  get_managed_symlinks Sample.manager Sample.library_store = Ok [].
Proof.
  apply (unresolved_directory_is_not_touched Sample.manager Sample.profile
           Sample.library_store).
  reflexivity.
Defined.

End activation_more.

(** ** Activation: when every enabled mod can be linked *)

Section activation_success.
Import FS ModManager Invariant Notions.
Implicit Types (s c t : fs) (p q d : path) (self : ModManager.t) (m : Mod.t)
  (i : Instance.t).



Lemma link_path_inj d m m' : link_path d m = link_path d m' → Mod.filename m = Mod.filename m'.
Proof.
  unfold link_path, link_name. intros [_ H]%joinpath_inj.
  by apply (inj (String.app _)) in H.
Qed.

Lemma link_path_owned d m (target : path) :
  owned d (link_path d m) (Some (Symlink target)).
Proof.
  unfold owned, link_path. rewrite name_snoc. split_and!; [done| |done].
  apply startswith_app.
Qed.

Lemma exists_file s p sz doc : s !! p = Some (File sz doc) → exists_ s p = true.
Proof.
  intros H. apply (exists_of_stat s p (File sz doc)).
  unfold stat, MAXSYMLINKS. cbn. by rewrite H, option_bind_Some_l.
Qed.

Lemma check_parent_child d (n : string) s : s !! d = Some Dir → check_parent s (d </> n) = None.
Proof.
  intros Hd. unfold check_parent. rewrite split_last_snoc, (stat_Dir _ _ Hd).
  by destruct d.
Qed.

(** The loop in a store where the remaining mods can all be linked. *)
Lemma link_all_links d (l : list Mod.t) (n : nat) (e : list string) t :
  t !! d = Some Dir →
  NoDup (Mod.filename <$> l) →
  (∀ m, m ∈ l → (∃ sz doc, t !! Path (Mod.path m) = Some (File sz doc)) ∧
                 t !! link_path d m = None) →
  ∃ t', link_all d l (n, e, t) = ((n + length l)%nat, e, t') ∧
        (∀ m, m ∈ l → t' !! link_path d m = Some (Symlink (Path (Mod.path m)))) ∧
        (∀ q, (∀ m, m ∈ l → q ≠ link_path d m) → t' !! q = t !! q).
Proof.
  revert n t. induction l as [|m l IH]; intros n t Hd Hnd Hl.
  - exists t. cbn. rewrite Nat.add_0_r. split_and!; [done| |done].
    by intros m ?%elem_of_nil.
  - rewrite fmap_cons in Hnd. apply NoDup_cons in Hnd as [Hm Hnd].
    destruct (Hl m (list_elem_of_here _ _)) as [(sz & doc & Hsrc) Hfree].
    assert (link_mod d m (n, e, t)
            = ((n + 1)%nat, e, <[link_path d m := Symlink (Path (Mod.path m))]> t)) as Hstep.
    { unfold link_mod, symlink. rewrite (exists_file _ _ _ _ Hsrc). cbn [negb].
      rewrite (check_parent_child d _ t Hd).
      change (d </> (DataManager.SYMLINK_PREFIX +:+ Mod.filename m)) with (link_path d m).
      by rewrite Hfree. }
    set (t1 := <[link_path d m := Symlink (Path (Mod.path m))]> t) in *.
    assert (∀ q, q ≠ link_path d m → t1 !! q = t !! q) as Hother
      by (intros q Hq; unfold t1; by rewrite lookup_insert_ne).
    destruct (IH (n + 1)%nat t1) as (t' & Hrun & Hlinks & Hrest).
    + rewrite Hother; [done|]. intros Heq. rewrite Heq in Hd. congruence.
    + done.
    + intros m' Hm'. destruct (Hl m' (list_elem_of_further _ _ _ Hm')) as [(sz' & doc' & Hs') Hf'].
      split.
      * exists sz', doc'. rewrite Hother; [done|]. intros Heq. rewrite Heq in Hs'. congruence.
      * rewrite Hother; [done|]. intros Heq%link_path_inj. apply Hm.
        rewrite <- Heq. by apply list_elem_of_fmap_2.
    + exists t'. cbn [link_all fold_left]. rewrite Hstep.
      change (fold_left (fun a m0 => link_mod d m0 a) l) with (link_all d l).
      rewrite Hrun. split_and!.
      * do 2 f_equal. cbn [length]. lia.
      * intros m' [->|Hm']%elem_of_cons; [|by apply Hlinks].
        rewrite Hrest.
        -- unfold t1. apply lookup_insert_eq.
        -- intros m' Hm' Heq%link_path_inj. apply Hm. rewrite Heq.
           by apply list_elem_of_fmap_2.
      * intros q Hq. rewrite Hrest.
        -- apply Hother, Hq, list_elem_of_here.
        -- intros m' Hm'. by apply Hq, list_elem_of_further.
Qed.

(** X20. When the enabled mods have distinct filenames, the source of
    each is a regular file, and the name of each link is free or held by a
    link, [activate_instance] links every enabled mod and reports no
    error: each link points at the path of its mod, and the managed links
    afterwards are exactly the links of the enabled mods. *)
Theorem activate_links_every_enabled_mod self d i s :
  game_mods_dir self = Some d → s !! d = Some Dir →
  NoDup (Mod.filename <$> Instance.get_enabled_mods i) →
  Forall (linkable d s) (Instance.get_enabled_mods i) →
  ∃ s' l,
    activate_instance self i s
    = (Ok (length (Instance.get_enabled_mods i), []), s') ∧
    (∀ m, m ∈ Instance.get_enabled_mods i →
          s' !! link_path d m = Some (Symlink (Path (Mod.path m)))) ∧
    get_managed_symlinks self s' = Ok l ∧
    (∀ q, q ∈ l ↔ ∃ m, m ∈ Instance.get_enabled_mods i ∧ q = link_path d m).
Proof.
  intros Hd Hs Hnd Hall. rewrite Forall_forall in Hall.
  destruct (clear_managed_symlinks_spec self d s Hd Hs) as (c & Hc & Hlook).
  pose proof (cleared_not_owned _ _ _ Hlook) as Hnone.
  pose proof (cleared_dir _ _ _ Hlook Hs) as Hcd.
  destruct (link_all_links d (Instance.get_enabled_mods i) 0 [] c Hcd Hnd)
    as (s' & Hrun & Hlinks & Hrest).
  { intros m Hm. destruct (Hall m Hm) as [(sz & doc & Hsrc) Hfree]. split.
    - exists sz, doc. rewrite Hlook, Hsrc. rewrite decide_False; [done|].
      by intros (_ & _ & ?).
    - rewrite Hlook. destruct Hfree as [Hfree|Hfree].
      + rewrite Hfree. by destruct (decide _).
      + rewrite decide_True; [done|].
        apply is_link_Some in Hfree as [tgt Ht]. rewrite Ht. apply link_path_owned. }
  assert (s' !! d = Some Dir) as Hsd.
  { rewrite Hrest; [done|]. intros m Hm Heq.
    apply (f_equal length) in Heq. unfold link_path, joinpath in Heq.
    rewrite length_app in Heq. cbn in Heq. lia. }
  exists s', (filter (managed s') (children s' d)). split_and!.
  - destruct (activate_instance_resolved self d i s Hd Hs) as [_ ->].
    rewrite Hc. cbn [snd]. by rewrite Hrun.
  - done.
  - unfold get_managed_symlinks, iterdir.
    by rewrite Hd, (exists_of_stat _ _ _ (stat_Dir _ _ Hsd)), (stat_Dir _ _ Hsd).
  - intros q. rewrite elem_of_managed_children. split.
    + intros Hown.
      destruct (decide (Exists (fun m => q = link_path d m) (Instance.get_enabled_mods i)))
        as [(m & Hm & ->)%Exists_exists|Hno]; [eauto|].
      rewrite Hrest in Hown; [by destruct (Hnone q)|].
      intros m Hm ->. apply Hno, Exists_exists. eauto.
    + intros (m & Hm & ->). rewrite (Hlinks m Hm). apply link_path_owned.
Qed.

Lemma activate_links_every_enabled_mod_witness :
  ∃ s' l,
    activate_instance Sample.resolved Fixture.sole_profile Sample.library_store
    = (Ok (length (Instance.get_enabled_mods Fixture.sole_profile), []), s') ∧
    (∀ m, m ∈ Instance.get_enabled_mods Fixture.sole_profile →
          s' !! link_path (mods_path Sample.ssd) m
          = Some (Symlink (Path (Mod.path m)))) ∧
    get_managed_symlinks Sample.resolved s' = Ok l ∧
    (∀ q, q ∈ l ↔ ∃ m, m ∈ Instance.get_enabled_mods Fixture.sole_profile ∧
                       q = link_path (mods_path Sample.ssd) m).
Proof.
  apply (activate_links_every_enabled_mod Sample.resolved (mods_path Sample.ssd)
           Fixture.sole_profile Sample.library_store).
  - reflexivity.
  - vm_compute. reflexivity.
  - by_compute.
  - apply Forall_cons. split; [|apply Forall_nil_2]. split.
    + exists 1024%Z, None. vm_compute. reflexivity.
    + left. vm_compute. reflexivity.
Defined.

End activation_success.

(** ** The library listing: properties *)

Section library.
Import FS Library.
Implicit Types (s : fs) (p q d : path) (dm : DataManager.t) (m : Mod.t).

Lemma endswith_spec (sfx t : string) :
  endswith sfx t = true ↔ ∃ pre, t = pre +:+ sfx.
Proof.
  induction t as [|c t IH]; cbn [endswith].
  - rewrite orb_false_r, String.eqb_eq. split.
    + intros ->. by exists "".
    + intros [pre Hpre]. destruct pre; [done|discriminate].
  - rewrite orb_true_iff, String.eqb_eq, IH. split.
    + intros [->|[pre ->]]; [by exists ""|by exists (String c pre)].
    + intros [[|c' pre] Hpre]; [by left|right].
      injection Hpre as -> ->. by exists pre.
Qed.

(** The mod the listing makes of an entry. *)
Lemma mods_of_spec s (paks : list path) (l : list Mod.t) :
  mods_of s paks = Ok l ↔
  Forall2 (fun p m => ∃ sz, st_size s p = Ok sz ∧
                            m = Mod.Mod (stem p) (name p) (str p) sz true) paks l.
Proof.
  revert l. induction paks as [|p paks IH]; intros l; cbn [mods_of].
  - split; [intros [= <-]; constructor|by intros ->%Forall2_nil_inv_l].
  - destruct (st_size s p) as [sz|e] eqn:Hsz.
    2: { split; [done|]. intros (? & ? & (? & ? & _) & _)%Forall2_cons_inv_l. congruence. }
    rewrite result_bind_Ok. destruct (mods_of s paks) as [l'|e] eqn:Hrest.
    + rewrite result_bind_Ok. split.
      * intros [= <-]. constructor; [eauto|]. by apply IH.
      * intros (m & l2 & (sz' & Hsz' & ->) & Hl2 & ->)%Forall2_cons_inv_l.
        rewrite Hsz in Hsz'. injection Hsz' as <-.
        apply IH in Hl2 as [= <-]. done.
    + split; [done|].
      intros (m & l2 & _ & Hl2 & ->)%Forall2_cons_inv_l. by apply IH in Hl2.
Qed.

Lemma st_size_ok s p : is_ok (st_size s p) = exists_ s p.
Proof. unfold st_size, exists_. by destruct (stat s p) as [[]|]. Qed.

Lemma mods_of_ok s (paks : list path) :
  is_ok (mods_of s paks) = true ↔ ∀ p, p ∈ paks → exists_ s p = true.
Proof.
  induction paks as [|p paks IH]; cbn [mods_of].
  - split; [by intros _ ? ?%elem_of_nil|done].
  - split.
    + intros Hok q [->|Hq]%elem_of_cons.
      * rewrite <- st_size_ok. by destruct (st_size s _).
      * apply IH; [|done]. destruct (st_size s p); [|done].
        rewrite result_bind_Ok in Hok. by destruct (mods_of s paks).
    + intros Hall. pose proof (Hall p (list_elem_of_here _ _)) as Hp.
      assert (is_ok (mods_of s paks) = true) as Hrest.
      { apply IH. intros q Hq. apply Hall. by apply list_elem_of_further. }
      rewrite <- st_size_ok in Hp. destruct (st_size s p); [|done].
      rewrite result_bind_Ok. by destruct (mods_of s paks).
Qed.

Lemma elem_of_glob_pak s d p :
  p ∈ glob_pak s d ↔
  is_dir s d = true ∧ p ∈ children s d ∧ endswith ".pak" (name p) = true.
Proof.
  unfold glob_pak. destruct (is_dir s d).
  - rewrite list_elem_of_filter. tauto.
  - split; [by intros ?%elem_of_nil|by intros [? _]].
Qed.

Lemma NoDup_names_children s d (l : list path) :
  NoDup l → (∀ p, p ∈ l → p ∈ children s d) → NoDup (name <$> l).
Proof.
  intros Hnd Hl. apply NoDup_fmap_2_strong; [|done].
  intros p q Hp Hq Heq.
  apply Hl, elem_of_children in Hp as [_ Hp].
  apply Hl, elem_of_children in Hq as [_ Hq]. congruence.
Qed.

Lemma mods_of_filenames s (paks : list path) (l : list Mod.t) :
  mods_of s paks = Ok l → Mod.filename <$> l = name <$> paks.
Proof.
  intros H%mods_of_spec. induction H as [|p m paks l (sz & _ & ->) _ IH]; [done|].
  cbn. by rewrite IH.
Qed.

Lemma list_library_mods_elem dm s (l : list Mod.t) m :
  list_library_mods dm s = Ok l →
  m ∈ l ↔
  ∃ p sz, is_dir s (DataManager.mods_dir dm) = true ∧
          p ∈ children s (DataManager.mods_dir dm) ∧
          endswith ".pak" (name p) = true ∧
          st_size s p = Ok sz ∧
          m = Mod.Mod (stem p) (name p) (str p) sz true.
Proof.
  unfold list_library_mods.
  destruct (mods_of s _) as [l0|] eqn:Hl0; [|done].
  rewrite result_bind_Ok. intros [= <-]. rewrite merge_sort_Permutation.
  pose proof (proj1 (mods_of_spec _ _ _) Hl0) as Hspec. split.
  - intros Hm. apply list_elem_of_lookup in Hm as [k Hk].
    destruct (Forall2_lookup_r _ _ _ _ _ Hspec Hk) as (p & Hp & sz & Hsz & ->).
    apply list_elem_of_lookup_2, elem_of_glob_pak in Hp as (Hd & Hc & He).
    eauto 10.
  - intros (p & sz & Hd & Hc & He & Hsz & ->).
    assert (p ∈ glob_pak s (DataManager.mods_dir dm)) as Hp
      by (by apply elem_of_glob_pak).
    apply list_elem_of_lookup in Hp as [k Hk].
    destruct (Forall2_lookup_l _ _ _ _ _ Hspec Hk) as (m & Hm & sz' & Hsz' & ->).
    rewrite Hsz in Hsz'. injection Hsz' as <-. by eapply list_elem_of_lookup_2.
Qed.

(** X21. [list_library_mods] returns no mods when the library is no
    directory, and raises exactly when an entry it found cannot be
    examined (a dangling link).  The mods it returns are in the order of
    their lower-cased names; they are the enabled mods of the entries
    directly in the library whose name ends in [.pak], letter case
    respected, each with the stem, the name, the path and the size of its
    entry; and their filenames are distinct. *)
Theorem list_library_mods_lists dm s :
  (is_dir s (DataManager.mods_dir dm) = false → list_library_mods dm s = Ok []) ∧
  (is_ok (list_library_mods dm s) = true ↔
   ∀ p, p ∈ glob_pak s (DataManager.mods_dir dm) → exists_ s p = true) ∧
  ∀ l, list_library_mods dm s = Ok l →
    Sorted key_le l ∧
    (∀ m, m ∈ l ↔
          ∃ p sz, is_dir s (DataManager.mods_dir dm) = true ∧
                  p ∈ children s (DataManager.mods_dir dm) ∧
                  endswith ".pak" (name p) = true ∧
                  st_size s p = Ok sz ∧
                  m = Mod.Mod (stem p) (name p) (str p) sz true) ∧
    NoDup (Mod.filename <$> l).
Proof.
  split_and!.
  - unfold list_library_mods. intros Hd. unfold glob_pak. by rewrite Hd.
  - unfold list_library_mods. rewrite <- mods_of_ok. by destruct (mods_of s _).
  - intros l Hl. split_and!.
    + revert Hl. unfold list_library_mods. destruct (mods_of s _); [|done].
      rewrite result_bind_Ok. intros [= <-].
      apply Sorted_merge_sort. intros x y. unfold key_le. apply total. apply _.
    + intros m. by apply list_library_mods_elem.
    + revert Hl. unfold list_library_mods.
      destruct (mods_of s _) as [l0|] eqn:Hl0; [|done].
      rewrite result_bind_Ok. intros [= <-].
      rewrite merge_sort_Permutation, (mods_of_filenames _ _ _ Hl0).
      apply (NoDup_names_children s (DataManager.mods_dir dm)).
      * unfold glob_pak. destruct (is_dir _ _); [|constructor].
        apply NoDup_filter, NoDup_children.
      * by intros p (_ & ? & _)%elem_of_glob_pak.
Qed.

Lemma list_library_mods_lists_witness :
  Sorted key_le Fixture.shelf ∧
  (∀ m, m ∈ Fixture.shelf ↔
        ∃ p sz, is_dir Fixture.shelf_store (DataManager.mods_dir Sample.dm) = true ∧
                p ∈ children Fixture.shelf_store (DataManager.mods_dir Sample.dm) ∧
                endswith ".pak" (name p) = true ∧
                st_size Fixture.shelf_store p = Ok sz ∧
                m = Mod.Mod (stem p) (name p) (str p) sz true) ∧
  NoDup (Mod.filename <$> Fixture.shelf).
Proof.
  apply (proj2 (proj2 (list_library_mods_lists Sample.dm Fixture.shelf_store))
           Fixture.shelf).
  vm_compute. reflexivity.
Defined.

End library.

(** ** The library listing after an import *)

Section library_import.
Import FS Library.
Implicit Types (s : fs) (p q d : path) (dm : DataManager.t) (m : Mod.t).

Lemma string_app_cons (c : ascii) (a b : string) :
  String c a +:+ b = String c (a +:+ b).
Proof. done. Qed.

Lemma string_length_app (a b : string) :
  String.length (a +:+ b) = (String.length a + String.length b)%nat.
Proof.
  induction a as [|c a IH]; [done|]. rewrite string_app_cons. cbn. by rewrite IH.
Qed.

Lemma substring_all (t : string) : String.substring 0 (String.length t) t = t.
Proof. induction t as [|c t IH]; [done|]. cbn. by rewrite IH. Qed.

Lemma substring_app_r (a b : string) (k : nat) :
  String.substring (String.length a) k (a +:+ b) = String.substring 0 k b.
Proof.
  induction a as [|c a IH]; [done|]. rewrite string_app_cons. cbn. by rewrite IH.
Qed.

(** A string is its first [i] characters followed by the rest. *)
Lemma substring_split (i : nat) (t : string) :
  (i ≤ String.length t)%nat →
  t = String.substring 0 i t +:+ String.substring i (String.length t - i) t.
Proof.
  revert i. induction t as [|c t IH]; intros i Hi.
  - cbn in Hi. by assert (i = 0%nat) as -> by lia.
  - destruct i as [|i].
    + cbn [String.substring]. change (String.length (String c t) - 0)%nat
        with (S (String.length t)). cbn [String.substring].
      by rewrite substring_all.
    + cbn in Hi. cbn [String.substring String.length Nat.sub].
      rewrite string_app_cons. f_equal. apply IH. lia.
Qed.

Lemma rfind_dot_app (a b : string) :
  Str.rfind_dot (a +:+ b)
  = match Str.rfind_dot b with
    | Some i => Some (String.length a + i)%nat
    | None => Str.rfind_dot a
    end.
Proof.
  induction a as [|c a IH].
  - change ("" +:+ b) with b. by destruct (Str.rfind_dot b).
  - rewrite string_app_cons. cbn. rewrite IH. by destruct (Str.rfind_dot b).
Qed.

Lemma rfind_dot_bound (t : string) (i : nat) :
  Str.rfind_dot t = Some i → (i < String.length t)%nat.
Proof.
  revert i. induction t as [|c t IH]; intros i; [done|]. cbn.
  destruct (Str.rfind_dot t) as [j|].
  - intros [= <-]. specialize (IH j eq_refl). lia.
  - destruct (Ascii.eqb c "."); [|done]. intros [= <-]. lia.
Qed.

(** A name with the suffix [.pak] ends in [.pak]. *)
Lemma suffix_endswith p (sfx : string) :
  suffix p = sfx → sfx ≠ "" → endswith sfx (name p) = true.
Proof.
  unfold suffix, cut_point. intros Hs Hne. apply endswith_spec.
  destruct (Str.rfind_dot (name p)) as [i|] eqn:Hi; [|done].
  destruct (_ && _); [|done].
  exists (String.substring 0 i (name p)). rewrite <- Hs.
  apply substring_split. apply rfind_dot_bound in Hi. lia.
Qed.

(** A name that ends in [.pak] has that suffix, unless it is all there
    is of the name. *)
Lemma endswith_pak_suffix p :
  endswith ".pak" (name p) = true → suffix p = ".pak" ∨ name p = ".pak".
Proof.
  intros [pre Hpre]%endswith_spec. unfold suffix, cut_point. rewrite Hpre.
  rewrite rfind_dot_app. change (Str.rfind_dot ".pak") with (Some 0%nat).
  rewrite string_length_app. change (String.length ".pak") with 4%nat.
  destruct pre as [|c pre]; [by right|left].
  rewrite Nat.add_0_r.
  assert ((0 <? String.length (String c pre))%nat = true) as ->
    by (apply Nat.ltb_lt; cbn; lia).
  assert ((String.length (String c pre) <? String.length (String c pre) + 4 - 1)%nat = true)
    as -> by (apply Nat.ltb_lt; lia).
  cbn [andb].
  replace (String.length (String c pre) + 4 - String.length (String c pre))%nat
    with 4%nat by lia.
  by rewrite substring_app_r.
Qed.

(** The result of a call with the store it left. *)
Lemma with_store {A B} (x : A * B) (a : A) : x.1 = a → x = (a, x.2).
Proof. destruct x. by intros <-. Qed.

(** X22. A mod [import_mod] returned is listed by [list_library_mods]
    when the suffix of its file is [.pak] in lower case.  A file whose
    suffix is [.pak] in another letter case is imported all the same, but
    no mod of its filename is listed afterwards. *)
Theorem imported_mod_is_listed dm pak_file s m s' (l : list Mod.t) :
  DataManager.import_mod dm pak_file s = (Ok (Some m), s') →
  is_dir s (DataManager.mods_dir dm) = true →
  list_library_mods dm s' = Ok l →
  (suffix pak_file = ".pak" → m ∈ l) ∧
  (suffix pak_file ≠ ".pak" → Mod.filename m ∉ (Mod.filename <$> l)).
Proof.
  intros Himp Hd Hl.
  pose proof (import_mod_grows dm pak_file s) as Hsub. rewrite Himp in Hsub.
  cbn [snd] in Hsub. revert Himp. unfold DataManager.import_mod.
  destruct (exists_ s pak_file); [|done]. cbn [negb orb].
  destruct (String.eqb_spec (Str.lower (suffix pak_file)) ".pak") as [Hlow|]; [|done].
  cbn [negb].
  set (dest := DataManager.mods_dir dm </> name pak_file).
  destruct (exists_ s dest); [done|].
  destruct (copy2 pak_file dest s) as [s1|]; [|done].
  destruct (st_size s1 dest) as [sz|] eqn:Hsz; [|done].
  intros [= <- <-]. split.
  - intros Hsfx. apply (list_library_mods_elem dm s1 l _ Hl).
    exists dest, sz. split_and!.
    + by apply (is_dir_weaken s).
    + apply elem_of_children. split.
      * apply exists_present. rewrite <- st_size_ok. by rewrite Hsz.
      * unfold dest. by rewrite name_snoc.
    + unfold dest. rewrite name_snoc. by apply suffix_endswith.
    + done.
    + unfold stem, dest. by rewrite name_snoc.
  - intros Hsfx (m' & Hname & Hm')%list_elem_of_fmap. cbn [Mod.filename] in Hname.
    apply (list_library_mods_elem dm s1 l _ Hl) in Hm'
      as (p & sz' & _ & _ & Hends & _ & ->).
    cbn [Mod.filename] in Hname. rewrite <- Hname in Hends.
    apply endswith_pak_suffix in Hends as [?|Hn]; [done|].
    revert Hlow. unfold suffix. rewrite Hn. done.
Qed.

Lemma imported_mod_is_listed_witness :
  (suffix Fixture.loud = ".pak" →
   Mod.Mod "LOUD" "LOUD.PAK" "/home/u/.ron-modmgr/mods/LOUD.PAK" 5 true
   ∈ ([] : list Mod.t)) ∧
  (suffix Fixture.loud ≠ ".pak" →
   Mod.filename (Mod.Mod "LOUD" "LOUD.PAK" "/home/u/.ron-modmgr/mods/LOUD.PAK" 5 true)
   ∉ (Mod.filename <$> ([] : list Mod.t))).
Proof.
  apply (imported_mod_is_listed Sample.dm Fixture.loud Fixture.loud_store _
           (DataManager.import_mod Sample.dm Fixture.loud Fixture.loud_store).2).
  - apply with_store. vm_compute. reflexivity.
  - vm_compute. reflexivity.
  - vm_compute. reflexivity.
Defined.

End library_import.

(** ** Making the data directories *)

Section ensure_dirs.
Import FS Notions.
Implicit Types (s : fs) (p q d : path) (dm : DataManager.t).

Lemma mkdir_exist_ok_dir p s : is_dir s p = true → mkdir_exist_ok p s = Ok s.
Proof.
  intros Hd. unfold mkdir_exist_ok, mkdir.
  destruct (is_dir_present _ _ Hd) as [x ->]. by rewrite Hd.
Qed.

(** The directories on the way are there after the walk. *)
Lemma mkdir_from_walk (walked : path) (todo : list string) s s' :
  mkdir_from walked todo s = (None, s') →
  Forall (fun q => is_dir s' q = true) (walk walked todo).
Proof.
  revert walked s. induction todo as [|c todo IH]; intros walked s; [constructor|].
  cbn [mkdir_from walk].
  destruct (mkdir_exist_ok (walked </> c) s) as [s1|e] eqn:E; [|done].
  destruct (mkdir_exist_ok_grows _ _ _ E) as [_ Hdir]. intros Hrun.
  constructor; [|by apply (IH _ s1)].
  apply (is_dir_weaken s1); [|done].
  pose proof (mkdir_from_grows (walked </> c) todo s1) as Hsub. by rewrite Hrun in Hsub.
Qed.

(** A walk over directories changes nothing. *)
Lemma mkdir_from_again (walked : path) (todo : list string) s :
  Forall (fun q => is_dir s q = true) (walk walked todo) →
  mkdir_from walked todo s = (None, s).
Proof.
  revert walked. induction todo as [|c todo IH]; intros walked; [done|].
  cbn [mkdir_from walk]. intros [Hq Hall]%Forall_cons.
  rewrite (mkdir_exist_ok_dir _ _ Hq). by apply IH.
Qed.

(** What a [mkdir(exist_ok=True)] changes. *)
Lemma mkdir_exist_ok_new p s s' :
  mkdir_exist_ok p s = Ok s' →
  ∀ q, s' !! q = s !! q ∨ (s !! q = None ∧ q = p ∧ s' !! q = Some Dir).
Proof.
  unfold mkdir_exist_ok, mkdir. destruct (s !! p) as [x|] eqn:Hp.
  - destruct (is_dir s p); [|done]. intros [= <-] q. by left.
  - assert (is_dir s p = false) as Hnd
      by (unfold is_dir; by rewrite (stat_None_absent _ _ Hp)).
    destruct (check_parent s p) as [[]|]; try done; try by rewrite Hnd.
    intros [= <-] q. destruct (decide (q = p)) as [->|Hne].
    + right. by rewrite lookup_insert_eq.
    + left. by rewrite lookup_insert_ne.
Qed.

Lemma mkdir_from_new (walked : path) (todo : list string) s s' :
  mkdir_from walked todo s = (None, s') →
  ∀ q, s' !! q = s !! q ∨ (s !! q = None ∧ q ∈ walk walked todo ∧ s' !! q = Some Dir).
Proof.
  revert walked s. induction todo as [|c todo IH]; intros walked s.
  - cbn. intros [= <-] q. by left.
  - cbn [mkdir_from walk].
    destruct (mkdir_exist_ok (walked </> c) s) as [s1|e] eqn:E; [|done].
    intros Hrun q.
    destruct (IH _ _ Hrun q) as [Heq|(Hnone & Hin & Hd)];
      destruct (mkdir_exist_ok_new _ _ _ E q) as [Heq1|(Hnone1 & -> & Hd1)].
    + left. congruence.
    + right. split_and!; [done|left|congruence].
    + right. split_and!; [congruence|by right|done].
    + congruence.
Qed.

(** X23. When [_ensure_dirs] returns, the data directory, the library
    and the directory of the instances are directories; it has changed
    the store only by new directories on the way to the data directory
    and by the two directories in it; and running it again changes
    nothing. *)
Theorem ensure_dirs_makes_directories dm s s' :
  DataManager.data_dir dm ≠ [] →
  DataManager._ensure_dirs dm s = (None, s') →
  is_dir s' (DataManager.data_dir dm) = true ∧
  is_dir s' (DataManager.mods_dir dm) = true ∧
  is_dir s' (DataManager.instances_dir dm) = true ∧
  (∀ q, s' !! q = s !! q ∨
        (s !! q = None ∧ s' !! q = Some Dir ∧
         (q `prefix_of` DataManager.data_dir dm ∨ q = DataManager.mods_dir dm ∨
          q = DataManager.instances_dir dm))) ∧
  DataManager._ensure_dirs dm s' = (None, s').
Proof.
  intros Hne. unfold DataManager._ensure_dirs, mkdir_parents.
  destruct (mkdir_from [] (DataManager.data_dir dm) s) as [[e|] s1] eqn:E1; [done|].
  destruct (mkdir_exist_ok (DataManager.mods_dir dm) s1) as [s2|e] eqn:E2; [|done].
  destruct (mkdir_exist_ok (DataManager.instances_dir dm) s2) as [s3|e] eqn:E3; [|done].
  intros [= <-].
  destruct (mkdir_exist_ok_grows _ _ _ E2) as [Hsub2 Hd2].
  destruct (mkdir_exist_ok_grows _ _ _ E3) as [Hsub3 Hd3].
  pose proof (mkdir_from_dir [] _ s s1 Hne E1) as Hd1. cbn [app] in Hd1.
  assert (is_dir s3 (DataManager.data_dir dm) = true) as Hd1'
    by (apply (is_dir_weaken s2); [done|]; by apply (is_dir_weaken s1)).
  assert (is_dir s3 (DataManager.mods_dir dm) = true) as Hd2'
    by (by apply (is_dir_weaken s2)).
  split_and!; try done.
  - intros q.
    destruct (mkdir_from_new _ _ _ _ E1 q) as [H1|(N1 & I1 & D1)];
      destruct (mkdir_exist_ok_new _ _ _ E2 q) as [H2|(N2 & Q2 & D2)];
      destruct (mkdir_exist_ok_new _ _ _ E3 q) as [H3|(N3 & Q3 & D3)];
      first
        [ left; congruence
        | right; split_and!;
          [ congruence | congruence
          | first [ by right; right | by right; left
                  | left; by apply walk_longer in I1 as [_ ?] ] ] ].
  - rewrite (mkdir_from_again [] (DataManager.data_dir dm) s3).
    + by rewrite !mkdir_exist_ok_dir.
    + eapply Forall_impl; [exact (mkdir_from_walk _ _ _ _ E1)|].
      intros q Hq. cbn in Hq. apply (is_dir_weaken s2); [done|]. by apply (is_dir_weaken s1).
Qed.

Lemma ensure_dirs_makes_directories_witness :
  is_dir (DataManager._ensure_dirs Sample.dm ∅).2 (DataManager.data_dir Sample.dm) = true ∧
  is_dir (DataManager._ensure_dirs Sample.dm ∅).2 (DataManager.mods_dir Sample.dm) = true ∧
  is_dir (DataManager._ensure_dirs Sample.dm ∅).2 (DataManager.instances_dir Sample.dm)
  = true ∧
  (∀ q, (DataManager._ensure_dirs Sample.dm ∅).2 !! q = (∅ : fs) !! q ∨
        ((∅ : fs) !! q = None ∧
         (DataManager._ensure_dirs Sample.dm ∅).2 !! q = Some Dir ∧
         (q `prefix_of` DataManager.data_dir Sample.dm ∨
          q = DataManager.mods_dir Sample.dm ∨
          q = DataManager.instances_dir Sample.dm))) ∧
  DataManager._ensure_dirs Sample.dm (DataManager._ensure_dirs Sample.dm ∅).2
  = (None, (DataManager._ensure_dirs Sample.dm ∅).2).
Proof.
  apply (ensure_dirs_makes_directories Sample.dm ∅).
  - discriminate.
  - apply with_store. vm_compute. reflexivity.
Defined.

End ensure_dirs.

(** ** From the import of a package to its link *)

Section path_text.
Import FS Notions ModManager Invariant.
Implicit Types (s : fs) (p q d : path) (dm : DataManager.t) (m : Mod.t).

Lemma string_app_assoc (a b c : string) : (a +:+ b) +:+ c = a +:+ (b +:+ c).
Proof.
  induction a as [|x a IH]; [done|]. rewrite !string_app_cons. by rewrite IH.
Qed.

Lemma components_component (c cur rest : string) :
  Str.contains "/" c = false →
  components cur (c +:+ rest) = components (cur +:+ c) rest.
Proof.
  revert cur. induction c as [|a c IH]; intros cur.
  - intros _. change ("" +:+ rest) with rest.
    replace (cur +:+ "") with cur; [done|].
    clear. induction cur as [|x cur IH]; [done|]. rewrite string_app_cons. by rewrite <- IH.
  - cbn [Str.contains]. intros [Hhead Hc]%orb_false_iff.
    rewrite string_app_cons. cbn [components].
    assert (Ascii.eqb a "/" = false) as ->.
    { destruct (Ascii.eqb_spec a "/") as [Heq|]; [|done]. exfalso. subst a.
      revert Hhead. unfold Str.startswith. cbn. by destruct c. }
    rewrite (IH _ Hc). f_equal. rewrite string_app_assoc. by rewrite string_app_cons.
Qed.

Lemma components_text (cur : string) p :
  Forall component p →
  filter (fun c => c ≠ "" ∧ c ≠ ".")
         (components cur (fold_right (fun c acc => "/" +:+ c +:+ acc) "" p))
  = (filter (fun c => c ≠ "" ∧ c ≠ ".") [cur] ++ p)%list.
Proof.
  revert cur. induction p as [|c p IH]; intros cur Hall.
  - cbn [fold_right components]. by rewrite app_nil_r.
  - apply Forall_cons in Hall as [(Hne & Hdot & Hsl) Hall].
    cbn [fold_right]. rewrite string_app_cons. change ("" +:+ ?x) with x.
    cbn [components]. change (Ascii.eqb "/" "/") with true. cbv iota.
    rewrite (components_component _ _ _ Hsl). change ("" +:+ c) with c.
    rewrite filter_cons. rewrite (IH c Hall).
    rewrite (filter_cons _ c []), filter_nil.
    destruct (decide (c ≠ "" ∧ c ≠ ".")) as [_|[]]; [|by split].
    rewrite (filter_cons _ cur []), filter_nil. by destruct (decide _).
Qed.

(** [Path(str(p))] is [p]. *)
Lemma Path_str p : Forall component p → Path (str p) = p.
Proof.
  intros Hall. destruct p as [|c p]; [done|].
  unfold Path, str. rewrite (components_text "" (c :: p) Hall).
  rewrite filter_cons, decide_False; [done|]. by intros [? _].
Qed.

(** X24. From the import of a package to its link: when a regular file
    with the suffix [.pak] is new to the library, the library path of its
    name reads back from its text, the game mod directory is resolved and
    the name of the link is free or held by a link, then [import_mod]
    returns a mod, activating an instance of that mod makes one link and
    reports no error, the link points at the library copy and resolves to
    a file of the content of the package, and [verify_mods] reports
    nothing. *)
Theorem imported_mod_is_linked dm self d pak_file s (sz : Z) (doc : option pyval)
    (n created : string) :
  let dest := DataManager.mods_dir dm </> name pak_file in
  let link := d </> (DataManager.SYMLINK_PREFIX +:+ name pak_file) in
  stat s pak_file = Some (File sz doc) →
  Str.lower (suffix pak_file) = ".pak" →
  s !! dest = None →
  is_dir s (DataManager.mods_dir dm) = true →
  Forall component dest →
  game_mods_dir self = Some d → s !! d = Some Dir →
  s !! link = None ∨ is_link (s !! link) = true →
  ∃ m s1 s2,
    DataManager.import_mod dm pak_file s = (Ok (Some m), s1) ∧
    activate_instance self (Instance.Instance n [m] created) s1 = (Ok (1%nat, []), s2) ∧
    s2 !! link = Some (Symlink dest) ∧
    stat s2 link = Some (File sz doc) ∧
    verify_mods (Instance.Instance n [m] created) s2 = [].
Proof.
  intros dest link Hpak Hsfx Hdest Hlib Hcomp Hd Hs Hlink.
  pose proof (import_mod_fresh dm pak_file s sz doc Hpak Hsfx Hdest Hlib) as Himp.
  fold dest in Himp.
  set (m := Mod.Mod (stem pak_file) (name pak_file) (str dest) sz true) in *.
  set (s1 := <[dest := File sz doc]> s) in *.
  assert (Path (Mod.path m) = dest) as Hpath by (by apply Path_str).
  assert (link_path d m = link) as Hlp by done.
  assert (link ≠ dest) as Hne.
  { unfold link, dest. intros [_ Heq]%joinpath_inj.
    apply (f_equal String.length) in Heq. rewrite string_length_app in Heq.
    cbn in Heq. lia. }
  assert (d ≠ dest) as Hdne by congruence.
  assert (s1 !! d = Some Dir) as Hs1 by (unfold s1; by rewrite lookup_insert_ne).
  assert (s1 !! dest = Some (File sz doc)) as Hfile by (unfold s1; by rewrite lookup_insert_eq).
  assert (s1 !! link = s !! link) as Hl1 by (unfold s1; by rewrite lookup_insert_ne).
  destruct (clear_managed_symlinks_spec self d s1 Hd Hs1) as (c & Hc & Hlook).
  pose proof (cleared_dir _ _ _ Hlook Hs1) as Hcd.
  assert (c !! dest = Some (File sz doc)) as Hcdest.
  { rewrite Hlook, Hfile. rewrite decide_False; [done|]. by intros (_ & _ & ?). }
  assert (c !! link = None) as Hclink.
  { rewrite Hlook, Hl1. destruct (decide _) as [|Hno]; [done|].
    destruct Hlink as [->|Hlink]; [done|].
    apply is_link_Some in Hlink as [tgt Ht]. exfalso. apply Hno. rewrite Ht, <- Hlp.
    apply link_path_owned. }
  destruct (link_all_links d [m] 0 [] c Hcd) as (s2 & Hrun & Hlinks & Hrest).
  { apply NoDup_singleton. }
  { intros m' ->%list_elem_of_singleton. rewrite Hpath, Hlp. eauto. }
  assert (s2 !! link = Some (Symlink dest)) as Hl2.
  { rewrite <- Hlp, <- Hpath. apply Hlinks. apply list_elem_of_here. }
  assert (s2 !! dest = Some (File sz doc)) as Hd2.
  { rewrite Hrest; [done|]. intros m' ->%list_elem_of_singleton. by rewrite Hlp. }
  assert (stat s2 link = Some (File sz doc)) as Hstat.
  { unfold stat, MAXSYMLINKS. cbn [follow]. rewrite Hl2. cbn [follow]. rewrite Hd2.
    by rewrite option_bind_Some_l. }
  exists m, s1, s2. split_and!; try done.
  - destruct (activate_instance_resolved self d (Instance.Instance n [m] created) s1 Hd Hs1)
      as [_ ->].
    rewrite Hc. cbn [snd].
    change (Instance.get_enabled_mods (Instance.Instance n [m] created)) with [m].
    by rewrite Hrun.
  - unfold verify_mods. cbn [Instance.mods]. rewrite filter_cons, Hpath.
    rewrite (exists_file _ _ _ _ Hd2). rewrite decide_False by done. done.
Qed.

Lemma imported_mod_is_linked_witness :
  ∃ m s1 s2,
    DataManager.import_mod Sample.dm Fixture.armor Fixture.desk_store = (Ok (Some m), s1) ∧
    activate_instance Sample.resolved
      (Instance.Instance "light" [m] "2024-01-04T00:00:00") s1
    = (Ok (1%nat, []), s2) ∧
    s2 !! (mods_path Sample.ssd </> (DataManager.SYMLINK_PREFIX +:+ name Fixture.armor))
    = Some (Symlink (DataManager.mods_dir Sample.dm </> name Fixture.armor)) ∧
    stat s2 (mods_path Sample.ssd </> (DataManager.SYMLINK_PREFIX +:+ name Fixture.armor))
    = Some (File 7 None) ∧
    verify_mods (Instance.Instance "light" [m] "2024-01-04T00:00:00") s2 = [].
Proof.
  apply (imported_mod_is_linked Sample.dm Sample.resolved (mods_path Sample.ssd)
           Fixture.armor Fixture.desk_store 7 None "light" "2024-01-04T00:00:00").
  - vm_compute. reflexivity.
  - vm_compute. reflexivity.
  - vm_compute. reflexivity.
  - vm_compute. reflexivity.
  - by_compute.
  - reflexivity.
  - vm_compute. reflexivity.
  - left. vm_compute. reflexivity.
Defined.

End path_text.

(** ** Verifying the mods of an instance *)

Section verify.
Import FS Notions ModManager Invariant.
Implicit Types (s : fs) (p q d : path) (i : Instance.t) (m : Mod.t).

Lemma filter_sublist_impl {A} (P Q : A → Prop) `{!∀ x, Decision (P x)}
    `{!∀ x, Decision (Q x)} (l : list A) :
  (∀ x, P x → Q x) → filter P l `sublist_of` filter Q l.
Proof.
  intros HPQ. induction l as [|x l IH]; [done|]. rewrite !filter_cons.
  destruct (decide (P x)) as [HP|HP].
  - rewrite decide_True by auto. by constructor.
  - destruct (decide (Q x)); [by constructor|done].
Qed.

(** X25. [verify_mods] returns, in the order of the instance, the
    filename of every mod, enabled or not, whose path does not exist; it
    returns nothing exactly when every path exists; and files that appear
    can only shorten the list. *)
Theorem verify_mods_reports_missing i s :
  (∀ f, f ∈ verify_mods i s ↔
        ∃ m, m ∈ Instance.mods i ∧ Mod.filename m = f ∧
             exists_ s (Path (Mod.path m)) = false) ∧
  (verify_mods i s = [] ↔
   ∀ m, m ∈ Instance.mods i → exists_ s (Path (Mod.path m)) = true) ∧
  verify_mods i s `sublist_of` (Mod.filename <$> Instance.mods i) ∧
  (∀ s', s ⊆ s' → verify_mods i s' `sublist_of` verify_mods i s).
Proof.
  unfold verify_mods. split_and!.
  - intros f. rewrite list_elem_of_fmap. split.
    + intros (m & -> & [Hm Hin]%list_elem_of_filter). eauto.
    + intros (m & Hin & <- & Hm). exists m. split; [done|].
      by apply list_elem_of_filter.
  - split.
    + intros Hnil%fmap_nil_inv m Hin.
      destruct (exists_ s (Path (Mod.path m))) eqn:E; [done|].
      by destruct (filter_nil_not_elem_of _ _ m Hnil E).
    + intros Hall. induction (Instance.mods i) as [|m l IH]; [done|].
      rewrite filter_cons, (Hall m (list_elem_of_here _ _)), decide_False by done.
      apply IH. intros m' Hm'. apply Hall. by apply list_elem_of_further.
  - apply fmap_sublist, sublist_filter.
  - intros s' Hsub. apply fmap_sublist, filter_sublist_impl. intros m Hm.
    by apply (exists_weaken_false s s').
Qed.

Lemma verify_mods_reports_missing_witness :
  verify_mods Sample.profile Fixture.kept_store
  `sublist_of` verify_mods Sample.profile Sample.library_store.
Proof.
  apply (proj2 (proj2 (proj2 (verify_mods_reports_missing Sample.profile
                                Sample.library_store)))).
  apply insert_subseteq. vm_compute. reflexivity.
Defined.

End verify.

(** ** The window: activation and deactivation *)

Section handlers_state.
Import FS ModManager Invariant Notions Handlers.
Implicit Types (s : fs) (p q d : path) (mm : ModManager.t) (self : MainWindow.t)
  (cur : option Instance.t) (i : Instance.t).

(** Writing a document where nothing or a regular file is. *)
Lemma write_json_file len d (n : string) v s :
  s !! d = Some Dir →
  (s !! (d </> n) = None ∨ ∃ sz doc, s !! (d </> n) = Some (File sz doc)) →
  DataManager.write_json len (d </> n) v s
  = Ok (<[d </> n := File (len v) (Some v)]> s).
Proof.
  intros Hpar Hfree. unfold DataManager.write_json.
  assert (follow MAXSYMLINKS s (d </> n) = Some (d </> n)) as ->.
  { unfold MAXSYMLINKS. cbn [follow]. by destruct Hfree as [->|(sz & doc & ->)]. }
  destruct Hfree as [->|(sz & doc & ->)]; [|done].
  by rewrite check_parent_child.
Qed.

Lemma save_state_file len (dm : DataManager.t) st s :
  s !! DataManager.data_dir dm = Some Dir →
  (s !! DataManager.state_file dm = None ∨
   ∃ sz doc, s !! DataManager.state_file dm = Some (File sz doc)) →
  DataManager.save_state len dm st s
  = Ok (<[DataManager.state_file dm := File (len (AppState.to_dict st))
                                           (Some (AppState.to_dict st))]> s).
Proof. intros Hdir Hfile. by apply write_json_file. Qed.

(** The state file is no entry activation touches. *)
Lemma state_file_kept mm d i s (dm : DataManager.t) :
  game_mods_dir mm = Some d → s !! d = Some Dir →
  (activate_instance mm i s).2 !! DataManager.state_file dm
  = s !! DataManager.state_file dm ∧
  (deactivate_all mm s).2 !! DataManager.state_file dm
  = s !! DataManager.state_file dm.
Proof.
  intros Hd Hs. apply (activation_keeps mm d); [done|done|]. left.
  unfold DataManager.state_file. rewrite name_snoc. by intros [_ ?].
Qed.

Lemma dir_kept mm d i s q :
  game_mods_dir mm = Some d → s !! d = Some Dir → s !! q = Some Dir →
  (activate_instance mm i s).2 !! q = Some Dir ∧
  (deactivate_all mm s).2 !! q = Some Dir.
Proof.
  intros Hd Hs Hq. rewrite <- Hq. apply (activation_keeps mm d); [done|done|]. right.
  by rewrite Hq.
Qed.

Lemma game_path_valid mm d s :
  game_mods_dir mm = Some d → s !! d = Some Dir → is_game_path_valid mm s = true.
Proof.
  intros Hd Hs. unfold is_game_path_valid. rewrite Hd.
  apply (exists_of_stat _ _ Dir). by apply stat_Dir.
Qed.

(** X26. [_on_instance_activated] with the game mod directory resolved,
    an instance that loads and a state file that can be written: the
    handler returns normally; it records the instance as the active one
    in the state and in the state file, whatever errors the activation
    reported; it logs each error and then the success line with the
    count; it shows the warning box only when there were errors; apart
    from the state file the store is as the activation left it; and
    deleting the instance is refused afterwards. *)
Theorem activation_is_recorded len mm self cur (name : string) d i s :
  game_mods_dir mm = Some d → s !! d = Some Dir →
  (DataManager.load_instance (MainWindow.data_manager self) name s).1 = Some (Built i) →
  s !! DataManager.data_dir (MainWindow.data_manager self) = Some Dir →
  (s !! DataManager.state_file (MainWindow.data_manager self) = None ∨
   ∃ sz doc, s !! DataManager.state_file (MainWindow.data_manager self)
             = Some (File sz doc)) →
  ∃ out s2 count errors s1,
    _on_instance_activated len mm self cur name s = Some (out, s2) ∧
    activate_instance mm i s = (Ok (count, errors), s1) ∧
    raised out = None ∧
    MainWindow.state (window out)
    = AppState.AppState (Some name) (AppState.steam_path (MainWindow.state self)) ∧
    DataManager.load_state (MainWindow.data_manager self) s2
    = (Ok (Built (MainWindow.state (window out))), []) ∧
    MainWindow.log (window out)
    = (MainWindow.log self ++ ((fun error => (error, "error")) <$> errors) ++
       [("Activated instance '" +:+ name +:+ "': " +:+ pretty count
         +:+ " mod(s) enabled", "success")])%list ∧
    (errors = [] ↔ length (shown out) = 1%nat) ∧
    (∀ q, q ≠ DataManager.state_file (MainWindow.data_manager self) →
          s2 !! q = s1 !! q) ∧
    MainWindow.delete_instance (window out) name s2
    = (Ok (MainWindow.Warning
             "Cannot Delete"
             "Cannot delete the active instance. Please deactivate it first.",
           window out), s2).
Proof.
  intros Hd Hs Hload Hdir Hfile.
  unfold _on_instance_activated.
  rewrite (game_path_valid mm d s Hd Hs), Hload. cbn [negb].
  destruct (activate_instance_resolved mm d i s Hd Hs) as [_ Hact].
  destruct (state_file_kept mm d i s (MainWindow.data_manager self) Hd Hs) as [Hkept _].
  destruct (dir_kept mm d i s _ Hd Hs Hdir) as [Hdkept _].
  destruct (activate_instance mm i s) as [r s1] eqn:Hrun.
  assert (∃ count errors, r = Ok (count, errors)) as (count & errors & ->).
  { revert Hact. destruct (link_all _ _ _) as [[n e] ?]. intros [= -> _]. eauto. }
  cbn [snd] in Hkept, Hdkept.
  rewrite (save_state_file len _ _ s1 Hdkept) by (by rewrite Hkept).
  eexists _, _, count, errors, s1. split_and!; try done.
  - cbn [window logged set_active MainWindow.state MainWindow.data_manager].
    apply (load_state_saved len _ _ s1). by apply save_state_file; [|rewrite Hkept].
  - cbn [window logged set_active MainWindow.log MainWindow.data_manager MainWindow.state].
    by rewrite <- app_assoc.
  - cbn [shown]. destruct errors; cbn; split; done.
  - intros q Hq. by rewrite lookup_insert_ne.
  - unfold MainWindow.delete_instance.
    cbn [window logged set_active MainWindow.state AppState.active_instance].
    by rewrite bool_decide_eq_true_2.
Qed.

(** X27. [_on_instance_deactivated] with the game mod directory resolved
    and a state file that can be written: the handler returns normally
    and shows the number of links removed; no instance is active in the
    state and in the state file; no managed link is left; and deleting an
    instance is no longer refused: the handler deletes it, lists the
    instances again, and logs the number listed and the deletion, or
    passes on what the deletion or the listing raised. *)
Theorem deactivation_is_recorded len mm self cur d s :
  game_mods_dir mm = Some d → s !! d = Some Dir →
  s !! DataManager.data_dir (MainWindow.data_manager self) = Some Dir →
  (s !! DataManager.state_file (MainWindow.data_manager self) = None ∨
   ∃ sz doc, s !! DataManager.state_file (MainWindow.data_manager self)
             = Some (File sz doc)) →
  ∃ out s2 l,
    _on_instance_deactivated len mm self cur s = (out, s2) ∧
    get_managed_symlinks mm s = Ok l ∧
    raised out = None ∧
    shown out
    = [Information "Mods Deactivated"
         ("All mods have been deactivated." +:+ Str.nl +:+ Str.nl
          +:+ pretty (length l) +:+ " symlink(s) removed.")] ∧
    MainWindow.state (window out)
    = AppState.AppState None (AppState.steam_path (MainWindow.state self)) ∧
    DataManager.load_state (MainWindow.data_manager self) s2
    = (Ok (Built (MainWindow.state (window out))), []) ∧
    get_managed_symlinks mm s2 = Ok [] ∧
    ∀ name, MainWindow.delete_instance (window out) name s2
            = match DataManager.delete_instance (MainWindow.data_manager self) name s2 with
              | Raise e => (Raise e, s2)
              | Ok s' =>
                  match DataManager.list_instances (MainWindow.data_manager self) s' with
                  | Raise e => (Raise e, s')
                  | Ok instances =>
                      (Ok (MainWindow.Nothing,
                           logged (window out)
                             [("Loaded " +:+ pretty (length instances)
                               +:+ " instance(s)", "info");
                              ("Deleted instance: " +:+ name, "info")]),
                       s')
                  end
              end.
Proof.
  intros Hd Hs Hdir Hfile.
  unfold _on_instance_deactivated.
  rewrite (game_path_valid mm d s Hd Hs). cbn [negb].
  destruct (state_file_kept mm d (Instance.Instance "" [] "") s
              (MainWindow.data_manager self) Hd Hs) as [_ Hkept].
  destruct (dir_kept mm d (Instance.Instance "" [] "") s _ Hd Hs Hdir) as [_ Hdkept].
  destruct (clear_managed_symlinks_spec mm d s Hd Hs) as (c & Hc & Hlook).
  unfold deactivate_all in *. rewrite Hc in *. cbn [snd] in Hkept, Hdkept.
  rewrite (save_state_file len _ _ c Hdkept) by (by rewrite Hkept).
  eexists _, _, (filter (managed s) (children s d)). split_and!; try done.
  - unfold get_managed_symlinks, iterdir.
    by rewrite Hd, (exists_of_stat _ _ _ (stat_Dir _ _ Hs)), (stat_Dir _ _ Hs).
  - cbn [window logged set_active MainWindow.state MainWindow.data_manager].
    apply (load_state_saved len _ _ c). by apply save_state_file; [|rewrite Hkept].
  - pose proof (cleared_dir _ _ _ Hlook Hs) as Hcd.
    apply (get_managed_symlinks_none mm d); [done| |].
    + rewrite lookup_insert_ne; [done|]. intros <-.
      destruct Hfile as [Hf|(? & ? & Hf)]; rewrite Hkept in Hcd; congruence.
    + intros q.
      destruct (decide (q = DataManager.state_file (MainWindow.data_manager self)))
        as [->|Hne].
      * rewrite lookup_insert_eq. by intros (_ & _ & ?).
      * rewrite lookup_insert_ne by done. by apply (cleared_not_owned d s).
Qed.

Lemma activation_is_recorded_witness :
  ∃ out s2 count errors s1,
    _on_instance_activated (fun _ => 64%Z) Sample.resolved Sample.window None
                           "tactical" Fixture.session_store = Some (out, s2) ∧
    activate_instance Sample.resolved Sample.profile Fixture.session_store
    = (Ok (count, errors), s1) ∧
    raised out = None ∧
    MainWindow.state (window out)
    = AppState.AppState (Some "tactical")
                        (AppState.steam_path (MainWindow.state Sample.window)) ∧
    DataManager.load_state (MainWindow.data_manager Sample.window) s2
    = (Ok (Built (MainWindow.state (window out))), []) ∧
    MainWindow.log (window out)
    = (MainWindow.log Sample.window ++ ((fun error => (error, "error")) <$> errors) ++
       [("Activated instance '" +:+ "tactical" +:+ "': " +:+ pretty count
         +:+ " mod(s) enabled", "success")])%list ∧
    (errors = [] ↔ length (shown out) = 1%nat) ∧
    (∀ q, q ≠ DataManager.state_file (MainWindow.data_manager Sample.window) →
          s2 !! q = s1 !! q) ∧
    MainWindow.delete_instance (window out) "tactical" s2
    = (Ok (MainWindow.Warning
             "Cannot Delete"
             "Cannot delete the active instance. Please deactivate it first.",
           window out), s2).
Proof.
  apply (activation_is_recorded (fun _ => 64%Z) Sample.resolved Sample.window None
           "tactical" (mods_path Sample.ssd) Sample.profile Fixture.session_store).
  - reflexivity.
  - vm_compute. reflexivity.
  - vm_compute. reflexivity.
  - vm_compute. reflexivity.
  - left. vm_compute. reflexivity.
Defined.

Lemma deactivation_is_recorded_witness :
  ∃ out s2 l,
    _on_instance_deactivated (fun _ => 64%Z) Sample.resolved Sample.window None
                             Fixture.session_store = (out, s2) ∧
    get_managed_symlinks Sample.resolved Fixture.session_store = Ok l ∧
    raised out = None ∧
    shown out
    = [Information "Mods Deactivated"
         ("All mods have been deactivated." +:+ Str.nl +:+ Str.nl
          +:+ pretty (length l) +:+ " symlink(s) removed.")] ∧
    MainWindow.state (window out)
    = AppState.AppState None (AppState.steam_path (MainWindow.state Sample.window)) ∧
    DataManager.load_state (MainWindow.data_manager Sample.window) s2
    = (Ok (Built (MainWindow.state (window out))), []) ∧
    get_managed_symlinks Sample.resolved s2 = Ok [] ∧
    ∀ name, MainWindow.delete_instance (window out) name s2
            = match DataManager.delete_instance (MainWindow.data_manager Sample.window) name s2 with
              | Raise e => (Raise e, s2)
              | Ok s' =>
                  match DataManager.list_instances (MainWindow.data_manager Sample.window) s' with
                  | Raise e => (Raise e, s')
                  | Ok instances =>
                      (Ok (MainWindow.Nothing,
                           logged (window out)
                             [("Loaded " +:+ pretty (length instances)
                               +:+ " instance(s)", "info");
                              ("Deleted instance: " +:+ name, "info")]),
                       s')
                  end
              end.
Proof.
  apply (deactivation_is_recorded (fun _ => 64%Z) Sample.resolved Sample.window None
           (mods_path Sample.ssd) Fixture.session_store).
  - reflexivity.
  - vm_compute. reflexivity.
  - vm_compute. reflexivity.
  - left. vm_compute. reflexivity.
Defined.

End handlers_state.

(** ** The window: toggling and removing mods *)

Section handlers_instance.
Import FS Handlers.
Implicit Types (s : fs) (self : MainWindow.t) (i : Instance.t) (m : Mod.t).



Lemma save_instance_saved len (dm : DataManager.t) i s :
  (save_instance len dm i s).1 = None →
  DataManager.save_instance len dm i s = Ok (save_instance len dm i s).2.
Proof.
  unfold save_instance, DataManager.save_instance.
  destruct (mkdir_exist_ok _ s) as [s1|]; [|done]. rewrite result_bind_Ok.
  by destruct (DataManager.write_json _ _ _ s1).
Qed.

Lemma toggle_filenames (f : string) (b : bool) (l : list Mod.t) :
  Mod.filename <$> toggle f b l = Mod.filename <$> l.
Proof.
  induction l as [|m l IH]; [done|]. cbn [toggle].
  destruct (String.eqb _ _); [done|]. cbn. by rewrite IH.
Qed.

Lemma toggle_absent (f : string) (b : bool) (l : list Mod.t) :
  f ∉ (Mod.filename <$> l) → toggle f b l = l.
Proof.
  induction l as [|m l IH]; [done|]. rewrite fmap_cons, not_elem_of_cons.
  intros [Hm Hl]. cbn [toggle].
  destruct (String.eqb_spec (Mod.filename m) f) as [|_]; [done|]. by rewrite IH.
Qed.

(** With distinct filenames the loop sets the flag of every mod of the
    filename: there is one at most. *)
Lemma toggle_map (f : string) (b : bool) (l : list Mod.t) :
  NoDup (Mod.filename <$> l) →
  toggle f b l
  = (fun m => if String.eqb (Mod.filename m) f then flagged b m else m) <$> l.
Proof.
  induction l as [|m l IH]; [done|]. rewrite fmap_cons, NoDup_cons.
  intros [Hm Hnd]. cbn [toggle fmap list_fmap].
  destruct (String.eqb_spec (Mod.filename m) f) as [Heq|Hne].
  - f_equal. rewrite <- (toggle_absent f b l) at 1 by congruence.
    rewrite (IH Hnd). done.
  - f_equal. by apply IH.
Qed.

(** X28. [_on_mod_toggled] on an instance with distinct filenames sets
    the flag of the mod of the filename and of no other; the name, the
    timestamp, the filenames and their order stay; a filename the
    instance does not have leaves it as it is; the enabled mods
    afterwards are the ones enabled before under another filename and,
    when the flag is set, the mod of the filename.  When the handler
    returns normally the instance loads from the store as toggled, and
    one line is logged. *)
Theorem mod_toggle_is_saved len self i (f : string) (b : bool) s :
  NoDup (Mod.filename <$> Instance.mods i) →
  let r := _on_mod_toggled len self (Some i) f b s in
  ∃ i', current_instance r.1 = Some i' ∧
        Instance.name i' = Instance.name i ∧
        Instance.created i' = Instance.created i ∧
        Instance.mods i'
        = (fun m => if String.eqb (Mod.filename m) f then flagged b m else m)
            <$> Instance.mods i ∧
        Mod.filename <$> Instance.mods i' = Mod.filename <$> Instance.mods i ∧
        (f ∉ (Mod.filename <$> Instance.mods i) → i' = i) ∧
        (∀ m, m ∈ Instance.get_enabled_mods i' ↔
              (m ∈ Instance.get_enabled_mods i ∧ Mod.filename m ≠ f) ∨
              (b = true ∧ ∃ m0, m0 ∈ Instance.mods i ∧ Mod.filename m0 = f ∧
                                m = flagged true m0)) ∧
        (raised r.1 = None →
         DataManager.load_instance (MainWindow.data_manager self) (Instance.name i) r.2
         = (Some (Built i'), []) ∧
         MainWindow.log (window r.1)
         = (MainWindow.log self ++
            [("Mod '" +:+ f +:+ "' " +:+ (if b then "enabled" else "disabled"),
              "info")])%list).
Proof.
  intros Hnd r.
  set (i' := Instance.Instance (Instance.name i) (toggle f b (Instance.mods i))
                               (Instance.created i)).
  exists i'. split_and!.
  - unfold r, _on_mod_toggled. fold i'.
    by destruct (save_instance len _ i' s) as [[?|] ?].
  - done.
  - done.
  - by apply toggle_map.
  - apply toggle_filenames.
  - intros Hf. unfold i'. rewrite toggle_absent by done. by destruct i.
  - intros m. unfold Instance.get_enabled_mods. cbn [Instance.mods i'].
    rewrite (toggle_map f b _ Hnd), !list_elem_of_filter, list_elem_of_fmap. split.
    + intros [Hen (m0 & -> & Hm0)].
      destruct (String.eqb_spec (Mod.filename m0) f) as [Heq|Hne].
      * right. cbn in Hen. subst b. eauto.
      * left. done.
    + intros [[[Hen Hin] Hne]|(-> & m0 & Hin & Hf & ->)].
      * split; [done|]. exists m. split; [|done].
        by destruct (String.eqb_spec (Mod.filename m) f).
      * split; [done|]. exists m0. split; [|done].
        by destruct (String.eqb_spec (Mod.filename m0) f).
  - unfold r, _on_mod_toggled. fold i'.
    pose proof (save_instance_saved len (MainWindow.data_manager self) i' s) as Hsave.
    destruct (save_instance len _ i' s) as [[e|] s']; [done|]. intros _.
    split; [|done]. cbn [fst snd] in *.
    apply (load_instance_saved len _ i' s). by apply Hsave.
Qed.

Lemma fold_remove_mods (filenames : list string) i :
  Instance.mods (fold_left (fun i f => Instance.remove_mod f i) filenames i)
  = filter (fun m => Mod.filename m ∉ filenames) (Instance.mods i) ∧
  Instance.name (fold_left (fun i f => Instance.remove_mod f i) filenames i)
  = Instance.name i ∧
  Instance.created (fold_left (fun i f => Instance.remove_mod f i) filenames i)
  = Instance.created i.
Proof.
  revert i. induction filenames as [|f l IH]; intros i.
  - cbn. split_and!; try done. induction (Instance.mods i) as [|m k IHk]; [done|].
    rewrite filter_cons, decide_True by apply not_elem_of_nil. by rewrite <- IHk.
  - cbn [fold_left]. destruct (IH (Instance.remove_mod f i)) as (-> & -> & ->).
    split_and!; try done. cbn [Instance.remove_mod Instance.mods].
    rewrite list_filter_filter. apply list_filter_iff. intros m.
    rewrite not_elem_of_cons. tauto.
Qed.

(** X29. [remove_mods_from_instance] drops from the instance on display
    the mods of the filenames asked for and no other, keeping the order,
    the name and the timestamp; it logs one line for every filename asked
    for, also for those the instance does not have, and shows no box.
    When it returns normally the instance loads from the store without
    the mods removed. *)
Theorem removed_mods_are_gone len self i (filenames : list string) s :
  let r := remove_mods_from_instance len self (Some i) filenames s in
  ∃ i', current_instance r.1 = Some i' ∧
        Instance.name i' = Instance.name i ∧
        Instance.created i' = Instance.created i ∧
        Instance.mods i'
        = filter (fun m => Mod.filename m ∉ filenames) (Instance.mods i) ∧
        MainWindow.log (window r.1)
        = (MainWindow.log self ++
           ((fun filename => ("Removed mod: " +:+ filename, "info")) <$> filenames))%list ∧
        shown r.1 = [] ∧
        (raised r.1 = None →
         DataManager.load_instance (MainWindow.data_manager self) (Instance.name i) r.2
         = (Some (Built i'), [])).
Proof.
  intros r.
  set (i' := fold_left (fun i f => Instance.remove_mod f i) filenames i).
  destruct (fold_remove_mods filenames i) as (Hmods & Hname & Hcreated). fold i' in Hmods, Hname, Hcreated.
  exists i'. unfold r, remove_mods_from_instance. fold i'.
  pose proof (save_instance_saved len (MainWindow.data_manager self) i' s) as Hsave.
  destruct (save_instance len _ i' s) as [[e|] s']; split_and!; try done.
  intros _. cbn [fst snd] in *. rewrite <- Hname.
  apply (load_instance_saved len _ i' s). by apply Hsave.
Qed.

Lemma mod_toggle_is_saved_witness :
  let r := _on_mod_toggled (fun _ => 64%Z) Sample.window (Some Sample.profile)
                           "Overhaul_v2.pak" false Sample.instances_store in
  ∃ i', current_instance r.1 = Some i' ∧
        Instance.name i' = Instance.name Sample.profile ∧
        Instance.created i' = Instance.created Sample.profile ∧
        Instance.mods i'
        = (fun m => if String.eqb (Mod.filename m) "Overhaul_v2.pak"
                    then flagged false m else m)
            <$> Instance.mods Sample.profile ∧
        Mod.filename <$> Instance.mods i' = Mod.filename <$> Instance.mods Sample.profile ∧
        ("Overhaul_v2.pak" ∉ (Mod.filename <$> Instance.mods Sample.profile) →
         i' = Sample.profile) ∧
        (∀ m, m ∈ Instance.get_enabled_mods i' ↔
              (m ∈ Instance.get_enabled_mods Sample.profile ∧
               Mod.filename m ≠ "Overhaul_v2.pak") ∨
              (false = true ∧
               ∃ m0, m0 ∈ Instance.mods Sample.profile ∧
                     Mod.filename m0 = "Overhaul_v2.pak" ∧ m = flagged true m0)) ∧
        (raised r.1 = None →
         DataManager.load_instance (MainWindow.data_manager Sample.window)
                                   (Instance.name Sample.profile) r.2
         = (Some (Built i'), []) ∧
         MainWindow.log (window r.1)
         = (MainWindow.log Sample.window ++
            [("Mod '" +:+ "Overhaul_v2.pak" +:+ "' " +:+
              (if false then "enabled" else "disabled"), "info")])%list).
Proof.
  apply (mod_toggle_is_saved (fun _ => 64%Z) Sample.window Sample.profile
           "Overhaul_v2.pak" false Sample.instances_store).
  by_compute.
Defined.

Lemma removed_mods_are_gone_witness :
  ∃ i', Instance.mods i'
        = filter (fun m => Mod.filename m ∉ ["Overhaul_v1.pak"; "Other.pak"])
                 (Instance.mods Sample.profile) ∧
        DataManager.load_instance (MainWindow.data_manager Sample.window)
          (Instance.name Sample.profile)
          (remove_mods_from_instance (fun _ => 64%Z) Sample.window (Some Sample.profile)
             ["Overhaul_v1.pak"; "Other.pak"] Sample.instances_store).2
        = (Some (Built i'), []).
Proof.
  destruct (removed_mods_are_gone (fun _ => 64%Z) Sample.window Sample.profile
              ["Overhaul_v1.pak"; "Other.pak"] Sample.instances_store)
    as (i' & _ & _ & _ & Hmods & _ & _ & Hload).
  exists i'. split; [exact Hmods|]. apply Hload. vm_compute. reflexivity.
Defined.

End handlers_instance.

(** ** The window: the library scan *)

Section handlers_scan.
Import FS Handlers.
Implicit Types (s : fs) (self : MainWindow.t) (i : Instance.t) (m : Mod.t).



Lemma fold_scan_step (l : list Mod.t) (before : Instance.t * nat * nat * list (string * string)) :
  scanned l before (fold_left scan_step l before).
Proof.
  revert before. induction l as [|m l IH]; intros [[[i a] k] lines].
  - cbn. split_and!;
      first [done | lia | by intros ? ?%elem_of_nil | by intros; left].
  - cbn [fold_left]. specialize (IH (scan_step (i, a, k, lines) m)).
    destruct (fold_left scan_step l _) as [[[i' a'] k'] lines'].
    unfold scan_step in IH.
    destruct (decide (Mod.filename m ∈ Mod.filename <$> Instance.mods i)) as [Hin|Hout].
    + rewrite (add_mod_present _ _ Hin) in IH.
      destruct IH as (H1 & H2 & H3 & H4 & H5 & H6 & H7 & H8 & H9 & H10 & H11).
      unfold scanned. cbn [length]. split_and!; try done; try lia.
      * intros m' [->|Hm']%elem_of_cons; [|by apply H8].
        destruct H5 as [t ->]. rewrite fmap_app. apply elem_of_app. by left.
      * intros m' Hm'. destruct (H9 m' Hm'); [by left|right]. by apply list_elem_of_further.
    + rewrite (add_mod_absent _ _ Hout) in IH.
      destruct IH as (H1 & H2 & H3 & H4 & H5 & H6 & H7 & H8 & H9 & H10 & H11).
      cbn [Instance.mods Instance.name Instance.created] in *.
      rewrite length_app in H6, H7. cbn [length] in *.
      unfold scanned. cbn [length]. split_and!; try done; try lia.
      * destruct H5 as [t ->]. exists ([m] ++ t)%list. by rewrite app_assoc.
      * intros m' [->|Hm']%elem_of_cons; [|by apply H8].
        destruct H5 as [t ->]. rewrite !fmap_app. apply elem_of_app. left.
        apply elem_of_app. right. apply list_elem_of_here.
      * intros m' Hm'. destruct (H9 m' Hm') as [[?| ->%list_elem_of_singleton]%elem_of_app|?].
        -- by left.
        -- right. apply list_elem_of_here.
        -- right. by apply list_elem_of_further.
      * intros Hnd. apply H10. rewrite fmap_app. apply NoDup_app. split_and!; [done| |apply NoDup_singleton].
        intros f Hf ->%list_elem_of_singleton. done.
Qed.

(** X30. [scan_and_add_library_mods] with mods in the library: every
    library mod is added or skipped; the instance keeps its mods and gets
    the added ones after them, so that afterwards it has a mod of every
    filename of the library and no mod from elsewhere; distinct filenames
    stay distinct; when nothing is added the instance and the store are
    unchanged; when the handler returns normally it shows the summary
    with the two counts, and after an addition the instance loads from
    the store as extended. *)
Theorem library_scan_adds_missing len self i s (l : list Mod.t) :
  Library.list_library_mods (MainWindow.data_manager self) s = Ok l → l ≠ [] →
  let r := scan_and_add_library_mods len self (Some i) s in
  ∃ i' (added_count skipped_count : nat),
    current_instance r.1 = Some i' ∧
    (added_count + skipped_count = length l)%nat ∧
    Instance.name i' = Instance.name i ∧
    Instance.created i' = Instance.created i ∧
    Instance.mods i `prefix_of` Instance.mods i' ∧
    length (Instance.mods i') = (length (Instance.mods i) + added_count)%nat ∧
    (∀ m, m ∈ l → Mod.filename m ∈ Mod.filename <$> Instance.mods i') ∧
    (∀ m, m ∈ Instance.mods i' → m ∈ Instance.mods i ∨ m ∈ l) ∧
    (NoDup (Mod.filename <$> Instance.mods i) →
     NoDup (Mod.filename <$> Instance.mods i')) ∧
    (added_count = 0%nat → i' = i ∧ r.2 = s ∧ raised r.1 = None) ∧
    (raised r.1 = None →
     shown r.1
     = [Information "Library Scan Complete"
          (scan_summary (Instance.name i) added_count skipped_count)] ∧
     ((0 < added_count)%nat →
      DataManager.load_instance (MainWindow.data_manager self) (Instance.name i) r.2
      = (Some (Built i'), []))).
Proof.
  intros Hl Hne r.
  pose proof (fold_scan_step l (i, 0%nat, 0%nat, [])) as Hscan.
  unfold r, scan_and_add_library_mods. rewrite Hl.
  destruct l as [|m0 l0]; [done|]. set (l := m0 :: l0) in *.
  destruct (fold_left scan_step l _) as [[[i' a] k] lines].
  destruct Hscan as (H1 & H2 & H3 & H4 & H5 & H6 & H7 & H8 & H9 & H10 & H11).
  rewrite Nat.sub_0_r in H6. cbn [length] in H1.
  exists i', a, k.
  pose proof (save_instance_saved len (MainWindow.data_manager self) i' s) as Hsave.
  destruct (0 <? a)%nat eqn:Ha.
  - apply Nat.ltb_lt in Ha.
    destruct (save_instance len _ i' s) as [[e|] s']; cbn [fst snd current_instance raised shown];
      (split_and!; try done; try lia).
    intros _. split; [by rewrite H3|]. intros _. rewrite <- H3.
    apply (load_instance_saved len _ i' s). by apply Hsave.
  - apply Nat.ltb_ge in Ha. assert (a = 0%nat) as -> by lia.
    destruct (H11 eq_refl) as [-> ->].
    cbn [fst snd current_instance raised shown]. split_and!; try done; try lia.
    intros _. split; [done|lia].
Qed.

Lemma library_scan_adds_missing_witness :
  let r := scan_and_add_library_mods (fun _ => 64%Z) Sample.window
             (Some Fixture.sole_profile) Fixture.shelf_store in
  ∃ i' (added_count skipped_count : nat),
    current_instance r.1 = Some i' ∧
    (added_count + skipped_count = length Fixture.shelf)%nat ∧
    Instance.name i' = Instance.name Fixture.sole_profile ∧
    Instance.created i' = Instance.created Fixture.sole_profile ∧
    Instance.mods Fixture.sole_profile `prefix_of` Instance.mods i' ∧
    length (Instance.mods i')
    = (length (Instance.mods Fixture.sole_profile) + added_count)%nat ∧
    (∀ m, m ∈ Fixture.shelf → Mod.filename m ∈ Mod.filename <$> Instance.mods i') ∧
    (∀ m, m ∈ Instance.mods i' → m ∈ Instance.mods Fixture.sole_profile ∨ m ∈ Fixture.shelf) ∧
    (NoDup (Mod.filename <$> Instance.mods Fixture.sole_profile) →
     NoDup (Mod.filename <$> Instance.mods i')) ∧
    (added_count = 0%nat →
     i' = Fixture.sole_profile ∧ r.2 = Fixture.shelf_store ∧ raised r.1 = None) ∧
    (raised r.1 = None →
     shown r.1
     = [Information "Library Scan Complete"
          (scan_summary (Instance.name Fixture.sole_profile) added_count skipped_count)] ∧
     ((0 < added_count)%nat →
      DataManager.load_instance (MainWindow.data_manager Sample.window)
                                (Instance.name Fixture.sole_profile) r.2
      = (Some (Built i'), []))).
Proof.
  apply (library_scan_adds_missing (fun _ => 64%Z) Sample.window Fixture.sole_profile
           Fixture.shelf_store Fixture.shelf).
  - vm_compute. reflexivity.
  - discriminate.
Defined.

End handlers_scan.
